(** * Edge resistance and snapping (metacity, src/edge-resistance.c)

    A shallow embedding of the edge-resistance code: the two search helpers
    over a sorted edge array, the per-side resistance walk with its timer
    and keyboard-buildup state, the snap engine, the per-side orchestration,
    the reconciliation done for a move, the extraction of window edges
    at the start of a grab, and the release of the cached edges and of the
    pending timers at its end.

    Conventions.
    - A C [int] is a [Z]; every arithmetic operation of the source goes
      through [wrap], the two's-complement reduction to 32 bits.  Signed
      overflow is undefined in C, so the properties that depend on
      arithmetic are stated for values that keep every operation in
      range.
    - A [GArray] of [MetaEdge*] is a [list MetaEdge]; reading it with
      [g_array_index] outside its bounds is the error [Fault].
    - A failed [g_assert] is the outcome [AssertFailed].
    - [while] and [for] loops are run by [while_loop] with a fuel bound
      computed from the array length; [OutOfFuel] is a separate outcome and
      the lemmas show it is never produced.
    - Mutable structures ([ResistanceDataForAnEdge], the main loop's list of
      pending sources) are passed in and returned explicitly. *)

From Stdlib Require Import ZArith List Bool Lia Permutation.
Import ListNotations.
Open Scope Z_scope.

(** ** Machine integers *)

Definition INT_MAX : Z := 2147483647.
Definition INT_MIN : Z := -2147483648.
Definition G_MAXINT : Z := INT_MAX.

Definition wrap (z : Z) : Z := (z + 2147483648) mod 4294967296 - 2147483648.

Definition int_add (a b : Z) : Z := wrap (a + b).
Definition int_sub (a b : Z) : Z := wrap (a - b).
Definition int_mul (a b : Z) : Z := wrap (a * b).
Definition int_neg (a : Z) : Z := wrap (- a).
Definition int_div (a b : Z) : Z := wrap (Z.quot a b).

(** glib's [#define ABS(a) (((a) < 0) ? -(a) : (a))]. *)
Definition ABS (a : Z) : Z := if a <? 0 then int_neg a else a.

Definition in_int (z : Z) : Prop := INT_MIN <= z <= INT_MAX.

(** ** Outcomes of a run *)

Inductive result (A : Type) : Type :=
| Ret (a : A)
| Fault
| AssertFailed
| OutOfFuel.
Arguments Ret {A} a.
Arguments Fault {A}.
Arguments AssertFailed {A}.
Arguments OutOfFuel {A}.

Definition bind {A B : Type} (c : result A) (k : A -> result B) : result B :=
  match c with
  | Ret a => k a
  | Fault => Fault
  | AssertFailed => AssertFailed
  | OutOfFuel => OutOfFuel
  end.

Notation "x <- c ;; k" := (bind c (fun x => k))
  (at level 61, c at next level, right associativity).
Notation "' pat <- c ;; k" := (bind c (fun x => match x with pat => k end))
  (at level 61, pat pattern, c at next level, right associativity).

(** One iteration of a loop body either goes on with a new loop state or
    leaves the loop ([break], or [return] from the enclosing function). *)
Inductive ctl (S R : Type) : Type :=
| Continue (s : S)
| Break (r : R).
Arguments Continue {S R} s.
Arguments Break {S R} r.

Fixpoint while_loop {S R : Type} (fuel : nat) (cond : S -> bool)
    (body : S -> result (ctl S R)) (s : S) : result (ctl S R) :=
  if cond s then
    match fuel with
    | O => OutOfFuel
    | Datatypes.S fuel' =>
        c <- body s ;;
        match c with
        | Continue s' => while_loop fuel' cond body s'
        | Break r => Ret (Break r)
        end
    end
  else Ret (Continue s).

(** ** Data model (boxes.h, common.h) *)

Record MetaRectangle : Type := meta_rect
  { rect_x : Z; rect_y : Z; rect_width : Z; rect_height : Z }.

Inductive MetaDirection : Type :=
| META_DIRECTION_LEFT
| META_DIRECTION_RIGHT
| META_DIRECTION_TOP
| META_DIRECTION_BOTTOM.

Inductive MetaEdgeType : Type :=
| META_EDGE_WINDOW
| META_EDGE_XINERAMA
| META_EDGE_SCREEN.

Record MetaEdge : Type := mk_edge
  { rect : MetaRectangle; side_type : MetaDirection; edge_type : MetaEdgeType }.

Definition GArray : Type := list MetaEdge.

(** [edges->len], a [guint], read where an [int] is expected. *)
Definition g_array_len (edges : GArray) : Z := wrap (Z.of_nat (length edges)).

(** [g_array_index (edges, MetaEdge*, i)] followed by the dereference of the
    pointer read. *)
Definition g_array_index (edges : GArray) (i : Z) : result MetaEdge :=
  if i <? 0 then Fault
  else match nth_error edges (Z.to_nat i) with
       | Some e => Ret e
       | None => Fault
       end.

(** [horizontal ? edge->rect.x : edge->rect.y] *)
Definition edge_coord (horizontal : bool) (edge : MetaEdge) : Z :=
  if horizontal then rect_x (rect edge) else rect_y (rect edge).

(** ** Binary range search *)

(** The binary search loop: its state is [(low, high, mid, compare)]. *)
Definition search_cond (s : Z * Z * Z * Z) : bool :=
  let '(low, high, _, _) := s in low <? high.

Definition search_body (edges : GArray) (position : Z) (horizontal : bool)
    (s : Z * Z * Z * Z) : result (ctl (Z * Z * Z * Z) (Z * Z)) :=
  let '(low, high, _, _) := s in
  let mid := int_add low (int_div (int_sub high low) 2) in
  edge <- g_array_index edges mid ;;
  let compare := edge_coord horizontal edge in
  if compare =? position then Ret (Break (mid, compare))
  else if compare >? position
       then Ret (Continue (low, int_sub mid 1, mid, compare))
       else Ret (Continue (int_add mid 1, high, mid, compare)).

(** The opening of both search helpers: the initial read of element 0 and
    the binary search; yields the final [mid] and [compare]. *)
Definition binary_search (edges : GArray) (position : Z) (horizontal : bool)
  : result (Z * Z) :=
  edge <- g_array_index edges 0 ;;
  let compare := edge_coord horizontal edge in
  let high := int_sub (g_array_len edges) 1 in
  c <- while_loop (length edges) search_cond
         (search_body edges position horizontal) (0, high, 0, compare) ;;
  match c with
  | Continue (_, _, mid, compare) => Ret (mid, compare)
  | Break (mid, compare) => Ret (mid, compare)
  end.

(** [while (test (compare) && guard (mid)) { mid += step; ... }], on the
    state [(mid, compare)]. *)
Definition scan_cond (test guard : Z -> bool) (s : Z * Z) : bool :=
  test (snd s) && guard (fst s).

Definition scan_body (edges : GArray) (horizontal : bool) (step : Z)
    (s : Z * Z) : result (ctl (Z * Z) Empty_set) :=
  let mid := int_add (fst s) step in
  edge <- g_array_index edges mid ;;
  Ret (Continue (mid, edge_coord horizontal edge)).

Definition linear_scan (edges : GArray) (horizontal : bool)
    (test : Z -> bool) (guard : Z -> bool) (step : Z) (mid compare : Z)
  : result (Z * Z) :=
  c <- while_loop (length edges) (scan_cond test guard)
         (scan_body edges horizontal step) (mid, compare) ;;
  match c with
  | Continue s => Ret s
  | Break r => match r with end
  end.

Definition find_index_of_edge_near_position (edges : GArray) (position : Z)
    (want_interval_min horizontal : bool) : result Z :=
  '(mid, compare) <- binary_search edges position horizontal ;;
  let last := int_sub (g_array_len edges) 1 in
  if want_interval_min then
    '(mid, compare) <- linear_scan edges horizontal
        (fun compare => compare >=? position) (fun mid => mid >? 0) (-1)
        mid compare ;;
    '(mid, compare) <- linear_scan edges horizontal
        (fun compare => compare <? position) (fun mid => mid <? last) 1
        mid compare ;;
    if compare <? position then Ret (g_array_len edges) else Ret mid
  else
    '(mid, compare) <- linear_scan edges horizontal
        (fun compare => compare <=? position) (fun mid => mid <? last) 1
        mid compare ;;
    '(mid, compare) <- linear_scan edges horizontal
        (fun compare => compare >? position) (fun mid => mid >? 0) (-1)
        mid compare ;;
    if compare >? position then Ret (-1) else Ret mid.

(** ** Windows, screens and the display (window.h, screen.h, display.h) *)

Inductive MetaWindowType : Type :=
| META_WINDOW_NORMAL
| META_WINDOW_DESKTOP
| META_WINDOW_DOCK
| META_WINDOW_DIALOG
| META_WINDOW_MODAL_DIALOG
| META_WINDOW_TOOLBAR
| META_WINDOW_MENU
| META_WINDOW_UTILITY
| META_WINDOW_SPLASHSCREEN.

Definition MetaWindowType_eqb (a b : MetaWindowType) : bool :=
  match a, b with
  | META_WINDOW_NORMAL, META_WINDOW_NORMAL
  | META_WINDOW_DESKTOP, META_WINDOW_DESKTOP
  | META_WINDOW_DOCK, META_WINDOW_DOCK
  | META_WINDOW_DIALOG, META_WINDOW_DIALOG
  | META_WINDOW_MODAL_DIALOG, META_WINDOW_MODAL_DIALOG
  | META_WINDOW_TOOLBAR, META_WINDOW_TOOLBAR
  | META_WINDOW_MENU, META_WINDOW_MENU
  | META_WINDOW_UTILITY, META_WINDOW_UTILITY
  | META_WINDOW_SPLASHSCREEN, META_WINDOW_SPLASHSCREEN => true
  | _, _ => false
  end.

(** A [MetaWindow*]: [window_addr] is the pointer itself, [screen] the
    [MetaScreen*] stored in the window. *)
Record MetaWindow : Type := mk_window
  { window_addr : Z;
    screen : Z;
    type : MetaWindowType;
    require_on_single_xinerama : bool;
    require_fully_onscreen : bool }.

Record MetaWorkspace : Type := mk_workspace
  { xinerama_edges : list MetaEdge;
    screen_edges : list MetaEdge }.

Record MetaScreen : Type := mk_screen
  { screen_addr : Z;
    screen_rect : MetaRectangle;
    active_workspace : MetaWorkspace }.

(** A [GSourceFunc] is known by its address only. *)
Definition GSourceFunc : Type := Z.

Record ResistanceDataForAnEdge : Type := mk_resistance_data
  { timeout_setup : bool;
    timeout_id : Z;
    timeout_edge_pos : Z;
    timeout_over : bool;
    timeout_func : GSourceFunc;
    window : MetaWindow;
    keyboard_buildup : Z;
    allow_past_screen_edge : bool }.

Record MetaEdgeResistanceData : Type := mk_edge_data
  { left_edges : GArray;
    right_edges : GArray;
    top_edges : GArray;
    bottom_edges : GArray;
    left_data : ResistanceDataForAnEdge;
    right_data : ResistanceDataForAnEdge;
    top_data : ResistanceDataForAnEdge;
    bottom_data : ResistanceDataForAnEdge }.

Record MetaDisplay : Type := mk_display
  { grab_screen : MetaScreen;
    grab_window : Z;
    grab_anchor_root_y : Z;
    grab_initial_window_pos : MetaRectangle;
    grab_wireframe_active : bool;
    grab_wireframe_rect : MetaRectangle;
    grab_last_user_action_was_snap : bool;
    grab_edge_resistance_data : option MetaEdgeResistanceData }.

(** ** The main loop's timeout sources (glib) *)

(** The [gpointer] handed to a source's callback: the address of one of the
    four [ResistanceDataForAnEdge] of the grab, or something else. *)
Inductive gpointer : Type :=
| resistance_data_of (side : MetaDirection)
| other_data (addr : Z).

Record GSource : Type := mk_source
  { source_id : Z; source_interval : Z; source_data : gpointer }.

Definition MainLoop : Type := list GSource.

Definition fresh_source_id (ml : MainLoop) : Z :=
  1 + fold_right (fun s acc => Z.max (source_id s) acc) 0 ml.

(** [g_timeout_add]: attaches a new source and returns its id, which is
    positive and differs from the id of every attached source. *)
Definition g_timeout_add (interval : Z) (data : gpointer) (ml : MainLoop)
  : Z * MainLoop :=
  let id := fresh_source_id ml in
  (id, mk_source id interval data :: ml).

Definition g_source_remove (id : Z) (ml : MainLoop) : MainLoop :=
  filter (fun s => negb (source_id s =? id)) ml.

(** ** Collaborators

    Functions of boxes.c, window.c, stack.c and glib's sorting routines that
    the file calls. *)
Class Collaborators : Type :=
  { meta_rectangle_vert_overlap : MetaRectangle -> MetaRectangle -> bool;
    meta_rectangle_horiz_overlap : MetaRectangle -> MetaRectangle -> bool;
    meta_rectangle_equal : MetaRectangle -> MetaRectangle -> bool;
    meta_rectangle_intersect : MetaRectangle -> MetaRectangle -> MetaRectangle;
    meta_rectangle_edge_cmp : MetaEdge -> MetaEdge -> Z;
    meta_rectangle_remove_intersections_with_boxes_from_edges :
      list MetaEdge -> list MetaRectangle -> list MetaEdge;
    meta_rectangle_resize_with_gravity :
      MetaRectangle -> Z -> Z -> Z -> MetaRectangle;
    meta_window_should_be_showing : MetaWindow -> bool;
    meta_window_get_outer_rect : MetaWindow -> MetaRectangle;
    meta_window_get_xor_rect : MetaWindow -> MetaRectangle -> MetaRectangle;
    meta_stack_list_windows : MetaScreen -> list MetaWindow;
    g_list_sort : (MetaEdge -> MetaEdge -> Z) -> list MetaEdge -> list MetaEdge;
    g_array_sort : (MetaEdge -> MetaEdge -> Z) -> GArray -> GArray }.

(** Modelled from the spec: the box-side macros of boxes.h, which is not
    among the sources.  A rectangle is its origin and its extent, so the
    right side is [x + width] and the bottom side [y + height]; this is how
    [apply_edge_resistance_to_each_side] rebuilds a rectangle from four
    sides ([meta_rect (left, top, right - left, bottom - top)]). *)
Definition BOX_LEFT (box : MetaRectangle) : Z := rect_x box.
Definition BOX_RIGHT (box : MetaRectangle) : Z :=
  int_add (rect_x box) (rect_width box).
Definition BOX_TOP (box : MetaRectangle) : Z := rect_y box.
Definition BOX_BOTTOM (box : MetaRectangle) : Z :=
  int_add (rect_y box) (rect_height box).

(** ** Nearest-aligned search *)

Definition points_on_same_side (ref pt1 pt2 : Z) : bool :=
  int_mul (int_sub pt1 ref) (int_sub pt2 ref) >? 0.

Section Search.
Context {ext : Collaborators}.

(** [horizontal ? meta_rectangle_vert_overlap (&edge->rect, new_rect)
               : meta_rectangle_horiz_overlap (&edge->rect, new_rect)] *)
Definition edges_align (horizontal : bool) (edge : MetaEdge)
    (new_rect : MetaRectangle) : bool :=
  if horizontal then meta_rectangle_vert_overlap (rect edge) new_rect
  else meta_rectangle_horiz_overlap (rect edge) new_rect.

(** The test that guards each of the three candidate updates. *)
Definition candidate (position old_position : Z) (new_rect : MetaRectangle)
    (horizontal only_forward : bool) (edge : MetaEdge) : bool :=
  edges_align horizontal edge new_rect &&
  (negb only_forward ||
   negb (points_on_same_side position (edge_coord horizontal edge)
           old_position)).

(** [dist = ABS (compare - position); if (dist < best_dist) { ... }] *)
Definition take_if_closer (position compare : Z) (bb : Z * Z) : Z * Z :=
  let dist := ABS (int_sub compare position) in
  if dist <? snd bb then (compare, dist) else bb.

(** The body of the two [for] loops that look for the first candidate above
    and below [mid]; [next] is the [i++] or [i--] of the loop. *)
Definition nearest_body (edges : GArray) (position old_position : Z)
    (new_rect : MetaRectangle) (horizontal only_forward : bool)
    (bb : Z * Z) (next : Z -> Z) (i : Z) : result (ctl Z (Z * Z)) :=
  edge <- g_array_index edges i ;;
  if candidate position old_position new_rect horizontal only_forward edge
  then Ret (Break (take_if_closer position (edge_coord horizontal edge) bb))
  else Ret (Continue (next i)).

Definition find_nearest_position (edges : GArray) (position old_position : Z)
    (new_rect : MetaRectangle) (horizontal only_forward : bool) : result Z :=
  '(mid, _) <- binary_search edges position horizontal ;;
  let bb := (old_position, INT_MAX) in
  edge <- g_array_index edges mid ;;
  let bb :=
    if candidate position old_position new_rect horizontal only_forward edge
    then take_if_closer position (edge_coord horizontal edge) bb
    else bb in
  c <- while_loop (length edges)
         (fun i => i <? g_array_len edges)
         (nearest_body edges position old_position new_rect horizontal
            only_forward bb (fun i => int_add i 1))
         (int_add mid 1) ;;
  let bb := match c with Continue _ => bb | Break bb' => bb' end in
  c <- while_loop (length edges)
         (fun i => i >=? 0)
         (nearest_body edges position old_position new_rect horizontal
            only_forward bb (fun i => int_sub i 1))
         (int_sub mid 1) ;;
  let bb := match c with Continue _ => bb | Break bb' => bb' end in
  Ret (fst bb).

End Search.

(** ** Resistance engine *)

Definition movement_towards_edge (side : MetaDirection) (increment : Z)
  : bool :=
  match side with
  | META_DIRECTION_LEFT | META_DIRECTION_TOP => increment <? 0
  | META_DIRECTION_RIGHT | META_DIRECTION_BOTTOM => increment >? 0
  end.

(** The callback of a resistance timer.  It returns [FALSE], so the main
    loop destroys the source; the pair returned here is the call it makes,
    of the stored [timeout_func] on the stored [window]. *)
Definition edge_resistance_timeout (resistance_data : ResistanceDataForAnEdge)
  : ResistanceDataForAnEdge * (GSourceFunc * MetaWindow) :=
  (mk_resistance_data
     (timeout_setup resistance_data) 0 (timeout_edge_pos resistance_data)
     true (timeout_func resistance_data) (window resistance_data)
     (keyboard_buildup resistance_data)
     (allow_past_screen_edge resistance_data),
   (timeout_func resistance_data, window resistance_data)).

Definition PIXEL_DISTANCE_THRESHOLD_TOWARDS_WINDOW : Z := 16.
Definition PIXEL_DISTANCE_THRESHOLD_AWAYFROM_WINDOW : Z := 8.
Definition PIXEL_DISTANCE_THRESHOLD_TOWARDS_XINERAMA : Z := 32.
Definition PIXEL_DISTANCE_THRESHOLD_AWAYFROM_XINERAMA : Z := 8.
Definition PIXEL_DISTANCE_THRESHOLD_TOWARDS_SCREEN : Z := 32.
Definition PIXEL_DISTANCE_THRESHOLD_AWAYFROM_SCREEN : Z := 8.
Definition TIMEOUT_RESISTANCE_LENGTH_MS_WINDOW : Z := 0.
Definition TIMEOUT_RESISTANCE_LENGTH_MS_XINERAMA : Z := 100.
Definition TIMEOUT_RESISTANCE_LENGTH_MS_SCREEN : Z := 750.
Definition KEYBOARD_BUILDUP_THRESHOLD_TOWARDS_WINDOW : Z := 16.
Definition KEYBOARD_BUILDUP_THRESHOLD_AWAYFROM_WINDOW : Z := 16.
Definition KEYBOARD_BUILDUP_THRESHOLD_TOWARDS_XINERAMA : Z := 24.
Definition KEYBOARD_BUILDUP_THRESHOLD_AWAYFROM_XINERAMA : Z := 16.
Definition KEYBOARD_BUILDUP_THRESHOLD_TOWARDS_SCREEN : Z := 32.
Definition KEYBOARD_BUILDUP_THRESHOLD_AWAYFROM_SCREEN : Z := 16.

Definition set_keyboard_buildup (rd : ResistanceDataForAnEdge) (v : Z)
  : ResistanceDataForAnEdge :=
  mk_resistance_data (timeout_setup rd) (timeout_id rd) (timeout_edge_pos rd)
    (timeout_over rd) (timeout_func rd) (window rd) v
    (allow_past_screen_edge rd).

(** "Remove the old timeout if it's no longer relevant": the statement that
    opens [apply_edge_resistance] after the test for no movement. *)
Definition remove_old_timeout (old_pos new_pos : Z)
    (resistance_data : ResistanceDataForAnEdge) (ml : MainLoop)
  : ResistanceDataForAnEdge * MainLoop :=
  if timeout_setup resistance_data &&
     (((timeout_edge_pos resistance_data >? old_pos) &&
       (timeout_edge_pos resistance_data >? new_pos)) ||
      ((timeout_edge_pos resistance_data <? old_pos) &&
       (timeout_edge_pos resistance_data <? new_pos)))
  then
    if negb (timeout_id resistance_data =? 0)
    then (mk_resistance_data false 0 (timeout_edge_pos resistance_data)
            (timeout_over resistance_data) (timeout_func resistance_data)
            (window resistance_data) (keyboard_buildup resistance_data)
            (allow_past_screen_edge resistance_data),
          g_source_remove (timeout_id resistance_data) ml)
    else (mk_resistance_data false (timeout_id resistance_data)
            (timeout_edge_pos resistance_data)
            (timeout_over resistance_data) (timeout_func resistance_data)
            (window resistance_data) (keyboard_buildup resistance_data)
            (allow_past_screen_edge resistance_data),
          ml)
  else (resistance_data, ml).

Definition keyboard_resistance (edge : MetaEdge) (increment : Z) : Z :=
  match edge_type edge with
  | META_EDGE_WINDOW =>
      if movement_towards_edge (side_type edge) increment
      then KEYBOARD_BUILDUP_THRESHOLD_TOWARDS_WINDOW
      else KEYBOARD_BUILDUP_THRESHOLD_AWAYFROM_WINDOW
  | META_EDGE_XINERAMA =>
      if movement_towards_edge (side_type edge) increment
      then KEYBOARD_BUILDUP_THRESHOLD_TOWARDS_XINERAMA
      else KEYBOARD_BUILDUP_THRESHOLD_AWAYFROM_XINERAMA
  | META_EDGE_SCREEN =>
      if movement_towards_edge (side_type edge) increment
      then KEYBOARD_BUILDUP_THRESHOLD_TOWARDS_SCREEN
      else KEYBOARD_BUILDUP_THRESHOLD_AWAYFROM_SCREEN
  end.

Definition timeout_length (win : MetaWindow) (edge : MetaEdge) : Z :=
  match edge_type edge with
  | META_EDGE_WINDOW => TIMEOUT_RESISTANCE_LENGTH_MS_WINDOW
  | META_EDGE_XINERAMA =>
      if require_on_single_xinerama win
      then TIMEOUT_RESISTANCE_LENGTH_MS_XINERAMA else 0
  | META_EDGE_SCREEN =>
      if require_fully_onscreen win
      then TIMEOUT_RESISTANCE_LENGTH_MS_SCREEN else 0
  end.

Definition pixel_threshold (edge : MetaEdge) (increment : Z) : Z :=
  match edge_type edge with
  | META_EDGE_WINDOW =>
      if movement_towards_edge (side_type edge) increment
      then PIXEL_DISTANCE_THRESHOLD_TOWARDS_WINDOW
      else PIXEL_DISTANCE_THRESHOLD_AWAYFROM_WINDOW
  | META_EDGE_XINERAMA =>
      if movement_towards_edge (side_type edge) increment
      then PIXEL_DISTANCE_THRESHOLD_TOWARDS_XINERAMA
      else PIXEL_DISTANCE_THRESHOLD_AWAYFROM_XINERAMA
  | META_EDGE_SCREEN =>
      if movement_towards_edge (side_type edge) increment
      then PIXEL_DISTANCE_THRESHOLD_TOWARDS_SCREEN
      else PIXEL_DISTANCE_THRESHOLD_AWAYFROM_SCREEN
  end.

(** The state carried round the loop of [apply_edge_resistance]: the index,
    the two keyboard-buildup locals, the resistance data and the main loop. *)
Record WalkState : Type := mk_walk
  { walk_i : Z;
    okay_to_clear_keyboard_buildup : bool;
    keyboard_buildup_edge : Z;
    walk_data : ResistanceDataForAnEdge;
    walk_loop : MainLoop }.

Definition Returned : Type := (Z * ResistanceDataForAnEdge * MainLoop)%type.

Section Engine.
Context {ext : Collaborators}.

(** The branch taken for an aligned edge in a keyboard operation. *)
Definition keyboard_branch (new_pos increment : Z) (edge : MetaEdge)
    (compare : Z) (s : WalkState) : ctl WalkState Returned :=
  let resistance := keyboard_resistance edge increment in
  let '(okay, rd) :=
    if okay_to_clear_keyboard_buildup s &&
       negb (compare =? keyboard_buildup_edge s)
    then (false, set_keyboard_buildup (walk_data s) 0)
    else (okay_to_clear_keyboard_buildup s, walk_data s) in
  let threshold := int_sub resistance (keyboard_buildup rd) in
  if ABS (int_sub compare new_pos) <? threshold then
    let rd :=
      if negb (keyboard_buildup rd =? 0)
      then set_keyboard_buildup rd
             (int_add (keyboard_buildup rd) (ABS (int_sub new_pos compare)))
      else set_keyboard_buildup rd 1 in
    Break (compare, rd, walk_loop s)
  else
    Continue (mk_walk (int_add (walk_i s) increment) true compare rd
                (walk_loop s)).

(** The branch taken for an aligned edge in a mouse operation; [self] is the
    side whose [ResistanceDataForAnEdge] the caller passed by address. *)
Definition mouse_branch (self : MetaDirection) (win : MetaWindow)
    (new_pos increment : Z) (timeout_fn : GSourceFunc) (edge : MetaEdge)
    (compare : Z) (s : WalkState) : ctl WalkState Returned :=
  let rd := walk_data s in
  let ml := walk_loop s in
  if match edge_type edge with META_EDGE_SCREEN => true | _ => false end &&
     negb (allow_past_screen_edge rd) &&
     movement_towards_edge (side_type edge) increment
  then Break (compare, rd, ml)
  else
    let timeout_length_ms := timeout_length win edge in
    let towards := movement_towards_edge (side_type edge) increment in
    let '(rd, ml) :=
      if towards && negb (timeout_setup rd) && negb (timeout_length_ms =? 0)
      then
        let '(id, ml') :=
          g_timeout_add timeout_length_ms (resistance_data_of self) ml in
        (mk_resistance_data true id compare false timeout_fn win
           (keyboard_buildup rd) (allow_past_screen_edge rd), ml')
      else (rd, ml) in
    if towards && negb (timeout_over rd) && negb (timeout_length_ms =? 0)
    then Break (compare, rd, ml)
    else
      let threshold := pixel_threshold edge increment in
      if ABS (int_sub compare new_pos) <? threshold
      then Break (compare, rd, ml)
      else Continue (mk_walk (int_add (walk_i s) increment)
                       (okay_to_clear_keyboard_buildup s)
                       (keyboard_buildup_edge s) rd ml).

Definition walk_body (self : MetaDirection) (win : MetaWindow)
    (new_pos increment : Z) (new_rect : MetaRectangle) (edges : GArray)
    (timeout_fn : GSourceFunc) (xdir keyboard_op : bool) (s : WalkState)
  : result (ctl WalkState Returned) :=
  edge <- g_array_index edges (walk_i s) ;;
  let compare := edge_coord xdir edge in
  if negb (edges_align xdir edge new_rect) then
    Ret (Continue (mk_walk (int_add (walk_i s) increment)
                     (okay_to_clear_keyboard_buildup s)
                     (keyboard_buildup_edge s) (walk_data s) (walk_loop s)))
  else if keyboard_op
       then Ret (keyboard_branch new_pos increment edge compare s)
       else Ret (mouse_branch self win new_pos increment timeout_fn edge
                   compare s).

(** [(increasing && i <= end) || (!increasing && i >= end)] *)
Definition walk_cond (increasing : bool) (end_ : Z) (s : WalkState) : bool :=
  (increasing && (walk_i s <=? end_)) ||
  (negb increasing && (walk_i s >=? end_)).

(** What [apply_edge_resistance] does once the old timeout has been dealt
    with: the range of indices, the loop over the edges of that range, and
    the clearing of the keyboard buildup. *)
Definition resistance_walk (self : MetaDirection) (win : MetaWindow)
    (old_pos new_pos : Z) (new_rect : MetaRectangle) (edges : GArray)
    (resistance_data : ResistanceDataForAnEdge) (timeout_fn : GSourceFunc)
    (xdir keyboard_op : bool) (ml : MainLoop) : result Returned :=
  let increasing := new_pos >? old_pos in
  let increment := if increasing then 1 else -1 in
  begin <- find_index_of_edge_near_position edges old_pos increasing xdir ;;
  end_ <- find_index_of_edge_near_position edges new_pos
            (negb increasing) xdir ;;
  c <- while_loop (Datatypes.S (length edges))
         (walk_cond increasing end_)
         (walk_body self win new_pos increment new_rect edges timeout_fn
            xdir keyboard_op)
         (mk_walk begin false G_MAXINT resistance_data ml) ;;
  match c with
  | Break r => Ret r
  | Continue s =>
      if okay_to_clear_keyboard_buildup s &&
         negb (new_pos =? keyboard_buildup_edge s)
      then Ret (new_pos, set_keyboard_buildup (walk_data s) 0, walk_loop s)
      else Ret (new_pos, walk_data s, walk_loop s)
  end.

Definition apply_edge_resistance (self : MetaDirection) (win : MetaWindow)
    (old_pos new_pos : Z) (new_rect : MetaRectangle) (edges : GArray)
    (resistance_data : ResistanceDataForAnEdge) (timeout_fn : GSourceFunc)
    (xdir keyboard_op : bool) (ml : MainLoop) : result Returned :=
  if old_pos =? new_pos then Ret (new_pos, resistance_data, ml)
  else
    let '(resistance_data, ml) :=
      remove_old_timeout old_pos new_pos resistance_data ml in
    resistance_walk self win old_pos new_pos new_rect edges resistance_data
      timeout_fn xdir keyboard_op ml.

(** ** Snap engine *)

Definition apply_edge_snapping (old_pos new_pos : Z) (new_rect : MetaRectangle)
    (edges1 edges2 : GArray) (xdir keyboard_op : bool) : result Z :=
  if old_pos =? new_pos then Ret new_pos
  else
    pos1 <- find_nearest_position edges1 new_pos old_pos new_rect xdir
              keyboard_op ;;
    pos2 <- find_nearest_position edges2 new_pos old_pos new_rect xdir
              keyboard_op ;;
    if keyboard_op && negb (points_on_same_side old_pos pos1 new_pos)
    then Ret pos2
    else if keyboard_op && negb (points_on_same_side old_pos pos2 new_pos)
    then Ret pos1
    else
      let best :=
        if ABS (int_sub pos1 new_pos) <? ABS (int_sub pos2 new_pos)
        then pos1 else pos2 in
      if negb keyboard_op &&
         (ABS (int_sub best old_pos) >=? 8) &&
         (ABS (int_sub new_pos old_pos) <? 8)
      then Ret old_pos
      else Ret best.

End Engine.

(** ** Per-side orchestration *)

Definition set_edge_data (display : MetaDisplay)
    (d : option MetaEdgeResistanceData) : MetaDisplay :=
  mk_display (grab_screen display) (grab_window display)
    (grab_anchor_root_y display) (grab_initial_window_pos display)
    (grab_wireframe_active display) (grab_wireframe_rect display)
    (grab_last_user_action_was_snap display) d.

Definition set_last_user_action_was_snap (display : MetaDisplay) (snap : bool)
  : MetaDisplay :=
  mk_display (grab_screen display) (grab_window display)
    (grab_anchor_root_y display) (grab_initial_window_pos display)
    (grab_wireframe_active display) (grab_wireframe_rect display)
    snap (grab_edge_resistance_data display).

Definition set_side_data (edge_data : MetaEdgeResistanceData)
    (l r t b : ResistanceDataForAnEdge) : MetaEdgeResistanceData :=
  mk_edge_data (left_edges edge_data) (right_edges edge_data)
    (top_edges edge_data) (bottom_edges edge_data) l r t b.

Section Orchestration.
Context {ext : Collaborators}.

(** Returns the [modified] flag, the new value of [*new_outer], and the
    display and main loop after the call. *)
Definition apply_edge_resistance_to_each_side (display : MetaDisplay)
    (win : MetaWindow) (old_outer new_outer : MetaRectangle)
    (timeout_fn : GSourceFunc) (auto_snap keyboard_op : bool) (ml : MainLoop)
  : result (bool * MetaRectangle * MetaDisplay * MainLoop) :=
  match grab_edge_resistance_data display with
  | None => AssertFailed
  | Some edge_data =>
      '(new_left, new_right, new_top, new_bottom, edge_data, ml) <-
        (if auto_snap then
           new_left <- apply_edge_snapping (BOX_LEFT old_outer)
                         (BOX_LEFT new_outer) new_outer
                         (left_edges edge_data) (right_edges edge_data)
                         true keyboard_op ;;
           new_right <- apply_edge_snapping (BOX_RIGHT old_outer)
                          (BOX_RIGHT new_outer) new_outer
                          (left_edges edge_data) (right_edges edge_data)
                          true keyboard_op ;;
           new_top <- apply_edge_snapping (BOX_TOP old_outer)
                        (BOX_TOP new_outer) new_outer
                        (top_edges edge_data) (bottom_edges edge_data)
                        false keyboard_op ;;
           new_bottom <- apply_edge_snapping (BOX_BOTTOM old_outer)
                           (BOX_BOTTOM new_outer) new_outer
                           (top_edges edge_data) (bottom_edges edge_data)
                           false keyboard_op ;;
           Ret (new_left, new_right, new_top, new_bottom, edge_data, ml)
         else
           '(new_left, ld, ml) <-
             apply_edge_resistance META_DIRECTION_LEFT win
               (BOX_LEFT old_outer) (BOX_LEFT new_outer) new_outer
               (left_edges edge_data) (left_data edge_data) timeout_fn
               true keyboard_op ml ;;
           '(new_right, rd, ml) <-
             apply_edge_resistance META_DIRECTION_RIGHT win
               (BOX_RIGHT old_outer) (BOX_RIGHT new_outer) new_outer
               (right_edges edge_data) (right_data edge_data) timeout_fn
               true keyboard_op ml ;;
           '(new_top, td, ml) <-
             apply_edge_resistance META_DIRECTION_TOP win
               (BOX_TOP old_outer) (BOX_TOP new_outer) new_outer
               (top_edges edge_data) (top_data edge_data) timeout_fn
               false keyboard_op ml ;;
           '(new_bottom, bd, ml) <-
             apply_edge_resistance META_DIRECTION_BOTTOM win
               (BOX_BOTTOM old_outer) (BOX_BOTTOM new_outer) new_outer
               (bottom_edges edge_data) (bottom_data edge_data) timeout_fn
               false keyboard_op ml ;;
           Ret (new_left, new_right, new_top, new_bottom,
                set_side_data edge_data ld rd td bd, ml)) ;;
      let modified_rect :=
        meta_rect new_left new_top (int_sub new_right new_left)
          (int_sub new_bottom new_top) in
      let modified := negb (meta_rectangle_equal new_outer modified_rect) in
      Ret (modified, modified_rect, set_edge_data display (Some edge_data), ml)
  end.

(** ** Edge cache *)

Definition side_eqb (a b : MetaDirection) : bool :=
  match a, b with
  | META_DIRECTION_LEFT, META_DIRECTION_LEFT
  | META_DIRECTION_RIGHT, META_DIRECTION_RIGHT
  | META_DIRECTION_TOP, META_DIRECTION_TOP
  | META_DIRECTION_BOTTOM, META_DIRECTION_BOTTOM => true
  | _, _ => false
  end.

(** The array of one side after the third step of [cache_edges]: the edges
    of that side, in the order window, xinerama, screen. *)
Definition edges_of_side (side : MetaDirection)
    (window_edges xinerama_edges screen_edges : list MetaEdge) : GArray :=
  filter (fun edge => side_eqb (side_type edge) side)
    (window_edges ++ xinerama_edges ++ screen_edges).

(** [stupid_sort_requiring_extra_pointer_dereference] compares the two
    edges pointed to with [meta_rectangle_edge_cmp]. *)
Definition stupid_sort_requiring_extra_pointer_dereference
    (a b : MetaEdge) : Z := meta_rectangle_edge_cmp a b.

(** [cache_edges] allocates the resistance data; the four
    [ResistanceDataForAnEdge] hold whatever the allocator returned
    ([garbage]) until they are initialised. *)
Definition cache_edges (garbage : ResistanceDataForAnEdge)
    (display : MetaDisplay)
    (window_edges xinerama_edges screen_edges : list MetaEdge)
  : result MetaDisplay :=
  match grab_edge_resistance_data display with
  | Some _ => AssertFailed
  | None =>
      let arr side :=
        g_array_sort stupid_sort_requiring_extra_pointer_dereference
          (edges_of_side side window_edges xinerama_edges screen_edges) in
      Ret (set_edge_data display
             (Some (mk_edge_data
                      (arr META_DIRECTION_LEFT) (arr META_DIRECTION_RIGHT)
                      (arr META_DIRECTION_TOP) (arr META_DIRECTION_BOTTOM)
                      garbage garbage garbage garbage)))
  end.

Definition initialize_one (rd : ResistanceDataForAnEdge) (allow : bool)
  : ResistanceDataForAnEdge :=
  mk_resistance_data false (timeout_id rd) (timeout_edge_pos rd)
    (timeout_over rd) (timeout_func rd) (window rd) 0 allow.

Definition initialize_grab_edge_resistance_data (display : MetaDisplay)
  : result MetaDisplay :=
  match grab_edge_resistance_data display with
  | None => Fault
  | Some edge_data =>
      Ret (set_edge_data display
             (Some (set_side_data edge_data
                      (initialize_one (left_data edge_data) true)
                      (initialize_one (right_data edge_data) true)
                      (initialize_one (top_data edge_data)
                         (grab_anchor_root_y display >=?
                          rect_y (grab_initial_window_pos display)))
                      (initialize_one (bottom_data edge_data) true))))
  end.

(** ** Edge extraction *)

(** The macro [WINDOW_EDGES_RELEVANT (window, display)]. *)
Definition WINDOW_EDGES_RELEVANT (win : MetaWindow) (display : MetaDisplay)
  : bool :=
  meta_window_should_be_showing win &&
  (screen win =? screen_addr (grab_screen display)) &&
  negb (window_addr win =? grab_window display) &&
  negb (MetaWindowType_eqb (type win) META_WINDOW_DESKTOP) &&
  negb (MetaWindowType_eqb (type win) META_WINDOW_MENU) &&
  negb (MetaWindowType_eqb (type win) META_WINDOW_SPLASHSCREEN).

(** Second step: the rectangles of the windows that can obscure edges and
    their stacking positions, both from bottom to top. *)
Fixpoint obscuring (display : MetaDisplay) (stacked_windows : list MetaWindow)
    (stack_position : Z) : list MetaRectangle * list Z :=
  match stacked_windows with
  | [] => ([], [])
  | cur_window :: rest =>
      let '(rects, positions) :=
        obscuring display rest (int_add stack_position 1) in
      if WINDOW_EDGES_RELEVANT cur_window display
      then (meta_window_get_outer_rect cur_window :: rects,
            stack_position :: positions)
      else (rects, positions)
  end.

(** [while (rem_win_stacking &&
           stack_position >= (int)rem_win_stacking->data)]: both lists lose
    their head. *)
Fixpoint drop_lower (stack_position : Z) (rem_windows : list MetaRectangle)
    (rem_win_stacking : list Z) : list MetaRectangle * list Z :=
  match rem_win_stacking with
  | [] => (rem_windows, [])
  | p :: ps =>
      if stack_position >=? p
      then drop_lower stack_position (tl rem_windows) ps
      else (rem_windows, rem_win_stacking)
  end.

(** The four edges made from the rectangle [reduced], in the order the
    successive [g_list_prepend] leave them. *)
Definition window_new_edges (reduced : MetaRectangle) : list MetaEdge :=
  [ mk_edge (meta_rect (rect_x reduced)
               (int_add (rect_y reduced) (rect_height reduced))
               (rect_width reduced) 0)
      META_DIRECTION_TOP META_EDGE_WINDOW;
    mk_edge (meta_rect (rect_x reduced) (rect_y reduced)
               (rect_width reduced) 0)
      META_DIRECTION_BOTTOM META_EDGE_WINDOW;
    mk_edge (meta_rect (int_add (rect_x reduced) (rect_width reduced))
               (rect_y reduced) 0 (rect_height reduced))
      META_DIRECTION_LEFT META_EDGE_WINDOW;
    mk_edge (meta_rect (rect_x reduced) (rect_y reduced)
               0 (rect_height reduced))
      META_DIRECTION_RIGHT META_EDGE_WINDOW ].

(** What the body of the third loop adds in front of [edges] for
    [cur_window], given the obscuring rectangles that remain above it. *)
Definition edges_from_window (display : MetaDisplay) (cur_window : MetaWindow)
    (rem_windows : list MetaRectangle) : list MetaEdge :=
  let cur_rect := meta_window_get_outer_rect cur_window in
  let reduced :=
    meta_rectangle_intersect cur_rect (screen_rect (grab_screen display)) in
  meta_rectangle_remove_intersections_with_boxes_from_edges
    (window_new_edges reduced) rem_windows.

(** Third step: the loop over the stacked windows, from the state
    [(stack_position, rem_windows, rem_win_stacking, edges)]. *)
Fixpoint collect_edges (display : MetaDisplay)
    (stacked_windows : list MetaWindow) (stack_position : Z)
    (rem_windows : list MetaRectangle) (rem_win_stacking : list Z)
    (edges : list MetaEdge) : list MetaEdge :=
  match stacked_windows with
  | [] => edges
  | cur_window :: rest =>
      if WINDOW_EDGES_RELEVANT cur_window display &&
         negb (MetaWindowType_eqb (type cur_window) META_WINDOW_DOCK)
      then
        let '(rem_windows, rem_win_stacking) :=
          drop_lower stack_position rem_windows rem_win_stacking in
        collect_edges display rest (int_add stack_position 1)
          rem_windows rem_win_stacking
          (edges_from_window display cur_window rem_windows ++ edges)
      else
        collect_edges display rest (int_add stack_position 1)
          rem_windows rem_win_stacking edges
  end.

(** The list of window edges handed to [cache_edges] (steps 1 to 4). *)
Definition window_edges_of_grab (display : MetaDisplay) : list MetaEdge :=
  let stacked_windows := meta_stack_list_windows (grab_screen display) in
  let '(rem_windows, rem_win_stacking) :=
    obscuring display stacked_windows 0 in
  g_list_sort meta_rectangle_edge_cmp
    (collect_edges display stacked_windows 0 rem_windows rem_win_stacking []).

Definition meta_display_compute_resistance_and_snapping_edges
    (garbage : ResistanceDataForAnEdge) (display : MetaDisplay)
  : result MetaDisplay :=
  display <- cache_edges garbage display (window_edges_of_grab display)
               (xinerama_edges (active_workspace (grab_screen display)))
               (screen_edges (active_workspace (grab_screen display))) ;;
  initialize_grab_edge_resistance_data display.

(** ** Entry points of a move and of a resize *)

(** The outer rectangle both entry points start from. *)
Definition current_outer (win : MetaWindow) (display : MetaDisplay)
  : MetaRectangle :=
  if (window_addr win =? grab_window display) && grab_wireframe_active display
  then meta_window_get_xor_rect win (grab_wireframe_rect display)
  else meta_window_get_outer_rect win.

(** [ABS (a) < ABS (b) ? a : b], after the two keyboard-snap cases. *)
Definition smaller_change (snap is_keyboard_op : bool) (a_change b_change : Z)
  : Z :=
  if snap && is_keyboard_op && (a_change =? 0) then b_change
  else if snap && is_keyboard_op && (b_change =? 0) then a_change
  else if ABS a_change <? ABS b_change then a_change
  else b_change.

(** [outer = old_outer; outer.x += (x - old_x); outer.y += (y - old_y)]:
    the outer rectangle of the window when its inner position goes from
    [(old_x, old_y)] to [(x, y)]. *)
Definition moved_outer (old_outer : MetaRectangle) (old_x old_y x y : Z)
  : MetaRectangle :=
  meta_rect (int_add (rect_x old_outer) (int_sub x old_x))
    (int_add (rect_y old_outer) (int_sub y old_y))
    (rect_width old_outer) (rect_height old_outer).

(** Returns the new values of [*new_x] and [*new_y]. *)
Definition meta_window_edge_resistance_for_move (display : MetaDisplay)
    (win : MetaWindow) (old_x old_y new_x new_y : Z)
    (timeout_fn : GSourceFunc) (snap is_keyboard_op : bool) (ml : MainLoop)
  : result (Z * Z * MetaDisplay * MainLoop) :=
  let old_outer := current_outer win display in
  let proposed_outer := moved_outer old_outer old_x old_y new_x new_y in
  let display := set_last_user_action_was_snap display snap in
  '(modified, new_outer, display, ml) <-
    apply_edge_resistance_to_each_side display win old_outer proposed_outer
      timeout_fn snap is_keyboard_op ml ;;
  if modified then
    let reference :=
      if snap && negb is_keyboard_op then proposed_outer else old_outer in
    let left_change := int_sub (BOX_LEFT new_outer) (BOX_LEFT reference) in
    let right_change := int_sub (BOX_RIGHT new_outer) (BOX_RIGHT reference) in
    let smaller_x_change :=
      smaller_change snap is_keyboard_op left_change right_change in
    let top_change := int_sub (BOX_TOP new_outer) (BOX_TOP reference) in
    let bottom_change :=
      int_sub (BOX_BOTTOM new_outer) (BOX_BOTTOM reference) in
    let smaller_y_change :=
      smaller_change snap is_keyboard_op top_change bottom_change in
    Ret (int_add (int_add old_x smaller_x_change)
           (int_sub (BOX_LEFT reference) (BOX_LEFT old_outer)),
         int_add (int_add old_y smaller_y_change)
           (int_sub (BOX_TOP reference) (BOX_TOP old_outer)),
         display, ml)
  else Ret (new_x, new_y, display, ml).

(** Returns the new values of [*new_width] and [*new_height]. *)
Definition meta_window_edge_resistance_for_resize (display : MetaDisplay)
    (win : MetaWindow) (old_width old_height new_width new_height : Z)
    (gravity : Z) (timeout_fn : GSourceFunc) (snap is_keyboard_op : bool)
    (ml : MainLoop) : result (Z * Z * MetaDisplay * MainLoop) :=
  let old_outer := current_outer win display in
  let new_outer_width :=
    int_add (rect_width old_outer) (int_sub new_width old_width) in
  let new_outer_height :=
    int_add (rect_height old_outer) (int_sub new_height old_height) in
  let new_outer :=
    meta_rectangle_resize_with_gravity old_outer gravity new_outer_width
      new_outer_height in
  let display := set_last_user_action_was_snap display snap in
  '(modified, new_outer, display, ml) <-
    apply_edge_resistance_to_each_side display win old_outer new_outer
      timeout_fn snap is_keyboard_op ml ;;
  if modified then
    Ret (int_add old_width
           (int_sub (rect_width new_outer) (rect_width old_outer)),
         int_add old_height
           (int_sub (rect_height new_outer) (rect_height old_outer)),
         display, ml)
  else Ret (new_width, new_height, display, ml).

End Orchestration.

(** ** End of a grab *)

(** [edge->edge_type == META_EDGE_WINDOW] *)
Definition is_window_edge (edge : MetaEdge) : bool :=
  match edge_type edge with
  | META_EDGE_WINDOW => true
  | _ => false
  end.

(** The inner loop of [meta_display_cleanup_edges] over one array: the edges
    it hands to [g_free], in the order of the array. *)
Definition freed_from (tmp : GArray) : list MetaEdge :=
  filter is_window_edge tmp.

(** [if (data.timeout_setup && data.timeout_id != 0)
      g_source_remove (data.timeout_id);] *)
Definition cleanup_timeout (data : ResistanceDataForAnEdge) (ml : MainLoop)
  : MainLoop :=
  if timeout_setup data && negb (timeout_id data =? 0)
  then g_source_remove (timeout_id data) ml
  else ml.

(** Returns the display with its resistance data gone, the main loop, and
    the edges released with [g_free], in the order of the calls. *)
Definition meta_display_cleanup_edges (display : MetaDisplay) (ml : MainLoop)
  : result (MetaDisplay * MainLoop * list MetaEdge) :=
  match grab_edge_resistance_data display with
  | None => AssertFailed
  | Some edge_data =>
      let freed :=
        freed_from (left_edges edge_data) ++
        freed_from (right_edges edge_data) ++
        freed_from (top_edges edge_data) ++
        freed_from (bottom_edges edge_data) in
      let ml := cleanup_timeout (left_data edge_data) ml in
      let ml := cleanup_timeout (right_data edge_data) ml in
      let ml := cleanup_timeout (top_data edge_data) ml in
      let ml := cleanup_timeout (bottom_data edge_data) ml in
      Ret (set_edge_data display None, ml, freed)
  end.

(** ** A reference implementation of the collaborators

    Used to run the model on concrete inputs. *)

(** Modelled from the spec: boxes.c is not among the sources.  Two
    rectangles overlap on the vertical axis when their [y] extents share a
    point, and on the horizontal axis when their [x] extents do. *)
Definition vert_overlap (rect1 rect2 : MetaRectangle) : bool :=
  (rect_y rect1 <? int_add (rect_y rect2) (rect_height rect2)) &&
  (rect_y rect2 <? int_add (rect_y rect1) (rect_height rect1)).

Definition horiz_overlap (rect1 rect2 : MetaRectangle) : bool :=
  (rect_x rect1 <? int_add (rect_x rect2) (rect_width rect2)) &&
  (rect_x rect2 <? int_add (rect_x rect1) (rect_width rect1)).

(** Modelled from the spec: boxes.c is not among the sources.  Equality of
    rectangles is equality of the four fields. *)
Definition rectangle_equal (a b : MetaRectangle) : bool :=
  (rect_x a =? rect_x b) && (rect_y a =? rect_y b) &&
  (rect_width a =? rect_width b) && (rect_height a =? rect_height b).

(** Modelled from the spec: boxes.c is not among the sources.  The outer
    rectangle "clipped to the screen rectangle": the common part of the two
    rectangles, or an empty rectangle when they are disjoint. *)
Definition rectangle_intersect (src1 src2 : MetaRectangle) : MetaRectangle :=
  let dest_x := Z.max (rect_x src1) (rect_x src2) in
  let dest_y := Z.max (rect_y src1) (rect_y src2) in
  let dest_w :=
    int_sub (Z.min (int_add (rect_x src1) (rect_width src1))
                   (int_add (rect_x src2) (rect_width src2))) dest_x in
  let dest_h :=
    int_sub (Z.min (int_add (rect_y src1) (rect_height src1))
                   (int_add (rect_y src2) (rect_height src2))) dest_y in
  if (0 <? dest_w) && (0 <? dest_h)
  then meta_rect dest_x dest_y dest_w dest_h
  else meta_rect dest_x dest_y 0 0.

(** Modelled from the spec: boxes.c is not among the sources.  Edges are
    compared "primarily by coordinate and, for ties, by ... span start". *)
Definition edge_cmp (a b : MetaEdge) : Z :=
  match side_type a with
  | META_DIRECTION_LEFT | META_DIRECTION_RIGHT =>
      if rect_x (rect a) =? rect_x (rect b)
      then int_sub (rect_y (rect a)) (rect_y (rect b))
      else int_sub (rect_x (rect a)) (rect_x (rect b))
  | META_DIRECTION_TOP | META_DIRECTION_BOTTOM =>
      if rect_y (rect a) =? rect_y (rect b)
      then int_sub (rect_x (rect a)) (rect_x (rect b))
      else int_sub (rect_y (rect a)) (rect_y (rect b))
  end.

(** Modelled from the spec: boxes.c is not among the sources.  "Subtract
    from each candidate edge's span the portions covered by rectangles":
    an edge that lies inside a box loses the part of its span the box
    covers, and is left in at most two pieces. *)
Definition cut_edge (box : MetaRectangle) (edge : MetaEdge) : list MetaEdge :=
  let r := rect edge in
  match side_type edge with
  | META_DIRECTION_LEFT | META_DIRECTION_RIGHT =>
      if (rect_x box <? rect_x r) &&
         (rect_x r <? int_add (rect_x box) (rect_width box)) &&
         vert_overlap box r
      then
        let lo := rect_y box in
        let hi := int_add (rect_y box) (rect_height box) in
        let top := int_add (rect_y r) (rect_height r) in
        (if rect_y r <? lo
         then [mk_edge (meta_rect (rect_x r) (rect_y r) 0
                          (int_sub lo (rect_y r)))
                 (side_type edge) (edge_type edge)]
         else []) ++
        (if hi <? top
         then [mk_edge (meta_rect (rect_x r) hi 0 (int_sub top hi))
                 (side_type edge) (edge_type edge)]
         else [])
      else [edge]
  | META_DIRECTION_TOP | META_DIRECTION_BOTTOM =>
      if (rect_y box <? rect_y r) &&
         (rect_y r <? int_add (rect_y box) (rect_height box)) &&
         horiz_overlap box r
      then
        let lo := rect_x box in
        let hi := int_add (rect_x box) (rect_width box) in
        let right := int_add (rect_x r) (rect_width r) in
        (if rect_x r <? lo
         then [mk_edge (meta_rect (rect_x r) (rect_y r)
                          (int_sub lo (rect_x r)) 0)
                 (side_type edge) (edge_type edge)]
         else []) ++
        (if hi <? right
         then [mk_edge (meta_rect hi (rect_y r) (int_sub right hi) 0)
                 (side_type edge) (edge_type edge)]
         else [])
      else [edge]
  end.

Definition remove_intersections (edges : list MetaEdge)
    (rectangles : list MetaRectangle) : list MetaEdge :=
  fold_left (fun es box => flat_map (cut_edge box) es) rectangles edges.

(** Modelled from the spec: boxes.c is not among the sources.  A resize
    "expanding the proposed size from a gravity anchor"; the anchor used
    here is the top left corner, whatever the gravity. *)
Definition resize_with_gravity (old_rect : MetaRectangle) (gravity : Z)
    (new_width new_height : Z) : MetaRectangle :=
  meta_rect (rect_x old_rect) (rect_y old_rect) new_width new_height.

(** glib's sorts, as an insertion sort that keeps the order of ties. *)
Fixpoint insert_sorted (cmp : MetaEdge -> MetaEdge -> Z) (e : MetaEdge)
    (l : list MetaEdge) : list MetaEdge :=
  match l with
  | [] => [e]
  | x :: xs => if cmp e x <? 0 then e :: l else x :: insert_sorted cmp e xs
  end.

Definition insertion_sort (cmp : MetaEdge -> MetaEdge -> Z)
    (l : list MetaEdge) : list MetaEdge :=
  fold_right (insert_sorted cmp) [] l.

(** The stacking order and the per-window queries of the sample display: a
    window is described by its pointer-level record, its outer rectangle and
    whether it should be showing. *)
Record SampleWindow : Type := mk_sample
  { sample_window : MetaWindow;
    sample_outer : MetaRectangle;
    sample_showing : bool }.

Definition lookup_sample (stack : list SampleWindow) (win : MetaWindow)
  : option SampleWindow :=
  find (fun s => window_addr (sample_window s) =? window_addr win) stack.

Definition sample_collaborators (stack : list SampleWindow)
  : Collaborators :=
  {| meta_rectangle_vert_overlap := vert_overlap;
     meta_rectangle_horiz_overlap := horiz_overlap;
     meta_rectangle_equal := rectangle_equal;
     meta_rectangle_intersect := rectangle_intersect;
     meta_rectangle_edge_cmp := edge_cmp;
     meta_rectangle_remove_intersections_with_boxes_from_edges :=
       remove_intersections;
     meta_rectangle_resize_with_gravity := resize_with_gravity;
     meta_window_should_be_showing := fun win =>
       match lookup_sample stack win with
       | Some s => sample_showing s
       | None => false
       end;
     meta_window_get_outer_rect := fun win =>
       match lookup_sample stack win with
       | Some s => sample_outer s
       | None => meta_rect 0 0 0 0
       end;
     meta_window_get_xor_rect := fun _ grab_wireframe_rect =>
       grab_wireframe_rect;
     meta_stack_list_windows := fun _ => map sample_window stack;
     g_list_sort := insertion_sort;
     g_array_sort := insertion_sort |}.

(** ** Vocabulary of the properties *)

(** The length of an array as a number, before any cast. *)
Definition array_len (edges : GArray) : Z := Z.of_nat (length edges).

(** The length of the array fits an [int], as the casts of the source
    assume. *)
Definition len_ok (edges : GArray) : Prop := array_len edges <= INT_MAX.

(** The coordinate of the edge at index [i]. *)
Definition pos_at (horizontal : bool) (edges : GArray) (i : Z) : Z :=
  nth (Z.to_nat i) (map (edge_coord horizontal) edges) 0.

(** A list of coordinates that never decreases. *)
Fixpoint nondecreasing (l : list Z) : bool :=
  match l with
  | [] => true
  | x :: xs =>
      match xs with
      | [] => true
      | y :: _ => (x <=? y) && nondecreasing xs
      end
  end.

(** The array is sorted by position, as [cache_edges] leaves it. *)
Definition sorted_edges (horizontal : bool) (edges : GArray) : Prop :=
  nondecreasing (map (edge_coord horizontal) edges) = true.

(** An edge is alone near its coordinate when every other edge of the array
    is more than one pixel away from it. *)
Definition isolated (xdir : bool) (edges : GArray) (k : Z) : Prop :=
  forall j, 0 <= j < array_len edges -> j <> k ->
    pos_at xdir edges j < pos_at xdir edges k - 1 \/
    pos_at xdir edges k + 1 < pos_at xdir edges j.

(** Coordinates and sizes small enough that no sum or difference of a few
    of them leaves the range of an [int]. *)
Definition small (z : Z) : Prop := -134217728 <= z <= 134217728.

(** The change [c] applied to both edges of an axis, given the changes
    [a_change] and [b_change] that resistance or snapping found for the two
    edges: it is one of the two; in a keyboard snap where one of them is
    zero it is the other one; otherwise its absolute value is the
    smaller. *)
Definition reconciled (snap is_keyboard_op : bool) (a_change b_change c : Z)
  : Prop :=
  (c = a_change \/ c = b_change) /\
  (if snap && is_keyboard_op && ((a_change =? 0) || (b_change =? 0))
   then (a_change = 0 -> c = b_change) /\ (a_change <> 0 -> c = a_change)
   else Z.abs c <= Z.abs a_change /\ Z.abs c <= Z.abs b_change).

(** The rectangle the changes of a move are measured from: the proposed
    rectangle in a mouse snap, the old one otherwise. *)
Definition move_reference (snap is_keyboard_op : bool)
    (old_outer proposed_outer : MetaRectangle) : MetaRectangle :=
  if snap && negb is_keyboard_op then proposed_outer else old_outer.

Section Scenarios.
Context {ext : Collaborators}.

(** [n] successive keyboard presses on one side, each proposing to move the
    side by [d] from where the previous press left it. *)
Fixpoint keyboard_presses (n : nat) (self : MetaDirection) (win : MetaWindow)
    (pos d : Z) (new_rect : MetaRectangle) (edges : GArray)
    (rd : ResistanceDataForAnEdge) (timeout_fn : GSourceFunc) (xdir : bool)
    (ml : MainLoop) : result Returned :=
  match n with
  | O => Ret (pos, rd, ml)
  | Datatypes.S n' =>
      '(pos', rd', ml') <-
        keyboard_presses n' self win pos d new_rect edges rd timeout_fn
          xdir ml ;;
      apply_edge_resistance self win pos' (int_add pos' d) new_rect edges
        rd' timeout_fn xdir true ml'
  end.

(** What the macro [WINDOW_EDGES_RELEVANT] and the test for docks let
    through. *)
Definition contributes (display : MetaDisplay) (w : MetaWindow) : Prop :=
  meta_window_should_be_showing w = true /\
  screen w = screen_addr (grab_screen display) /\
  window_addr w <> grab_window display /\
  type w <> META_WINDOW_DESKTOP /\
  type w <> META_WINDOW_MENU /\
  type w <> META_WINDOW_SPLASHSCREEN /\
  type w <> META_WINDOW_DOCK.

End Scenarios.

(** ** The grab as the main loop sees it *)

(** The edge array and the resistance record of a side, and the update of
    the latter. *)
Definition side_edges (edge_data : MetaEdgeResistanceData)
    (side : MetaDirection) : GArray :=
  match side with
  | META_DIRECTION_LEFT => left_edges edge_data
  | META_DIRECTION_RIGHT => right_edges edge_data
  | META_DIRECTION_TOP => top_edges edge_data
  | META_DIRECTION_BOTTOM => bottom_edges edge_data
  end.

Definition side_data (edge_data : MetaEdgeResistanceData)
    (side : MetaDirection) : ResistanceDataForAnEdge :=
  match side with
  | META_DIRECTION_LEFT => left_data edge_data
  | META_DIRECTION_RIGHT => right_data edge_data
  | META_DIRECTION_TOP => top_data edge_data
  | META_DIRECTION_BOTTOM => bottom_data edge_data
  end.

Definition set_data (edge_data : MetaEdgeResistanceData)
    (side : MetaDirection) (rd : ResistanceDataForAnEdge)
  : MetaEdgeResistanceData :=
  match side with
  | META_DIRECTION_LEFT =>
      set_side_data edge_data rd (right_data edge_data)
        (top_data edge_data) (bottom_data edge_data)
  | META_DIRECTION_RIGHT =>
      set_side_data edge_data (left_data edge_data) rd
        (top_data edge_data) (bottom_data edge_data)
  | META_DIRECTION_TOP =>
      set_side_data edge_data (left_data edge_data) (right_data edge_data)
        rd (bottom_data edge_data)
  | META_DIRECTION_BOTTOM =>
      set_side_data edge_data (left_data edge_data) (right_data edge_data)
        (top_data edge_data) rd
  end.

(** The [xdir] argument [apply_edge_resistance_to_each_side] passes for a
    side. *)
Definition side_xdir (side : MetaDirection) : bool :=
  match side with
  | META_DIRECTION_LEFT | META_DIRECTION_RIGHT => true
  | META_DIRECTION_TOP | META_DIRECTION_BOTTOM => false
  end.

(** The pending sources whose callback data is the resistance record of
    [side]: the pending timers of that side. *)
Definition data_is (side : MetaDirection) (s : GSource) : bool :=
  match source_data s with
  | resistance_data_of side' => side_eqb side' side
  | other_data _ => false
  end.

Definition pending_for (side : MetaDirection) (ml : MainLoop) : list GSource :=
  filter (data_is side) ml.

(** What happens to the resistance state during a grab: a call of
    [apply_edge_resistance] for a side, on that side's edge array, or the
    main loop dispatching the source [id].  A dispatched resistance timer
    runs [edge_resistance_timeout], which returns [FALSE], so the source is
    destroyed; it is no longer pending from the moment it is dispatched. *)
Inductive GrabEvent : Type :=
| Resist (side : MetaDirection) (win : MetaWindow) (old_pos new_pos : Z)
    (new_rect : MetaRectangle) (timeout_fn : GSourceFunc) (keyboard_op : bool)
| TimerFires (id : Z).

(** The state of a grab: the resistance data and the main loop. *)
Definition GrabState : Type := (MetaEdgeResistanceData * MainLoop)%type.

Section Grab.
Context {ext : Collaborators}.

(** One event, from a state of the grab. *)
Definition grab_step (st : GrabState) (ev : GrabEvent) : result GrabState :=
  let '(edge_data, ml) := st in
  match ev with
  | Resist side win old_pos new_pos new_rect timeout_fn keyboard_op =>
      '(_, rd, ml') <-
        apply_edge_resistance side win old_pos new_pos new_rect
          (side_edges edge_data side) (side_data edge_data side) timeout_fn
          (side_xdir side) keyboard_op ml ;;
      Ret (set_data edge_data side rd, ml')
  | TimerFires id =>
      match find (fun s => source_id s =? id) ml with
      | Some s =>
          match source_data s with
          | resistance_data_of side =>
              Ret (set_data edge_data side
                     (fst (edge_resistance_timeout (side_data edge_data side))),
                   g_source_remove id ml)
          | other_data _ => Ret (edge_data, ml)
          end
      | None => Ret (edge_data, ml)
      end
  end.

(** A sequence of events; it ends with the first call that fails. *)
Fixpoint grab_run (st : GrabState) (events : list GrabEvent)
  : result GrabState :=
  match events with
  | [] => Ret st
  | ev :: rest => st' <- grab_step st ev ;; grab_run st' rest
  end.

End Grab.

(** The timer of a record is stale for a call when its edge position lies
    strictly on one side of both the old and the new position. *)
Definition stale (rd : ResistanceDataForAnEdge) (old_pos new_pos : Z) : Prop :=
  (timeout_edge_pos rd > old_pos /\ timeout_edge_pos rd > new_pos) \/
  (timeout_edge_pos rd < old_pos /\ timeout_edge_pos rd < new_pos).

(** The timer bookkeeping of one side: at most one source is pending for
    the side, and a pending source is the one the record names. *)
Definition timer_ok (rd : ResistanceDataForAnEdge) (side : MetaDirection)
    (ml : MainLoop) : Prop :=
  (length (pending_for side ml) <= 1)%nat /\
  forall s, In s (pending_for side ml) ->
    timeout_setup rd = true /\ timeout_id rd = source_id s /\
    source_id s <> 0.

(** The sources pending for a side after some steps are among those that
    were pending before, and no more numerous. *)
Definition keeps (side : MetaDirection) (ml ml' : MainLoop) : Prop :=
  (length (pending_for side ml') <= length (pending_for side ml))%nat /\
  incl (pending_for side ml') (pending_for side ml).

(** The resistance record and main loop an iteration of the walk leaves. *)
Definition outcome_state (c : ctl WalkState Returned)
  : ResistanceDataForAnEdge * MainLoop :=
  match c with
  | Continue s => (walk_data s, walk_loop s)
  | Break (_, rd, ml) => (rd, ml)
  end.

(** The bookkeeping a call for [self] must keep, relative to the main loop
    [ml0] it started from. *)
Definition bookkeeping (self : MetaDirection) (ml0 : MainLoop)
    (st : ResistanceDataForAnEdge * MainLoop) : Prop :=
  timer_ok (fst st) self (snd st) /\
  forall other, other <> self -> keeps other ml0 (snd st).

(** The invariant of a grab: the bookkeeping of each of the four sides. *)
Definition timers_ok (st : GrabState) : Prop :=
  forall side, timer_ok (side_data (fst st) side) side (snd st).

(** ** Sample data for concrete runs *)

(** Collaborators with an empty stack of windows. *)
Definition sample_ext : Collaborators := sample_collaborators [].

(** The window that is moved; it is the grabbed window of the sample
    displays. *)
Definition sample_win : MetaWindow :=
  mk_window 1 1 META_WINDOW_NORMAL false false.

(** A resistance record as [initialize_grab_edge_resistance_data] leaves
    it, with [allow] for [allow_past_screen_edge]. *)
Definition sample_data (allow : bool) : ResistanceDataForAnEdge :=
  mk_resistance_data false 0 0 false 0 sample_win 0 allow.

(** A vertical edge at [x = p] spanning [0 <= y < 100]. *)
Definition vertical_edge (p : Z) (side : MetaDirection) (class : MetaEdgeType)
  : MetaEdge :=
  mk_edge (meta_rect p 0 0 100) side class.

(** A display in the middle of a grab of [sample_win], with the given edge
    arrays and freshly initialised resistance data. *)
Definition sample_display (l r t b : GArray) : MetaDisplay :=
  mk_display
    (mk_screen 1 (meta_rect 0 0 1000 1000) (mk_workspace [] []))
    1 0 (meta_rect 0 0 0 0) false (meta_rect 0 0 0 0) false
    (Some (mk_edge_data l r t b (sample_data true) (sample_data true)
             (sample_data true) (sample_data true))).

(** Collaborators for which [sample_win] has the outer rectangle
    [100 <= x < 150], [0 <= y < 100]. *)
Definition moving_ext : Collaborators :=
  sample_collaborators [mk_sample sample_win (meta_rect 100 0 50 100) true].

(** The positions of the comment that opens
    [find_index_of_edge_near_position], as an array of vertical edges. *)
Definition comment_array : GArray :=
  map (fun p => vertical_edge p META_DIRECTION_LEFT META_EDGE_WINDOW)
    [3; 27; 316; 316; 316; 505; 522; 800; 1213].

(** Five aligned vertical edges, sorted by position. *)
Definition five_edges : GArray :=
  map (fun p => vertical_edge p META_DIRECTION_LEFT META_EDGE_WINDOW)
    [0; 14; 20; 30; 40].

(** The grab of [sample_win] used for the keyboard snap to the left: one
    window edge at 120 in the left array, one at 500 in the right array. *)
Definition snap_display : MetaDisplay :=
  sample_display [vertical_edge 120 META_DIRECTION_LEFT META_EDGE_WINDOW]
    [vertical_edge 500 META_DIRECTION_RIGHT META_EDGE_WINDOW] [] [].

(** A grab whose four edge arrays each hold one window edge. *)
Definition four_sided_display : MetaDisplay :=
  sample_display
    [vertical_edge 110 META_DIRECTION_LEFT META_EDGE_WINDOW]
    [vertical_edge 500 META_DIRECTION_RIGHT META_EDGE_WINDOW]
    [mk_edge (meta_rect 0 300 1000 0) META_DIRECTION_TOP META_EDGE_WINDOW]
    [mk_edge (meta_rect 0 600 1000 0) META_DIRECTION_BOTTOM META_EDGE_WINDOW].

(** A stack, from bottom to top: a desktop window, a normal window, a dock
    and the grabbed window [sample_win]. *)
Definition stack_windows : list SampleWindow :=
  [ mk_sample (mk_window 10 1 META_WINDOW_DESKTOP false false)
      (meta_rect 0 0 1000 1000) true;
    mk_sample (mk_window 11 1 META_WINDOW_NORMAL false false)
      (meta_rect 200 200 100 100) true;
    mk_sample (mk_window 12 1 META_WINDOW_DOCK false false)
      (meta_rect 0 0 1000 30) true;
    mk_sample sample_win (meta_rect 100 0 50 100) true ].

(** Collaborators for that stack. *)
Definition stack_ext : Collaborators := sample_collaborators stack_windows.

(** The display when the grab of [sample_win] begins, before the edges are
    computed; the workspace has the four edges of the screen. *)
Definition starting_display : MetaDisplay :=
  mk_display
    (mk_screen 1 (meta_rect 0 0 1000 1000)
       (mk_workspace []
          [ vertical_edge 0 META_DIRECTION_LEFT META_EDGE_SCREEN;
            vertical_edge 1000 META_DIRECTION_RIGHT META_EDGE_SCREEN;
            mk_edge (meta_rect 0 0 1000 0) META_DIRECTION_TOP META_EDGE_SCREEN;
            mk_edge (meta_rect 0 1000 1000 0) META_DIRECTION_BOTTOM
              META_EDGE_SCREEN ]))
    1 0 (meta_rect 100 0 50 100) false (meta_rect 0 0 0 0) false None.

(** A window that must stay on the screen. *)
Definition onscreen_win : MetaWindow :=
  mk_window 1 1 META_WINDOW_NORMAL false true.

(** A grab of [onscreen_win] whose left and right arrays hold the edges of
    the screen. *)
Definition screen_grab : MetaEdgeResistanceData :=
  mk_edge_data [vertical_edge 0 META_DIRECTION_LEFT META_EDGE_SCREEN]
    [vertical_edge 1000 META_DIRECTION_RIGHT META_EDGE_SCREEN] [] []
    (sample_data true) (sample_data true) (sample_data true)
    (sample_data true).

(** The mouse takes the left side from 10 to -5, across the screen edge. *)
Definition toward_screen_edge : list GrabEvent :=
  [Resist META_DIRECTION_LEFT onscreen_win 10 (-5) (meta_rect (-5) 0 50 100)
     7 false].

(** The state of the sample grab once the mouse has gone for the screen
    edge: a timer of 750 ms is pending for the left side. *)
Definition armed_grab : GrabState :=
  Eval vm_compute in
    match grab_run (ext := sample_ext) (screen_grab, []) toward_screen_edge
    with
    | Ret st => st
    | _ => (screen_grab, [])
    end.

(** ** Vocabulary of the further properties *)

(** Coordinates close enough to the origin that the product of two of their
    differences, as [points_on_same_side] forms it, fits an [int]. *)
Definition near (z : Z) : Prop := -23170 <= z <= 23170.

Section Targets.
Context {ext : Collaborators}.

(** What the nearest-aligned search may answer: the old position, or the
    coordinate of an edge of the array that passes the candidate test. *)
Definition snap_target (edges : GArray) (position old_position : Z)
    (new_rect : MetaRectangle) (horizontal only_forward : bool) (r : Z)
  : Prop :=
  r = old_position \/
  exists edge, In edge edges /\
    candidate position old_position new_rect horizontal only_forward edge
    = true /\
    edge_coord horizontal edge = r.

(** The coordinate [r] is that of an edge of the array aligned with the
    moving rectangle. *)
Definition aligned_at (xdir : bool) (edges : GArray)
    (new_rect : MetaRectangle) (r : Z) : Prop :=
  exists edge, In edge edges /\ edges_align xdir edge new_rect = true /\
               edge_coord xdir edge = r.

End Targets.

(** Two resistance records agree on everything a call may look at: the
    three fields [initialize_grab_edge_resistance_data] sets and, when a
    timer is set up, the fields that arming a timer sets. *)
Definition same_state (rd rd' : ResistanceDataForAnEdge) : Prop :=
  timeout_setup rd = timeout_setup rd' /\
  keyboard_buildup rd = keyboard_buildup rd' /\
  allow_past_screen_edge rd = allow_past_screen_edge rd' /\
  (timeout_setup rd = true -> rd = rd').

(** A record with the fields that no timer has set replaced by fixed
    values. *)
Definition scrub (rd : ResistanceDataForAnEdge) : ResistanceDataForAnEdge :=
  if timeout_setup rd then rd
  else mk_resistance_data false 0 0 false 0
         (mk_window 0 0 META_WINDOW_NORMAL false false)
         (keyboard_buildup rd) (allow_past_screen_edge rd).

Definition scrub_walk (s : WalkState) : WalkState :=
  mk_walk (walk_i s) (okay_to_clear_keyboard_buildup s)
    (keyboard_buildup_edge s) (scrub (walk_data s)) (walk_loop s).

Definition scrub_returned (r : Returned) : Returned :=
  let '(pos, rd, ml) := r in (pos, scrub rd, ml).

Definition ctl_map {S R : Type} (f : S -> S) (g : R -> R) (c : ctl S R)
  : ctl S R :=
  match c with
  | Continue s => Continue (f s)
  | Break r => Break (g r)
  end.

Definition result_map {A : Type} (f : A -> A) (c : result A) : result A :=
  match c with
  | Ret a => Ret (f a)
  | Fault => Fault
  | AssertFailed => AssertFailed
  | OutOfFuel => OutOfFuel
  end.

(** A rectangle whose fields and far sides all fit an [int]. *)
Definition rect_in_int (r : MetaRectangle) : Prop :=
  in_int (rect_x r) /\ in_int (rect_y r) /\
  in_int (rect_width r) /\ in_int (rect_height r) /\
  in_int (rect_x r + rect_width r) /\ in_int (rect_y r + rect_height r).

(** The four edge arrays of a grab are not empty and their lengths fit an
    [int]. *)
Definition arrays_ok (edge_data : MetaEdgeResistanceData) : Prop :=
  forall side, side_edges edge_data side <> [] /\
               len_ok (side_edges edge_data side).

(** The fields of a display that a move or a resize has no business with. *)
Definition same_grab (display display' : MetaDisplay) : Prop :=
  grab_screen display' = grab_screen display /\
  grab_window display' = grab_window display /\
  grab_anchor_root_y display' = grab_anchor_root_y display /\
  grab_initial_window_pos display' = grab_initial_window_pos display /\
  grab_wireframe_active display' = grab_wireframe_active display /\
  grab_wireframe_rect display' = grab_wireframe_rect display.

Section Stacking.
Context {ext : Collaborators}.

(** The outer rectangles of the windows of a stack whose edges are
    relevant, from bottom to top. *)
Fixpoint relevant_rects (display : MetaDisplay) (ws : list MetaWindow)
  : list MetaRectangle :=
  match ws with
  | [] => []
  | w :: rest =>
      if WINDOW_EDGES_RELEVANT w display
      then meta_window_get_outer_rect w :: relevant_rects display rest
      else relevant_rects display rest
  end.

(** The window edges of a stack given from bottom to top, said directly:
    each relevant window that is not a dock gives its four edges with the
    parts covered by the relevant windows above it removed; the edges of a
    higher window come first. *)
Fixpoint edges_above (display : MetaDisplay) (ws : list MetaWindow)
  : list MetaEdge :=
  match ws with
  | [] => []
  | w :: rest =>
      edges_above display rest ++
      (if WINDOW_EDGES_RELEVANT w display &&
          negb (MetaWindowType_eqb (type w) META_WINDOW_DOCK)
       then edges_from_window display w (relevant_rects display rest)
       else [])
  end.

End Stacking.

(** The display of the sample grab once its edges have been computed, and
    the resistance data it holds. *)
Definition computed_display : MetaDisplay :=
  Eval vm_compute in
    match meta_display_compute_resistance_and_snapping_edges
            (ext := stack_ext) (sample_data true) starting_display with
    | Ret display => display
    | _ => starting_display
    end.

Definition computed_edges : MetaEdgeResistanceData :=
  Eval vm_compute in
    match grab_edge_resistance_data computed_display with
    | Some edge_data => edge_data
    | None => screen_grab
    end.

(** The window is dragged up across the top edge of the screen, then to the
    left, and the timer of the top side fires. *)
Definition drag_up_and_left : list GrabEvent :=
  [ Resist META_DIRECTION_TOP onscreen_win 10 (-5) (meta_rect 100 (-5) 50 100)
      7 false;
    Resist META_DIRECTION_LEFT onscreen_win 100 40 (meta_rect 40 0 50 100)
      7 false;
    TimerFires 1 ].

Definition dragged_grab : GrabState :=
  Eval vm_compute in
    match grab_run (ext := stack_ext) (computed_edges, []) drag_up_and_left
    with
    | Ret st => st
    | _ => (computed_edges, [])
    end.

(** The four edge arrays of a grab are sorted by position, as
    [cache_edges] leaves them. *)
Definition arrays_sorted (edge_data : MetaEdgeResistanceData) : Prop :=
  forall side, sorted_edges (side_xdir side) (side_edges edge_data side).

(** A rectangle whose position and size are small. *)
Definition rect_small (r : MetaRectangle) : Prop :=
  small (rect_x r) /\ small (rect_y r) /\
  small (rect_width r) /\ small (rect_height r).

(** * Properties *)

(** ** Machine integers *)

Lemma wrap_small (z : Z) : in_int z -> wrap z = z.
Proof.
  unfold in_int, wrap, INT_MIN, INT_MAX. intros H.
  rewrite Z.mod_small; lia.
Qed.

Lemma int_add_small (a b : Z) : in_int (a + b) -> int_add a b = a + b.
Proof. apply wrap_small. Qed.

Lemma int_sub_small (a b : Z) : in_int (a - b) -> int_sub a b = a - b.
Proof. apply wrap_small. Qed.

Lemma ABS_small (a : Z) : INT_MIN < a <= INT_MAX -> ABS a = Z.abs a.
Proof.
  unfold ABS, int_neg, INT_MIN, INT_MAX. intros H.
  destruct (Z.ltb_spec a 0).
  - rewrite wrap_small; [lia | unfold in_int, INT_MIN, INT_MAX; lia].
  - lia.
Qed.

(** ** Loops *)

Section WhileRule.
Context {S R : Type}.
Variable Inv : S -> Prop.
Variable Post : R -> Prop.
Variable measure : S -> nat.
Variable cond : S -> bool.
Variable body : S -> result (ctl S R).

Hypothesis step_ok : forall s, Inv s -> cond s = true ->
  match body s with
  | Ret (Continue s') => Inv s' /\ (measure s' < measure s)%nat
  | Ret (Break r) => Post r
  | _ => False
  end.

(** Total correctness of a loop: with an invariant kept by the body, a
    measure that the body decreases and fuel above the measure, the loop
    ends, either on its test with the invariant or on a [Break]. *)
Lemma while_loop_rule (fuel : nat) (s : S) :
  Inv s -> (measure s < fuel)%nat ->
  match while_loop fuel cond body s with
  | Ret (Continue s') => Inv s' /\ cond s' = false
  | Ret (Break r) => Post r
  | _ => False
  end.
Proof.
  revert s. induction fuel as [|fuel IH]; intros s HI Hm.
  - lia.
  - simpl. destruct (cond s) eqn:Hc.
    + specialize (step_ok s HI Hc).
      destruct (body s) as [[s'|r]| | |]; simpl; try contradiction.
      * destruct step_ok as [HI' Hlt]. apply IH; [assumption | lia].
      * assumption.
    + split; assumption.
Qed.

End WhileRule.

(** Termination alone: the body keeps the invariant and decreases the
    measure, or leaves the loop. *)
Lemma while_loop_total {S R : Type} (Inv : S -> Prop) (measure : S -> nat)
    (cond : S -> bool) (body : S -> result (ctl S R)) :
  (forall s, Inv s -> cond s = true ->
     match body s with
     | Ret (Continue s') => Inv s' /\ (measure s' < measure s)%nat
     | Ret (Break r) => True
     | _ => False
     end) ->
  forall fuel s, Inv s -> (measure s < fuel)%nat ->
  exists c, while_loop fuel cond body s = Ret c.
Proof.
  intros Hstep fuel s HI HM.
  pose proof (while_loop_rule Inv (fun _ => True) measure cond body Hstep
                fuel s HI HM) as H.
  destruct (while_loop fuel cond body s) as [c| | |]; try contradiction.
  exists c. reflexivity.
Qed.

(** ** Arrays *)

Lemma g_array_len_ok (edges : GArray) :
  len_ok edges -> g_array_len edges = array_len edges.
Proof.
  unfold len_ok, g_array_len, array_len. intros H. apply wrap_small.
  unfold in_int, INT_MIN, INT_MAX in *. lia.
Qed.

Lemma g_array_index_in (horizontal : bool) (edges : GArray) (i : Z) :
  0 <= i < array_len edges ->
  exists e, g_array_index edges i = Ret e /\
            nth_error edges (Z.to_nat i) = Some e /\
            edge_coord horizontal e = pos_at horizontal edges i.
Proof.
  unfold array_len, g_array_index, pos_at. intros H.
  destruct (Z.ltb_spec i 0); [lia|].
  destruct (nth_error edges (Z.to_nat i)) as [e|] eqn:He.
  - exists e. repeat split.
    erewrite nth_error_nth; [reflexivity|].
    rewrite nth_error_map, He. reflexivity.
  - apply nth_error_None in He. lia.
Qed.

Lemma nondecreasing_nth (l : list Z) :
  nondecreasing l = true ->
  forall i j, (i <= j < length l)%nat -> nth i l 0 <= nth j l 0.
Proof.
  induction l as [|x xs IH]; intros Hs i j Hij; simpl in *; [lia|].
  destruct xs as [|y ys].
  - simpl in *. assert (i = 0 /\ j = 0)%nat as [-> ->] by lia. lia.
  - apply andb_true_iff in Hs as [Hxy Hs]. apply Z.leb_le in Hxy.
    destruct j as [|j].
    + assert (i = 0)%nat as -> by lia. lia.
    + destruct i as [|i].
      * specialize (IH Hs 0%nat j). simpl in IH. simpl.
        assert (y <= match j with O => y | Datatypes.S m => nth m ys 0 end)
          by (apply IH; simpl in *; lia).
        lia.
      * apply (IH Hs i j). simpl in *. lia.
Qed.

Lemma sorted_edges_le (horizontal : bool) (edges : GArray) (i j : Z) :
  sorted_edges horizontal edges ->
  0 <= i -> i <= j -> j < array_len edges ->
  pos_at horizontal edges i <= pos_at horizontal edges j.
Proof.
  unfold sorted_edges, pos_at, array_len. intros Hs Hi Hij Hj.
  apply nondecreasing_nth; [assumption|].
  rewrite length_map. lia.
Qed.

(** ** The search helpers on a non-empty array *)

Ltac int_small :=
  repeat first
    [ rewrite int_add_small by (unfold in_int, INT_MIN, INT_MAX in *; lia)
    | rewrite int_sub_small by (unfold in_int, INT_MIN, INT_MAX in *; lia) ].

Lemma int_div_2_small (a : Z) :
  0 <= a <= INT_MAX -> int_div a 2 = a / 2.
Proof.
  intros H. unfold int_div. rewrite Z.quot_div_nonneg by lia.
  apply wrap_small. unfold in_int, INT_MIN, INT_MAX in *.
  pose proof (Z.div_pos a 2). pose proof (Z.div_le_upper_bound a 2 a).
  lia.
Qed.

Lemma binary_search_in (edges : GArray) (position : Z) (horizontal : bool) :
  edges <> [] -> len_ok edges ->
  exists mid, binary_search edges position horizontal
              = Ret (mid, pos_at horizontal edges mid) /\
              0 <= mid < array_len edges.
Proof.
  intros Hne Hlen. unfold binary_search.
  assert (Hpos : 0 < array_len edges).
  { unfold array_len. destruct edges; [congruence | simpl; lia]. }
  destruct (g_array_index_in horizontal edges 0) as (e0 & -> & _ & He0);
    [lia|].
  simpl. rewrite He0, g_array_len_ok by assumption.
  unfold len_ok in Hlen. int_small.
  pose (Inv := fun s : Z * Z * Z * Z =>
    let '(low, high, mid, compare) := s in
    0 <= low /\ high < array_len edges /\
    0 <= mid < array_len edges /\ compare = pos_at horizontal edges mid).
  pose (Post := fun r : Z * Z =>
    0 <= fst r < array_len edges /\ snd r = pos_at horizontal edges (fst r)).
  pose (measure := fun s : Z * Z * Z * Z =>
    let '(low, high, _, _) := s in Z.to_nat (high - low)).
  assert (Hstep : forall s, Inv s -> search_cond s = true ->
    match search_body edges position horizontal s with
    | Ret (Continue s') => Inv s' /\ (measure s' < measure s)%nat
    | Ret (Break r) => Post r
    | _ => False
    end).
  { intros [[[low high] mid] compare] (Hlow & Hhigh & Hmid & Hc) Hcond.
    unfold search_cond in Hcond. apply Z.ltb_lt in Hcond.
    unfold search_body. int_small.
    rewrite int_div_2_small by (unfold INT_MAX in *; lia).
    assert (Hm : low <= low + (high - low) / 2 < high).
    { pose proof (Z.div_pos (high - low) 2).
      assert ((high - low) / 2 < high - low)
        by (apply Z.div_lt_upper_bound; lia).
      lia. }
    int_small.
    destruct (g_array_index_in horizontal edges (low + (high - low) / 2))
      as (e & -> & _ & He); [lia|].
    simpl. rewrite He.
    destruct (_ =? position).
    - unfold Post; simpl. split; [lia | reflexivity].
    - destruct (_ >? position); unfold Inv, measure; int_small;
        repeat split; try lia. }
  pose proof (while_loop_rule Inv Post measure search_cond
                (search_body edges position horizontal) Hstep (length edges)
                (0, array_len edges - 1, 0, pos_at horizontal edges 0))
    as Hrule.
  assert (HI : Inv (0, array_len edges - 1, 0, pos_at horizontal edges 0))
    by (unfold Inv; repeat split; lia).
  assert (HM : (measure (0, array_len edges - 1, 0,
                         pos_at horizontal edges 0)%Z < length edges)%nat)
    by (unfold measure, array_len in *; lia).
  specialize (Hrule HI HM).
  destruct (while_loop _ search_cond _ _)
    as [[[[[low high] mid] compare]|[mid compare]]| | |];
    simpl; try contradiction.
  - destruct Hrule as [(_ & _ & Hmid & ->) _].
    exists mid. split; [reflexivity | lia].
  - destruct Hrule as [Hmid Hc]. simpl in *. subst compare.
    exists mid. split; [reflexivity | lia].
Qed.

(** A downward scan stops on the first index at or below [mid] whose
    coordinate fails [test], or on index 0. *)
Lemma linear_scan_down (edges : GArray) (horizontal : bool)
    (test : Z -> bool) (mid : Z) :
  len_ok edges -> 0 <= mid < array_len edges ->
  exists m, linear_scan edges horizontal test (fun mid => mid >? 0) (-1)
              mid (pos_at horizontal edges mid)
            = Ret (m, pos_at horizontal edges m) /\
            0 <= m <= mid /\
            (forall j, m < j <= mid ->
                       test (pos_at horizontal edges j) = true) /\
            (test (pos_at horizontal edges m) = false \/ m = 0).
Proof.
  intros Hlen Hmid. unfold linear_scan, len_ok in *.
  pose (Inv := fun s : Z * Z =>
    0 <= fst s <= mid /\ snd s = pos_at horizontal edges (fst s) /\
    forall j, fst s < j <= mid -> test (pos_at horizontal edges j) = true).
  pose (measure := fun s : Z * Z => Z.to_nat (fst s)).
  assert (Hstep : forall s, Inv s ->
    scan_cond test (fun mid => mid >? 0) s = true ->
    match scan_body edges horizontal (-1) s with
    | Ret (Continue s') => Inv s' /\ (measure s' < measure s)%nat
    | Ret (Break r) => False
    | _ => False
    end).
  { intros [m c] (Hm & Hc & Hall) Hcond. simpl in *. subst c.
    unfold scan_cond in Hcond. simpl in Hcond.
    apply andb_true_iff in Hcond as [Ht Hg]. apply Z.gtb_lt in Hg.
    unfold scan_body. simpl. int_small.
    destruct (g_array_index_in horizontal edges (m + -1))
      as (e & -> & _ & He); [lia|].
    simpl. rewrite He. unfold Inv, measure. simpl.
    repeat split; try lia.
    intros j Hj. destruct (Z.eq_dec j m) as [->|]; [assumption|].
    apply Hall. lia. }
  pose proof (while_loop_rule Inv (fun _ => False) measure _ _ Hstep
                (length edges) (mid, pos_at horizontal edges mid)) as Hrule.
  assert (HI : Inv (mid, pos_at horizontal edges mid)).
  { unfold Inv. simpl. repeat split; intros; lia. }
  assert (HM : (measure (mid, pos_at horizontal edges mid)
                < length edges)%nat)
    by (unfold measure, array_len in *; simpl; lia).
  specialize (Hrule HI HM).
  destruct (while_loop _ _ _ _) as [[[m c]|[]]| | |]; simpl;
    try contradiction.
  destruct Hrule as [(Hm & Hc & Hall) Hcond]. simpl in *. subst c.
  exists m. repeat split; try lia; try assumption.
  unfold scan_cond in Hcond. simpl in Hcond.
  apply andb_false_iff in Hcond as [Ht | Hg]; [left; assumption|].
  right. destruct (Z.gtb_spec m 0); [discriminate | lia].
Qed.

(** An upward scan stops on the first index at or above [mid] whose
    coordinate fails [test], or on the last index. *)
Lemma linear_scan_up (edges : GArray) (horizontal : bool)
    (test : Z -> bool) (mid : Z) :
  len_ok edges -> 0 <= mid < array_len edges ->
  exists m, linear_scan edges horizontal test
              (fun mid => mid <? int_sub (g_array_len edges) 1) 1
              mid (pos_at horizontal edges mid)
            = Ret (m, pos_at horizontal edges m) /\
            mid <= m < array_len edges /\
            (forall j, mid <= j < m ->
                       test (pos_at horizontal edges j) = true) /\
            (test (pos_at horizontal edges m) = false \/
             m = array_len edges - 1).
Proof.
  intros Hlen Hmid. unfold linear_scan.
  rewrite g_array_len_ok by assumption. unfold len_ok in *. int_small.
  pose (Inv := fun s : Z * Z =>
    mid <= fst s < array_len edges /\
    snd s = pos_at horizontal edges (fst s) /\
    forall j, mid <= j < fst s -> test (pos_at horizontal edges j) = true).
  pose (measure := fun s : Z * Z => Z.to_nat (array_len edges - 1 - fst s)).
  assert (Hstep : forall s, Inv s ->
    scan_cond test (fun mid => mid <? array_len edges - 1) s = true ->
    match scan_body edges horizontal 1 s with
    | Ret (Continue s') => Inv s' /\ (measure s' < measure s)%nat
    | Ret (Break r) => False
    | _ => False
    end).
  { intros [m c] (Hm & Hc & Hall) Hcond. simpl in *. subst c.
    unfold scan_cond in Hcond. simpl in Hcond.
    apply andb_true_iff in Hcond as [Ht Hg]. apply Z.ltb_lt in Hg.
    unfold scan_body. simpl. int_small.
    destruct (g_array_index_in horizontal edges (m + 1))
      as (e & -> & _ & He); [lia|].
    simpl. rewrite He. unfold Inv, measure. simpl.
    repeat split; try lia.
    intros j Hj. destruct (Z.eq_dec j m) as [->|]; [assumption|].
    apply Hall. lia. }
  pose proof (while_loop_rule Inv (fun _ => False) measure _ _ Hstep
                (length edges) (mid, pos_at horizontal edges mid)) as Hrule.
  assert (HI : Inv (mid, pos_at horizontal edges mid)).
  { unfold Inv. simpl. repeat split; intros; lia. }
  assert (HM : (measure (mid, pos_at horizontal edges mid)
                < length edges)%nat)
    by (unfold measure, array_len in *; simpl; lia).
  specialize (Hrule HI HM).
  destruct (while_loop _ _ _ _) as [[[m c]|[]]| | |]; simpl;
    try contradiction.
  destruct Hrule as [(Hm & Hc & Hall) Hcond]. simpl in *. subst c.
  exists m. repeat split; try lia; try assumption.
  unfold scan_cond in Hcond. simpl in Hcond.
  apply andb_false_iff in Hcond as [Ht | Hg]; [left; assumption|].
  right. destruct (Z.ltb_spec m (array_len edges - 1)); [discriminate | lia].
Qed.

(** On a non-empty sorted array, the lower-bound search returns the
    smallest index whose coordinate is at least [position], or the length
    of the array when there is none. *)
Lemma find_index_min_spec (edges : GArray) (position : Z) (horizontal : bool) :
  edges <> [] -> len_ok edges -> sorted_edges horizontal edges ->
  exists r, find_index_of_edge_near_position edges position true horizontal
            = Ret r /\
            0 <= r <= array_len edges /\
            (forall j, 0 <= j < r -> pos_at horizontal edges j < position) /\
            (forall j, r <= j < array_len edges ->
                       position <= pos_at horizontal edges j).
Proof.
  intros Hne Hlen Hs. unfold find_index_of_edge_near_position.
  destruct (binary_search_in edges position horizontal Hne Hlen)
    as (mid & -> & Hmid).
  simpl.
  destruct (linear_scan_down edges horizontal (fun c => c >=? position) mid
              Hlen Hmid) as (m1 & -> & Hm1 & _ & Hstop1).
  simpl.
  destruct (linear_scan_up edges horizontal (fun c => c <? position) m1 Hlen)
    as (m2 & -> & Hm2 & Hbelow & Hstop2); [lia|].
  simpl.
  assert (Hlow : forall j, 0 <= j < m2 -> pos_at horizontal edges j < position).
  { intros j Hj. destruct (Z_lt_le_dec j m1) as [Hlt | Hge].
    - destruct Hstop1 as [Hf | ->]; [|lia].
      destruct (Z.geb_spec (pos_at horizontal edges m1) position);
        [discriminate|].
      pose proof (sorted_edges_le horizontal edges j m1 Hs). lia.
    - specialize (Hbelow j). apply Z.ltb_lt. apply Hbelow. lia. }
  destruct (Z.ltb_spec (pos_at horizontal edges m2) position) as [Hlt | Hge].
  - destruct Hstop2 as [Hf | ->].
    { discriminate. }
    rewrite g_array_len_ok by assumption.
    eexists. split; [reflexivity|]. repeat split; try lia.
    intros j Hj.
    pose proof (sorted_edges_le horizontal edges j (array_len edges - 1) Hs).
    lia.
  - exists m2. split; [reflexivity|]. repeat split; try lia; try assumption.
    intros j Hj.
    pose proof (sorted_edges_le horizontal edges m2 j Hs). lia.
Qed.

(** On a non-empty sorted array, the upper-bound search returns the largest
    index whose coordinate is at most [position], or -1 when there is
    none. *)
Lemma find_index_max_spec (edges : GArray) (position : Z) (horizontal : bool) :
  edges <> [] -> len_ok edges -> sorted_edges horizontal edges ->
  exists r, find_index_of_edge_near_position edges position false horizontal
            = Ret r /\
            -1 <= r < array_len edges /\
            (forall j, 0 <= j <= r -> pos_at horizontal edges j <= position) /\
            (forall j, r < j < array_len edges ->
                       position < pos_at horizontal edges j).
Proof.
  intros Hne Hlen Hs. unfold find_index_of_edge_near_position.
  destruct (binary_search_in edges position horizontal Hne Hlen)
    as (mid & -> & Hmid).
  simpl.
  destruct (linear_scan_up edges horizontal (fun c => c <=? position) mid
              Hlen Hmid) as (m1 & -> & Hm1 & _ & Hstop1).
  simpl.
  destruct (linear_scan_down edges horizontal (fun c => c >? position) m1
              Hlen) as (m2 & -> & Hm2 & Habove & Hstop2); [lia|].
  simpl.
  assert (Hhigh : forall j, m2 < j < array_len edges ->
                            position < pos_at horizontal edges j).
  { intros j Hj. destruct (Z_lt_le_dec m1 j) as [Hlt | Hge].
    - destruct Hstop1 as [Hf | ->]; [|lia].
      apply Z.leb_gt in Hf.
      pose proof (sorted_edges_le horizontal edges m1 j Hs). lia.
    - specialize (Habove j). apply Z.gtb_lt. apply Habove. lia. }
  destruct (Z.gtb_spec (pos_at horizontal edges m2) position) as [Hgt | Hle].
  - destruct Hstop2 as [Hf | ->].
    { discriminate. }
    eexists. split; [reflexivity|]. repeat split; try lia.
    intros j Hj.
    pose proof (sorted_edges_le horizontal edges 0 j Hs). lia.
  - exists m2. split; [reflexivity|]. repeat split; try lia; try assumption.
    intros j Hj.
    pose proof (sorted_edges_le horizontal edges j m2 Hs). lia.
Qed.

(** ** The resistance walk in a mouse operation *)

Section MouseWalk.
Context {ext : Collaborators}.

Lemma remove_old_timeout_allow (old_pos new_pos : Z)
    (rd : ResistanceDataForAnEdge) (ml : MainLoop) :
  allow_past_screen_edge (fst (remove_old_timeout old_pos new_pos rd ml))
  = allow_past_screen_edge rd /\
  keyboard_buildup (fst (remove_old_timeout old_pos new_pos rd ml))
  = keyboard_buildup rd.
Proof.
  unfold remove_old_timeout.
  destruct (timeout_setup rd && _); [|split; reflexivity].
  destruct (negb _); split; reflexivity.
Qed.

(** Whatever a mouse step does, it returns the coordinate of the edge it
    looked at or moves on by [increment], and it leaves
    [allow_past_screen_edge] alone. *)
Lemma mouse_branch_cases (self : MetaDirection) (win : MetaWindow)
    (new_pos increment : Z) (timeout_fn : GSourceFunc) (edge : MetaEdge)
    (compare : Z) (s : WalkState) :
  match mouse_branch self win new_pos increment timeout_fn edge compare s with
  | Break (r, rd', _) =>
      r = compare /\
      allow_past_screen_edge rd' = allow_past_screen_edge (walk_data s)
  | Continue s' =>
      walk_i s' = int_add (walk_i s) increment /\
      allow_past_screen_edge (walk_data s')
      = allow_past_screen_edge (walk_data s)
  end.
Proof.
  unfold mouse_branch, g_timeout_add.
  repeat (match goal with
          | |- context [if ?c then _ else _] => destruct c
          end; simpl);
    split; reflexivity.
Qed.

(** C4 (amended).  In a mouse operation on a side whose
    [allow_past_screen_edge] is false, a screen edge of a sorted edge array
    that is aligned with the moving rectangle, that the movement is heading
    for ([movement_towards_edge] for the edge's side) and whose coordinate
    lies between the old and the new position is never passed: the call
    returns, and the coordinate it returns is not beyond the edge in the
    direction of travel. *)
Theorem screen_edge_barrier (self : MetaDirection) (win : MetaWindow)
    (old_pos new_pos : Z) (new_rect : MetaRectangle) (edges : GArray)
    (rd : ResistanceDataForAnEdge) (timeout_fn : GSourceFunc) (xdir : bool)
    (ml : MainLoop) (k : Z) (e : MetaEdge) :
  len_ok edges -> sorted_edges xdir edges ->
  0 <= k -> nth_error edges (Z.to_nat k) = Some e ->
  edge_type e = META_EDGE_SCREEN ->
  edges_align xdir e new_rect = true ->
  allow_past_screen_edge rd = false ->
  movement_towards_edge (side_type e)
    (if new_pos >? old_pos then 1 else -1) = true ->
  (if new_pos >? old_pos
   then old_pos <= edge_coord xdir e <= new_pos
   else new_pos <= edge_coord xdir e <= old_pos) ->
  exists r rd' ml',
    apply_edge_resistance self win old_pos new_pos new_rect edges rd
      timeout_fn xdir false ml = Ret (r, rd', ml') /\
    (if new_pos >? old_pos
     then r <= edge_coord xdir e else edge_coord xdir e <= r).
Proof.
  intros Hlen Hs Hk0 Hk Hscreen Halign Hallow Htowards Hbetween.
  assert (Hklen : k < array_len edges).
  { assert (nth_error edges (Z.to_nat k) <> None) as H by congruence.
    apply nth_error_Some in H. unfold array_len. lia. }
  assert (Hne : edges <> []).
  { intros ->. unfold array_len in Hklen. simpl in Hklen. lia. }
  assert (HE : pos_at xdir edges k = edge_coord xdir e).
  { destruct (g_array_index_in xdir edges k) as (e' & _ & He' & <-); [lia|].
    congruence. }
  unfold apply_edge_resistance, resistance_walk. cbv zeta.
  destruct (Z.eqb_spec old_pos new_pos) as [-> | Hneq].
  { rewrite Z.gtb_ltb, Z.ltb_irrefl in Hbetween |- *.
    do 3 eexists. split; [reflexivity | lia]. }
  pose proof (remove_old_timeout_allow old_pos new_pos rd ml) as [Hal _].
  destruct (remove_old_timeout old_pos new_pos rd ml) as [rd1 ml1].
  simpl in Hal. rewrite Hallow in Hal.
  set (increasing := new_pos >? old_pos) in *.
  set (increment := if increasing then 1 else -1) in *.
  assert (Hfind : exists begin end_,
    find_index_of_edge_near_position edges old_pos increasing xdir
      = Ret begin /\
    find_index_of_edge_near_position edges new_pos (negb increasing) xdir
      = Ret end_ /\
    (if increasing then 0 <= begin <= k /\ k <= end_
     else end_ <= k /\ k <= begin < array_len edges)).
  { destruct increasing.
    - destruct (find_index_min_spec edges old_pos xdir Hne Hlen Hs)
        as (b & Hb & Hbr & Hblow & _).
      destruct (find_index_max_spec edges new_pos xdir Hne Hlen Hs)
        as (en & Hen & Her & _ & Hehigh).
      exists b, en. simpl. repeat split; try assumption; try lia.
      + destruct (Z_le_gt_dec b k); [assumption|].
        specialize (Hblow k). lia.
      + destruct (Z_le_gt_dec k en); [assumption|].
        specialize (Hehigh k). lia.
    - destruct (find_index_max_spec edges old_pos xdir Hne Hlen Hs)
        as (b & Hb & Hbr & _ & Hbhigh).
      destruct (find_index_min_spec edges new_pos xdir Hne Hlen Hs)
        as (en & Hen & Her & Helow & _).
      exists b, en. simpl. repeat split; try assumption; try lia.
      + destruct (Z_le_gt_dec en k); [assumption|].
        specialize (Helow k). lia.
      + destruct (Z_le_gt_dec k b); [assumption|].
        specialize (Hbhigh k). lia. }
  destruct Hfind as (begin & end_ & -> & -> & Hrange). cbn [bind].
  pose (Inv := fun s : WalkState =>
    (if increasing then begin <= walk_i s <= k else k <= walk_i s <= begin)
    /\ allow_past_screen_edge (walk_data s) = false).
  pose (Post := fun r : Returned =>
    if increasing then fst (fst r) <= edge_coord xdir e
    else edge_coord xdir e <= fst (fst r)).
  pose (measure := fun s : WalkState => Z.to_nat (Z.abs (k - walk_i s))).
  assert (Hstep : forall s, Inv s -> walk_cond increasing end_ s = true ->
    match walk_body self win new_pos increment new_rect edges timeout_fn
            xdir false s with
    | Ret (Continue s') => Inv s' /\ (measure s' < measure s)%nat
    | Ret (Break r) => Post r
    | _ => False
    end).
  { intros s [Hi Hsal] _. unfold walk_body.
    assert (Hin : 0 <= walk_i s < array_len edges)
      by (destruct increasing; lia).
    destruct (g_array_index_in xdir edges (walk_i s) Hin)
      as (ei & -> & Hei & Hci).
    simpl.
    assert (Hnext : walk_i s <> k ->
      Inv (mk_walk (int_add (walk_i s) increment)
             (okay_to_clear_keyboard_buildup s) (keyboard_buildup_edge s)
             (walk_data s) (walk_loop s)) /\
      (Z.to_nat (Z.abs (k - int_add (walk_i s) increment))
       < measure s)%nat).
    { intros Hik. unfold Inv, measure, increment, len_ok in *. simpl.
      destruct increasing; int_small; repeat split; try lia; assumption. }
    destruct (Z.eq_dec (walk_i s) k) as [Hik | Hik].
    - rewrite Hik in Hei. assert (ei = e) by congruence. subst ei.
      rewrite Halign. simpl. unfold mouse_branch.
      rewrite Hscreen, Hsal, Htowards. simpl.
      unfold Post. simpl. destruct increasing; lia.
    - destruct (edges_align xdir ei new_rect); simpl.
      + pose proof (mouse_branch_cases self win new_pos increment timeout_fn
                      ei (edge_coord xdir ei) s) as Hcases.
        destruct (mouse_branch _ _ _ _ _ _ _ _) as [s' | [[r rd'] ml']].
        * destruct Hcases as [Hi' Hal']. destruct (Hnext Hik) as [HI' Hm'].
          unfold Inv, measure in *. simpl in *. rewrite Hi', Hal'.
          split; [split; [apply HI' | assumption] | assumption].
        * destruct Hcases as [-> _]. unfold Post. simpl.
          rewrite Hci, <- HE.
          destruct increasing.
          -- apply sorted_edges_le; try assumption; lia.
          -- apply sorted_edges_le; try assumption; lia.
      + apply Hnext. assumption. }
  pose proof (while_loop_rule Inv Post measure _ _ Hstep
                (Datatypes.S (length edges))
                (mk_walk begin false G_MAXINT rd1 ml1)) as Hrule.
  assert (HI : Inv (mk_walk begin false G_MAXINT rd1 ml1)).
  { unfold Inv. simpl. split; [destruct increasing; lia | assumption]. }
  assert (HM : (measure (mk_walk begin false G_MAXINT rd1 ml1)
                < Datatypes.S (length edges))%nat).
  { unfold measure, array_len in *. simpl. destruct increasing; lia. }
  specialize (Hrule HI HM).
  destruct (while_loop _ _ _ _) as [[s' | [[r rd'] ml']]| | |]; cbn [bind];
    try contradiction.
  - exfalso. destruct Hrule as [[Hi _] Hc]. unfold walk_cond in Hc.
    destruct increasing; simpl in Hc.
    + rewrite orb_false_r in Hc. apply Z.leb_gt in Hc. lia.
    + destruct (Z.geb_spec (walk_i s') end_); [discriminate | lia].
  - exists r, rd', ml'. split; [reflexivity|]. apply Hrule.
Qed.

End MouseWalk.

(** The left side is dragged from 10 to -50 across the left edge of the
    screen, which spans the rows of the moving rectangle: the call returns a
    coordinate that is not to the left of 0. *)
Lemma screen_edge_barrier_witness :
  exists r rd' ml',
    apply_edge_resistance (ext := sample_ext) META_DIRECTION_LEFT sample_win
      10 (-50) (meta_rect (-50) 0 50 100)
      [vertical_edge 0 META_DIRECTION_LEFT META_EDGE_SCREEN]
      (sample_data false) 0 true false [] = Ret (r, rd', ml') /\
    0 <= r.
Proof.
  apply (screen_edge_barrier (ext := sample_ext) META_DIRECTION_LEFT
           sample_win 10 (-50) (meta_rect (-50) 0 50 100)
           [vertical_edge 0 META_DIRECTION_LEFT META_EDGE_SCREEN]
           (sample_data false) 0 true [] 0
           (vertical_edge 0 META_DIRECTION_LEFT META_EDGE_SCREEN)).
  - unfold len_ok, array_len, INT_MAX. simpl. lia.
  - reflexivity.
  - lia.
  - reflexivity.
  - reflexivity.
  - vm_compute. reflexivity.
  - reflexivity.
  - reflexivity.
  - simpl. lia.
Defined.

(** C4, as stated, fails: a screen edge at 0 lies between the old position
    10 and the new position -50 of a side that may not pass screen edges,
    the movement heads for it, and yet the call returns -50, because the
    edge spans [0 <= y < 100] and the moving rectangle [200 <= y < 300]. *)
Lemma unaligned_screen_edge_is_passed :
  allow_past_screen_edge (sample_data false) = false /\
  movement_towards_edge META_DIRECTION_LEFT (-1) = true /\
  -50 <= edge_coord true (vertical_edge 0 META_DIRECTION_LEFT META_EDGE_SCREEN)
      <= 10 /\
  apply_edge_resistance (ext := sample_ext) META_DIRECTION_LEFT sample_win
    10 (-50) (meta_rect (-50) 200 50 100)
    [vertical_edge 0 META_DIRECTION_LEFT META_EDGE_SCREEN]
    (sample_data false) 0 true false [] = Ret (-50, sample_data false, []).
Proof.
  repeat split; try reflexivity; simpl; lia.
Qed.

(** ** The resistance walk in a keyboard operation *)

Lemma while_loop_exit {S R : Type} (fuel : nat) (cond : S -> bool)
    (body : S -> result (ctl S R)) (s : S) :
  cond s = false -> while_loop fuel cond body s = Ret (Continue s).
Proof. intros H. destruct fuel; simpl; rewrite H; reflexivity. Qed.

Lemma while_loop_step {S R : Type} (fuel : nat) (cond : S -> bool)
    (body : S -> result (ctl S R)) (s : S) :
  cond s = true ->
  while_loop (Datatypes.S fuel) cond body s
  = (c <- body s ;;
     match c with
     | Continue s' => while_loop fuel cond body s'
     | Break r => Ret (Break r)
     end).
Proof. intros H. simpl. rewrite H. reflexivity. Qed.

Lemma isolated_range (xdir : bool) (edges : GArray) (k : Z) :
  len_ok edges -> sorted_edges xdir edges ->
  0 <= k < array_len edges -> isolated xdir edges k ->
  let E := pos_at xdir edges k in
  find_index_of_edge_near_position edges E true xdir = Ret k /\
  find_index_of_edge_near_position edges (E + 1) false xdir = Ret k /\
  find_index_of_edge_near_position edges E false xdir = Ret k /\
  find_index_of_edge_near_position edges (E - 1) true xdir = Ret k.
Proof.
  intros Hlen Hs Hk Hiso E.
  assert (Hne : edges <> []).
  { intros ->. unfold array_len in Hk. simpl in Hk. lia. }
  assert (Hbelow : forall j, 0 <= j < k -> pos_at xdir edges j < E - 1).
  { intros j Hj. pose proof (sorted_edges_le xdir edges j k Hs).
    destruct (Hiso j); unfold E; lia. }
  assert (Habove : forall j, k < j < array_len edges ->
                             E + 1 < pos_at xdir edges j).
  { intros j Hj. pose proof (sorted_edges_le xdir edges k j Hs).
    destruct (Hiso j); unfold E; lia. }
  repeat split.
  - destruct (find_index_min_spec edges E xdir Hne Hlen Hs)
      as (r & -> & Hr & Hlow & Hhigh).
    f_equal. destruct (Z.lt_trichotomy r k) as [H | [H | H]]; [|assumption|].
    + specialize (Hhigh r). specialize (Hbelow r). lia.
    + specialize (Hlow k). unfold E in *. lia.
  - destruct (find_index_max_spec edges (E + 1) xdir Hne Hlen Hs)
      as (r & -> & Hr & Hlow & Hhigh).
    f_equal. destruct (Z.lt_trichotomy r k) as [H | [H | H]]; [|assumption|].
    + specialize (Hhigh k). unfold E in *. lia.
    + specialize (Hlow r). specialize (Habove r). lia.
  - destruct (find_index_max_spec edges E xdir Hne Hlen Hs)
      as (r & -> & Hr & Hlow & Hhigh).
    f_equal. destruct (Z.lt_trichotomy r k) as [H | [H | H]]; [|assumption|].
    + specialize (Hhigh k). unfold E in *. lia.
    + specialize (Hlow r). specialize (Habove r). lia.
  - destruct (find_index_min_spec edges (E - 1) xdir Hne Hlen Hs)
      as (r & -> & Hr & Hlow & Hhigh).
    f_equal. destruct (Z.lt_trichotomy r k) as [H | [H | H]]; [|assumption|].
    + specialize (Hhigh r). specialize (Hbelow r). lia.
    + specialize (Hlow k). unfold E in *. lia.
Qed.

Lemma keyboard_resistance_window (edge : MetaEdge) (increment : Z) :
  edge_type edge = META_EDGE_WINDOW -> keyboard_resistance edge increment = 16.
Proof.
  unfold keyboard_resistance. intros ->.
  destruct (movement_towards_edge _ _); reflexivity.
Qed.

Section KeyboardWalk.
Context {ext : Collaborators}.

(** One keyboard press of one pixel, in either direction, from the
    coordinate of an aligned window edge that is alone there: the press is
    held at the edge while the buildup is below 15, and is let through, with
    the buildup cleared, from 15 on. *)
Lemma keyboard_press (self : MetaDirection) (win : MetaWindow)
    (new_rect : MetaRectangle) (edges : GArray)
    (rd : ResistanceDataForAnEdge) (timeout_fn : GSourceFunc) (xdir : bool)
    (ml : MainLoop) (k d : Z) (e : MetaEdge) :
  len_ok edges -> sorted_edges xdir edges ->
  0 <= k -> nth_error edges (Z.to_nat k) = Some e ->
  isolated xdir edges k ->
  edge_type e = META_EDGE_WINDOW ->
  edges_align xdir e new_rect = true ->
  INT_MIN + 1 < edge_coord xdir e < INT_MAX - 1 ->
  d = 1 \/ d = -1 ->
  0 <= keyboard_buildup rd <= INT_MAX ->
  exists rd' ml',
    apply_edge_resistance self win (edge_coord xdir e)
      (edge_coord xdir e + d) new_rect edges rd timeout_fn xdir true ml
    = Ret (if keyboard_buildup rd <? 15
           then edge_coord xdir e else edge_coord xdir e + d, rd', ml') /\
    keyboard_buildup rd'
    = (if keyboard_buildup rd <? 15
       then if keyboard_buildup rd =? 0 then 1 else keyboard_buildup rd + 1
       else 0).
Proof.
  intros Hlen Hs Hk0 Hk Hiso Hwin Halign HE Hd Hb.
  assert (Hklen : k < array_len edges).
  { assert (nth_error edges (Z.to_nat k) <> None) as H by congruence.
    apply nth_error_Some in H. unfold array_len. lia. }
  destruct (g_array_index_in xdir edges k) as (e' & Hread & He' & Hpos);
    [lia|].
  assert (e' = e) by congruence. subst e'.
  pose proof (isolated_range xdir edges k Hlen Hs (conj Hk0 Hklen) Hiso)
    as (Hmin & Hmax1 & Hmax & Hmin1).
  rewrite <- Hpos in Hmin, Hmax1, Hmax, Hmin1.
  set (E := edge_coord xdir e) in *.
  unfold apply_edge_resistance, resistance_walk. cbv zeta.
  destruct (Z.eqb_spec E (E + d)) as [Heq | _]; [lia|].
  pose proof (remove_old_timeout_allow E (E + d) rd ml) as [_ Hkb].
  destruct (remove_old_timeout E (E + d) rd ml) as [rd1 ml1].
  simpl in Hkb. rewrite <- Hkb in *. clear Hkb.
  set (b := keyboard_buildup rd1) in *.
  assert (Hbody : forall inc,
    walk_body self win (E + d) inc new_rect edges timeout_fn xdir true
      (mk_walk k false G_MAXINT rd1 ml1)
    = Ret (if b <? 15
           then Break (E, set_keyboard_buildup rd1
                            (if b =? 0 then 1 else b + 1), ml1)
           else Continue (mk_walk (int_add k inc) true E rd1 ml1))).
  { intros inc. unfold walk_body. simpl walk_i. rewrite Hread. cbn [bind].
    fold E. rewrite Halign. simpl negb. cbv iota.
    unfold keyboard_branch. simpl okay_to_clear_keyboard_buildup.
    rewrite keyboard_resistance_window by assumption.
    simpl andb. cbv iota. simpl walk_data. fold b.
    assert (Habs1 : ABS (int_sub E (E + d)) = 1).
    { unfold ABS, int_sub, int_neg.
      replace (E - (E + d)) with (- d) by lia.
      destruct Hd as [-> | ->]; reflexivity. }
    assert (Habs2 : ABS (int_sub (E + d) E) = 1).
    { unfold ABS, int_sub, int_neg.
      replace (E + d - E) with d by lia.
      destruct Hd as [-> | ->]; reflexivity. }
    rewrite Habs1, Habs2.
    rewrite int_sub_small by (unfold in_int, INT_MIN, INT_MAX in *; lia).
    destruct (Z.ltb_spec b 15) as [Hlt | Hge].
    - destruct (Z.ltb_spec 1 (16 - b)); [|lia].
      destruct (Z.eqb_spec b 0); simpl; [reflexivity|].
      rewrite int_add_small by (unfold in_int, INT_MIN, INT_MAX in *; lia).
      reflexivity.
    - destruct (Z.ltb_spec 1 (16 - b)); [lia|]. reflexivity. }
  assert (Hgt : (E + d >? E) = (d >? 0)).
  { destruct Hd as [-> | ->]; [|rewrite !Z.gtb_ltb];
      [ rewrite !Z.gtb_ltb; destruct (Z.ltb_spec E (E + 1));
        [reflexivity | lia]
      | destruct (Z.ltb_spec (E + -1) E); destruct (Z.ltb_spec 0 (-1));
        try reflexivity; lia ]. }
  rewrite Hgt.
  destruct Hd as [-> | ->];
    [change (1 >? 0) with true | change (-1 >? 0) with false];
    cbv iota; simpl negb.
  - rewrite Hmin, Hmax1. cbn [bind].
    rewrite while_loop_step
      by (unfold walk_cond; simpl; rewrite orb_false_r; apply Z.leb_le; lia).
    rewrite Hbody. cbn [bind].
    destruct (b <? 15).
    + do 2 eexists. split; reflexivity.
    + rewrite while_loop_exit.
      2:{ unfold walk_cond, len_ok in *. simpl. int_small.
          rewrite orb_false_r. apply Z.leb_gt. lia. }
      simpl. destruct (Z.eqb_spec (E + 1) E); [lia|]. simpl.
      do 2 eexists. split; reflexivity.
  - replace (E + -1) with (E - 1) in * by lia.
    rewrite Hmax, Hmin1. cbn [bind].
    rewrite while_loop_step
      by (unfold walk_cond; simpl;
          destruct (Z.geb_spec k k); [reflexivity | lia]).
    rewrite Hbody. cbn [bind].
    destruct (b <? 15).
    + do 2 eexists. split; reflexivity.
    + rewrite while_loop_exit.
      2:{ unfold walk_cond, len_ok in *. simpl. int_small.
          destruct (Z.geb_spec (k + -1) k); [lia | reflexivity]. }
      simpl. destruct (Z.eqb_spec (E - 1) E); [lia|]. simpl.
      do 2 eexists. split; reflexivity.
Qed.

End KeyboardWalk.

Section KeyboardBuildup.
Context {ext : Collaborators}.

Lemma keyboard_presses_clamped (self : MetaDirection) (win : MetaWindow)
    (new_rect : MetaRectangle) (edges : GArray)
    (rd : ResistanceDataForAnEdge) (timeout_fn : GSourceFunc) (xdir : bool)
    (ml : MainLoop) (k d : Z) (e : MetaEdge) (n : nat) :
  len_ok edges -> sorted_edges xdir edges ->
  0 <= k -> nth_error edges (Z.to_nat k) = Some e ->
  isolated xdir edges k ->
  edge_type e = META_EDGE_WINDOW ->
  edges_align xdir e new_rect = true ->
  INT_MIN + 1 < edge_coord xdir e < INT_MAX - 1 ->
  d = 1 \/ d = -1 ->
  keyboard_buildup rd = 0 ->
  (n <= 15)%nat ->
  exists rd' ml',
    keyboard_presses n self win (edge_coord xdir e) d new_rect edges rd
      timeout_fn xdir ml = Ret (edge_coord xdir e, rd', ml') /\
    keyboard_buildup rd' = Z.of_nat n.
Proof.
  intros Hlen Hs Hk0 Hk Hiso Hwin Halign HE Hd Hb.
  induction n as [|n IH]; intros Hn.
  - exists rd, ml. split; [reflexivity | assumption].
  - destruct IH as (rd1 & ml1 & Hrun & Hb1); [lia|].
    simpl. rewrite Hrun. cbn [bind].
    rewrite int_add_small
      by (unfold in_int, INT_MIN, INT_MAX in *; destruct Hd; lia).
    destruct (keyboard_press self win new_rect edges rd1 timeout_fn xdir ml1
                k d e) as (rd2 & ml2 & Hpress & Hb2); try assumption.
    { unfold INT_MAX. lia. }
    rewrite Hb1 in Hpress, Hb2.
    destruct (Z.ltb_spec (Z.of_nat n) 15); [|lia].
    rewrite Hpress. exists rd2, ml2. split; [reflexivity|].
    rewrite Hb2. destruct (Z.eqb_spec (Z.of_nat n) 0); lia.
Qed.

(** C3 (amended).  Starting from [keyboard_buildup = 0] with the side at
    the coordinate of an aligned window edge that is alone there, repeated
    keyboard presses of one pixel (in either direction) are held at the
    edge for exactly 15 presses, the n-th of which leaves the buildup at n
    (1 after the first press, one more after each later one); the 16th
    press is let past the edge and clears the buildup. *)
Theorem keyboard_buildup_fifteen_presses (self : MetaDirection)
    (win : MetaWindow) (new_rect : MetaRectangle) (edges : GArray)
    (rd : ResistanceDataForAnEdge) (timeout_fn : GSourceFunc) (xdir : bool)
    (ml : MainLoop) (k d : Z) (e : MetaEdge) :
  len_ok edges -> sorted_edges xdir edges ->
  0 <= k -> nth_error edges (Z.to_nat k) = Some e ->
  isolated xdir edges k ->
  edge_type e = META_EDGE_WINDOW ->
  edges_align xdir e new_rect = true ->
  INT_MIN + 1 < edge_coord xdir e < INT_MAX - 1 ->
  d = 1 \/ d = -1 ->
  keyboard_buildup rd = 0 ->
  (forall n, (1 <= n <= 15)%nat ->
     exists rd' ml',
       keyboard_presses n self win (edge_coord xdir e) d new_rect edges rd
         timeout_fn xdir ml = Ret (edge_coord xdir e, rd', ml') /\
       keyboard_buildup rd' = Z.of_nat n) /\
  (exists rd' ml',
     keyboard_presses 16 self win (edge_coord xdir e) d new_rect edges rd
       timeout_fn xdir ml = Ret (edge_coord xdir e + d, rd', ml') /\
     keyboard_buildup rd' = 0).
Proof.
  intros Hlen Hs Hk0 Hk Hiso Hwin Halign HE Hd Hb. split.
  - intros n Hn.
    apply (keyboard_presses_clamped self win new_rect edges rd timeout_fn
             xdir ml k d e n); try assumption. lia.
  - destruct (keyboard_presses_clamped self win new_rect edges rd timeout_fn
                xdir ml k d e 15) as (rd1 & ml1 & Hrun & Hb1);
      try assumption; [lia|].
    change (keyboard_presses 16 self win (edge_coord xdir e) d new_rect edges
              rd timeout_fn xdir ml)
      with ('(pos', rd', ml') <-
              keyboard_presses 15 self win (edge_coord xdir e) d new_rect
                edges rd timeout_fn xdir ml ;;
            apply_edge_resistance self win pos' (int_add pos' d) new_rect
              edges rd' timeout_fn xdir true ml').
    rewrite Hrun. cbn [bind].
    rewrite int_add_small
      by (unfold in_int, INT_MIN, INT_MAX in *; destruct Hd; lia).
    destruct (keyboard_press self win new_rect edges rd1 timeout_fn xdir ml1
                k d e) as (rd2 & ml2 & Hpress & Hb2); try assumption.
    { rewrite Hb1. unfold INT_MAX. lia. }
    rewrite Hb1 in Hpress, Hb2. simpl in Hpress, Hb2.
    rewrite Hpress. exists rd2, ml2. split; [reflexivity | exact Hb2].
Qed.

End KeyboardBuildup.

(** Presses to the right from a window edge at 100, alone in its array. *)
Lemma keyboard_buildup_fifteen_presses_witness :
  (forall n, (1 <= n <= 15)%nat ->
     exists rd' ml',
       keyboard_presses (ext := sample_ext) n META_DIRECTION_LEFT sample_win
         100 1 (meta_rect 101 0 50 100)
         [vertical_edge 100 META_DIRECTION_LEFT META_EDGE_WINDOW]
         (sample_data true) 0 true [] = Ret (100, rd', ml') /\
       keyboard_buildup rd' = Z.of_nat n) /\
  (exists rd' ml',
     keyboard_presses (ext := sample_ext) 16 META_DIRECTION_LEFT sample_win
       100 1 (meta_rect 101 0 50 100)
       [vertical_edge 100 META_DIRECTION_LEFT META_EDGE_WINDOW]
       (sample_data true) 0 true [] = Ret (101, rd', ml') /\
     keyboard_buildup rd' = 0).
Proof.
  apply (keyboard_buildup_fifteen_presses (ext := sample_ext)
           META_DIRECTION_LEFT sample_win (meta_rect 101 0 50 100)
           [vertical_edge 100 META_DIRECTION_LEFT META_EDGE_WINDOW]
           (sample_data true) 0 true [] 0 1
           (vertical_edge 100 META_DIRECTION_LEFT META_EDGE_WINDOW)).
  - unfold len_ok, array_len, INT_MAX. simpl. lia.
  - reflexivity.
  - lia.
  - reflexivity.
  - unfold isolated, array_len. simpl. intros j Hj Hne. lia.
  - reflexivity.
  - vm_compute. reflexivity.
  - unfold INT_MIN, INT_MAX. simpl. lia.
  - left. reflexivity.
  - reflexivity.
Defined.

(** C3, as stated, fails: from [keyboard_buildup = 0] the 16th press of one
    pixel against a window edge at 100 is not held at 100, whether the
    presses start on the edge or one pixel before it. *)
Lemma sixteenth_press_is_not_clamped :
  ~ (forall n, (1 <= n <= 16)%nat ->
       exists rd' ml',
         keyboard_presses (ext := sample_ext) n META_DIRECTION_LEFT sample_win
           100 1 (meta_rect 101 0 50 100)
           [vertical_edge 100 META_DIRECTION_LEFT META_EDGE_WINDOW]
           (sample_data true) 0 true [] = Ret (100, rd', ml')) /\
  ~ (forall n, (1 <= n <= 16)%nat ->
       exists rd' ml',
         keyboard_presses (ext := sample_ext) n META_DIRECTION_LEFT sample_win
           99 1 (meta_rect 101 0 50 100)
           [vertical_edge 100 META_DIRECTION_LEFT META_EDGE_WINDOW]
           (sample_data true) 0 true [] = Ret (100, rd', ml')).
Proof.
  split; intros H; destruct (H 16%nat) as (rd' & ml' & Heq); try lia;
    vm_compute in Heq; discriminate Heq.
Qed.

(** ** The nearest-aligned search and the snap engine *)

Section Snap.
Context {ext : Collaborators}.

(** On a non-empty array the nearest-aligned search reads inside the array
    only and returns. *)
Lemma find_nearest_position_total (edges : GArray) (position old_position : Z)
    (new_rect : MetaRectangle) (horizontal only_forward : bool) :
  edges <> [] -> len_ok edges ->
  exists r, find_nearest_position edges position old_position new_rect
              horizontal only_forward = Ret r.
Proof.
  intros Hne Hlen. unfold find_nearest_position.
  destruct (binary_search_in edges position horizontal Hne Hlen)
    as (mid & -> & Hmid).
  cbn [bind].
  destruct (g_array_index_in horizontal edges mid Hmid) as (e & -> & _ & _).
  cbn [bind]. rewrite g_array_len_ok by assumption.
  set (bb := if candidate _ _ _ _ _ e then _ else _).
  unfold len_ok in Hlen. int_small.
  destruct (while_loop_total
    (fun i : Z => mid + 1 <= i <= array_len edges)
    (fun i : Z => Z.to_nat (array_len edges - i))
    (fun i => i <? array_len edges)
    (nearest_body edges position old_position new_rect horizontal
       only_forward bb (fun i => int_add i 1))) with (fuel := length edges)
    (s := mid + 1) as (c1 & ->).
  { intros i Hi Hcond. apply Z.ltb_lt in Hcond. unfold nearest_body.
    destruct (g_array_index_in horizontal edges i) as (ei & -> & _ & _);
      [lia|].
    cbn [bind]. destruct (candidate _ _ _ _ _ ei); [exact I|].
    int_small. split; lia. }
  { lia. }
  { unfold array_len in *. lia. }
  cbn [bind].
  set (bb' := match c1 with Continue _ => bb | Break b => b end).
  destruct (while_loop_total
    (fun i : Z => -1 <= i <= mid - 1)
    (fun i : Z => Z.to_nat (i + 1))
    (fun i => i >=? 0)
    (nearest_body edges position old_position new_rect horizontal
       only_forward bb' (fun i => int_sub i 1))) with (fuel := length edges)
    (s := mid - 1) as (c2 & ->).
  { intros i Hi Hcond. unfold nearest_body.
    destruct (Z.geb_spec i 0); [|discriminate].
    destruct (g_array_index_in horizontal edges i) as (ei & -> & _ & _);
      [lia|].
    cbn [bind]. destruct (candidate _ _ _ _ _ ei); [exact I|].
    int_small. split; lia. }
  { lia. }
  { unfold array_len in *. lia. }
  cbn [bind]. eexists. reflexivity.
Qed.

Lemma apply_edge_snapping_total (old_pos new_pos : Z) (new_rect : MetaRectangle)
    (edges1 edges2 : GArray) (xdir keyboard_op : bool) :
  edges1 <> [] -> len_ok edges1 -> edges2 <> [] -> len_ok edges2 ->
  exists r, apply_edge_snapping old_pos new_pos new_rect edges1 edges2 xdir
              keyboard_op = Ret r.
Proof.
  intros Hne1 Hlen1 Hne2 Hlen2. unfold apply_edge_snapping.
  destruct (old_pos =? new_pos); [eexists; reflexivity|].
  destruct (find_nearest_position_total edges1 new_pos old_pos new_rect xdir
              keyboard_op Hne1 Hlen1) as (pos1 & ->).
  destruct (find_nearest_position_total edges2 new_pos old_pos new_rect xdir
              keyboard_op Hne2 Hlen2) as (pos2 & ->).
  cbn [bind].
  repeat match goal with
         | |- context [if ?c then _ else _] => destruct c
         end; eexists; reflexivity.
Qed.

(** C5.  In a mouse snap, when the nearer of the two candidates found by
    [find_nearest_position] is 8 pixels or more away from the old position
    while the proposed movement is less than 8 pixels, [apply_edge_snapping]
    returns the old position. *)
Theorem mouse_snap_jitter_guard (old_pos new_pos : Z)
    (new_rect : MetaRectangle) (edges1 edges2 : GArray) (xdir : bool)
    (pos1 pos2 : Z) :
  find_nearest_position edges1 new_pos old_pos new_rect xdir false
    = Ret pos1 ->
  find_nearest_position edges2 new_pos old_pos new_rect xdir false
    = Ret pos2 ->
  small old_pos -> small new_pos -> small pos1 -> small pos2 ->
  8 <= Z.abs ((if Z.abs (pos1 - new_pos) <? Z.abs (pos2 - new_pos)
               then pos1 else pos2) - old_pos) ->
  Z.abs (new_pos - old_pos) < 8 ->
  apply_edge_snapping old_pos new_pos new_rect edges1 edges2 xdir false
    = Ret old_pos.
Proof.
  unfold small. intros H1 H2 Ho Hn Hp1 Hp2 Hfar Hnear.
  unfold apply_edge_snapping.
  destruct (Z.eqb_spec old_pos new_pos) as [-> | Hneq]; [reflexivity|].
  rewrite H1, H2. cbn [bind]. simpl andb. cbv iota.
  rewrite (int_sub_small pos1 new_pos), (int_sub_small pos2 new_pos),
    (int_sub_small new_pos old_pos)
    by (unfold in_int, INT_MIN, INT_MAX; lia).
  rewrite (ABS_small (pos1 - new_pos)) by (unfold INT_MIN, INT_MAX; lia).
  rewrite (ABS_small (pos2 - new_pos)) by (unfold INT_MIN, INT_MAX; lia).
  rewrite (ABS_small (new_pos - old_pos)) by (unfold INT_MIN, INT_MAX; lia).
  set (best := if _ <? _ then pos1 else pos2) in *.
  assert (Hbest : small best) by (unfold small, best; destruct (_ <? _); lia).
  unfold small in Hbest.
  rewrite int_sub_small by (unfold in_int, INT_MIN, INT_MAX; lia).
  rewrite (ABS_small (best - old_pos)) by (unfold INT_MIN, INT_MAX; lia).
  destruct (Z.geb_spec (Z.abs (best - old_pos)) 8); [|lia].
  destruct (Z.ltb_spec (Z.abs (new_pos - old_pos)) 8); [|lia].
  reflexivity.
Qed.

End Snap.

(** A mouse move of 3 pixels, from 100 to 103, whose nearest aligned edge
    is at 110, 10 pixels from the old position. *)
Lemma mouse_snap_jitter_guard_witness :
  apply_edge_snapping (ext := sample_ext) 100 103 (meta_rect 103 0 50 100)
    [vertical_edge 110 META_DIRECTION_LEFT META_EDGE_WINDOW]
    [vertical_edge 500 META_DIRECTION_RIGHT META_EDGE_WINDOW] true false
  = Ret 100.
Proof.
  apply (mouse_snap_jitter_guard (ext := sample_ext) 100 103
           (meta_rect 103 0 50 100)
           [vertical_edge 110 META_DIRECTION_LEFT META_EDGE_WINDOW]
           [vertical_edge 500 META_DIRECTION_RIGHT META_EDGE_WINDOW] true
           110 500).
  - vm_compute. reflexivity.
  - vm_compute. reflexivity.
  - unfold small. lia.
  - unfold small. lia.
  - unfold small. lia.
  - unfold small. lia.
  - simpl. lia.
  - simpl. lia.
Defined.

(** ** The search helpers on concrete arrays *)

(** C1.  On the array of the source's comment the six documented answers
    come out; on the empty array, which is sorted too, the search does not
    return the length (lower bound) or -1 (upper bound): it reads element 0
    of the array, outside its bounds. *)
Theorem find_index_of_edge_near_position_cases (position : Z)
    (want_interval_min horizontal : bool) :
  find_index_of_edge_near_position comment_array 500 true true = Ret 5 /\
  find_index_of_edge_near_position comment_array 805 false true = Ret 7 /\
  find_index_of_edge_near_position comment_array 316 true true = Ret 2 /\
  find_index_of_edge_near_position comment_array 316 false true = Ret 4 /\
  find_index_of_edge_near_position comment_array 2 false true = Ret (-1) /\
  find_index_of_edge_near_position comment_array 2000 true true = Ret 9 /\
  sorted_edges horizontal [] /\
  find_index_of_edge_near_position [] position want_interval_min horizontal
  = Fault.
Proof. repeat split; reflexivity. Qed.

(** C2.  An empty edge array is not handled: both search helpers read
    element 0 before anything else, so they fail on it, and so does any
    resistance or snap computation for a side that moves; in particular a
    move or a resize whose left or right side meets an empty array fails. *)
Theorem empty_edge_array_faults (ext : Collaborators)
    (self : MetaDirection) (win : MetaWindow) (position old_pos new_pos : Z)
    (new_rect : MetaRectangle) (edges2 : GArray)
    (rd : ResistanceDataForAnEdge) (timeout_fn : GSourceFunc)
    (want_interval_min xdir keyboard_op only_forward : bool) (ml : MainLoop) :
  find_index_of_edge_near_position [] position want_interval_min xdir
  = Fault /\
  find_nearest_position [] position old_pos new_rect xdir only_forward
  = Fault /\
  apply_edge_resistance self win old_pos new_pos new_rect [] rd timeout_fn
    xdir keyboard_op ml
  = (if old_pos =? new_pos then Ret (new_pos, rd, ml) else Fault) /\
  apply_edge_snapping old_pos new_pos new_rect [] edges2 xdir keyboard_op
  = (if old_pos =? new_pos then Ret new_pos else Fault) /\
  meta_window_edge_resistance_for_move (ext := moving_ext)
    (sample_display [] [vertical_edge 500 META_DIRECTION_RIGHT META_EDGE_WINDOW]
       [] [])
    sample_win 105 20 95 20 0 false false [] = Fault /\
  meta_window_edge_resistance_for_move (ext := moving_ext)
    (sample_display [] [vertical_edge 500 META_DIRECTION_RIGHT META_EDGE_WINDOW]
       [] [])
    sample_win 105 20 95 20 0 true false [] = Fault /\
  meta_window_edge_resistance_for_resize (ext := moving_ext)
    (sample_display [vertical_edge 0 META_DIRECTION_LEFT META_EDGE_WINDOW] []
       [] [])
    sample_win 50 100 60 100 0 0 false false [] = Fault.
Proof.
  repeat split; try reflexivity.
  unfold apply_edge_resistance.
  destruct (old_pos =? new_pos); [reflexivity|].
  destruct (remove_old_timeout old_pos new_pos rd ml). reflexivity.
Qed.

(** C9.  The five edges at 0, 14, 20, 30 and 40 are sorted and all of them
    are candidates for the target 19, the edge at 20 is one pixel from the
    target, and yet the search returns 14, five pixels from it: the binary
    search ends on index 0, and the scan upwards stops at the first
    candidate above it. *)
Theorem find_nearest_position_misses_nearest :
  sorted_edges true five_edges /\
  forallb (candidate (ext := sample_ext) 19 25 (meta_rect 19 0 50 100)
             true false) five_edges = true /\
  In 20 (map (edge_coord true) five_edges) /\
  Z.abs (20 - 19) < Z.abs (14 - 19) /\
  binary_search five_edges 19 true = Ret (0, 0) /\
  find_nearest_position (ext := sample_ext) five_edges 19 25
    (meta_rect 19 0 50 100) true false = Ret 14.
Proof.
  repeat split; try reflexivity. simpl. tauto.
Qed.

(** ** Snap mode and the resistance state *)

Section SnapFrame.
Context {ext : Collaborators}.

Lemma set_edge_data_same (display : MetaDisplay)
    (edge_data : MetaEdgeResistanceData) :
  grab_edge_resistance_data display = Some edge_data ->
  set_edge_data display (Some edge_data) = display.
Proof. destruct display; simpl; intros ->; reflexivity. Qed.

(** What a snap-mode call returns, when it returns: the display and the
    main loop it was given. *)
Lemma each_side_snap_state (display : MetaDisplay) (win : MetaWindow)
    (old_outer new_outer : MetaRectangle) (timeout_fn : GSourceFunc)
    (keyboard_op : bool) (ml : MainLoop) (modified : bool)
    (r : MetaRectangle) (display' : MetaDisplay) (ml' : MainLoop) :
  apply_edge_resistance_to_each_side display win old_outer new_outer
    timeout_fn true keyboard_op ml = Ret (modified, r, display', ml') ->
  display' = display /\ ml' = ml.
Proof.
  unfold apply_edge_resistance_to_each_side.
  destruct (grab_edge_resistance_data display) as [ed|] eqn:Hed;
    [|discriminate].
  destruct (apply_edge_snapping _ _ _ _ _ true _); try discriminate.
  cbn [bind].
  destruct (apply_edge_snapping _ _ _ _ _ true _); try discriminate.
  cbn [bind].
  destruct (apply_edge_snapping _ _ _ _ _ false _); try discriminate.
  cbn [bind].
  destruct (apply_edge_snapping _ _ _ _ _ false _); try discriminate.
  cbn [bind]. intros H. inversion H; subst.
  split; [apply set_edge_data_same; assumption | reflexivity].
Qed.

(** C10.  A snap-mode call of [apply_edge_resistance_to_each_side] that
    returns hands back the display (and so the four
    [ResistanceDataForAnEdge]: buildup, timer fields,
    [allow_past_screen_edge]) and the main loop (the scheduled callbacks)
    exactly as they were; on non-empty edge arrays it does return, and what
    it returns is the same whatever the four resistance records and the
    main loop contain. *)
Theorem snap_mode_leaves_resistance_state (display : MetaDisplay)
    (win : MetaWindow) (old_outer new_outer : MetaRectangle)
    (timeout_fn : GSourceFunc) (keyboard_op : bool) (ml : MainLoop) :
  (forall modified r display' ml',
     apply_edge_resistance_to_each_side display win old_outer new_outer
       timeout_fn true keyboard_op ml = Ret (modified, r, display', ml') ->
     display' = display /\ ml' = ml) /\
  (forall edge_data,
     grab_edge_resistance_data display = Some edge_data ->
     left_edges edge_data <> [] -> len_ok (left_edges edge_data) ->
     right_edges edge_data <> [] -> len_ok (right_edges edge_data) ->
     top_edges edge_data <> [] -> len_ok (top_edges edge_data) ->
     bottom_edges edge_data <> [] -> len_ok (bottom_edges edge_data) ->
     exists modified r,
       apply_edge_resistance_to_each_side display win old_outer new_outer
         timeout_fn true keyboard_op ml = Ret (modified, r, display, ml) /\
       forall l_data r_data t_data b_data ml2,
         apply_edge_resistance_to_each_side
           (set_edge_data display
              (Some (set_side_data edge_data l_data r_data t_data b_data)))
           win old_outer new_outer timeout_fn true keyboard_op ml2
         = Ret (modified, r,
                set_edge_data display
                  (Some (set_side_data edge_data l_data r_data t_data
                           b_data)),
                ml2)).
Proof.
  split; [intros modified r display' ml'; apply each_side_snap_state|].
  intros edge_data Hed Hl Hll Hr Hlr Ht Hlt Hb Hlb.
  destruct (apply_edge_snapping_total (BOX_LEFT old_outer)
              (BOX_LEFT new_outer) new_outer (left_edges edge_data)
              (right_edges edge_data) true keyboard_op Hl Hll Hr Hlr)
    as (nl & Hnl).
  destruct (apply_edge_snapping_total (BOX_RIGHT old_outer)
              (BOX_RIGHT new_outer) new_outer (left_edges edge_data)
              (right_edges edge_data) true keyboard_op Hl Hll Hr Hlr)
    as (nr & Hnr).
  destruct (apply_edge_snapping_total (BOX_TOP old_outer)
              (BOX_TOP new_outer) new_outer (top_edges edge_data)
              (bottom_edges edge_data) false keyboard_op Ht Hlt Hb Hlb)
    as (nt & Hnt).
  destruct (apply_edge_snapping_total (BOX_BOTTOM old_outer)
              (BOX_BOTTOM new_outer) new_outer (top_edges edge_data)
              (bottom_edges edge_data) false keyboard_op Ht Hlt Hb Hlb)
    as (nb & Hnb).
  do 2 eexists. split.
  - unfold apply_edge_resistance_to_each_side.
    rewrite Hed, Hnl, Hnr, Hnt, Hnb. cbn [bind].
    rewrite set_edge_data_same by assumption. reflexivity.
  - intros l_data r_data t_data b_data ml2.
    unfold apply_edge_resistance_to_each_side.
    destruct display; simpl in *.
    rewrite Hnl, Hnr, Hnt, Hnb. reflexivity.
Qed.

End SnapFrame.

(** A mouse snap of the sample window, three pixels to the right. *)
Lemma snap_mode_leaves_resistance_state_witness :
  exists modified r,
    apply_edge_resistance_to_each_side (ext := moving_ext)
      four_sided_display sample_win (meta_rect 100 0 50 100)
      (meta_rect 103 0 50 100) 0 true false []
    = Ret (modified, r, four_sided_display, []).
Proof.
  destruct (snap_mode_leaves_resistance_state (ext := moving_ext)
              four_sided_display sample_win (meta_rect 100 0 50 100)
              (meta_rect 103 0 50 100) 0 false []) as [_ H].
  destruct (H (mk_edge_data
                 [vertical_edge 110 META_DIRECTION_LEFT META_EDGE_WINDOW]
                 [vertical_edge 500 META_DIRECTION_RIGHT META_EDGE_WINDOW]
                 [mk_edge (meta_rect 0 300 1000 0) META_DIRECTION_TOP
                    META_EDGE_WINDOW]
                 [mk_edge (meta_rect 0 600 1000 0) META_DIRECTION_BOTTOM
                    META_EDGE_WINDOW]
                 (sample_data true) (sample_data true) (sample_data true)
                 (sample_data true)))
    as (modified & r & Hrun & _).
  - reflexivity.
  - discriminate.
  - unfold len_ok, array_len, INT_MAX. simpl. lia.
  - discriminate.
  - unfold len_ok, array_len, INT_MAX. simpl. lia.
  - discriminate.
  - unfold len_ok, array_len, INT_MAX. simpl. lia.
  - discriminate.
  - unfold len_ok, array_len, INT_MAX. simpl. lia.
  - exists modified, r. exact Hrun.
Defined.

(** ** Reconciliation of a move *)

Lemma smaller_change_reconciled (snap is_keyboard_op : bool) (a b : Z) :
  INT_MIN < a <= INT_MAX -> INT_MIN < b <= INT_MAX ->
  reconciled snap is_keyboard_op a b (smaller_change snap is_keyboard_op a b).
Proof.
  intros Ha Hb. unfold reconciled, smaller_change.
  rewrite !ABS_small by assumption.
  destruct (snap && is_keyboard_op); simpl.
  - destruct (Z.eqb_spec a 0) as [-> | Hna]; simpl.
    + split; [right; reflexivity|]. split; [reflexivity | congruence].
    + destruct (Z.eqb_spec b 0) as [-> | Hnb]; simpl.
      * split; [left; reflexivity|]. split; [congruence | reflexivity].
      * destruct (Z.ltb_spec (Z.abs a) (Z.abs b));
          (split; [auto | lia]).
  - destruct (Z.ltb_spec (Z.abs a) (Z.abs b)); (split; [auto | lia]).
Qed.

Section Move.
Context {ext : Collaborators}.

(** C6 (amended).  A move returns a position only, so the outer rectangle
    at the returned position has the width and height of the old one.  When
    [apply_edge_resistance_to_each_side] changed the proposed rectangle, on
    each axis one change is applied to both edges, measured from the old
    rectangle (from the proposed one in a mouse snap): the left or the right
    change (top or bottom), namely the one with the smaller absolute value,
    except in a keyboard snap where one of the two is zero, in which case
    the other one is applied.  Otherwise the proposed position is returned
    as it is. *)
Theorem move_applies_one_change_per_axis (display : MetaDisplay)
    (win : MetaWindow) (old_x old_y new_x new_y : Z)
    (timeout_fn : GSourceFunc) (snap is_keyboard_op : bool) (ml : MainLoop)
    (modified : bool) (new_outer : MetaRectangle) (display' : MetaDisplay)
    (ml' : MainLoop) :
  apply_edge_resistance_to_each_side
    (set_last_user_action_was_snap display snap) win
    (current_outer win display)
    (moved_outer (current_outer win display) old_x old_y new_x new_y)
    timeout_fn snap is_keyboard_op ml
  = Ret (modified, new_outer, display', ml') ->
  small old_x -> small old_y -> small new_x -> small new_y ->
  small (rect_x (current_outer win display)) ->
  small (rect_y (current_outer win display)) ->
  small (rect_width (current_outer win display)) ->
  small (rect_height (current_outer win display)) ->
  small (rect_x new_outer) -> small (rect_y new_outer) ->
  small (rect_width new_outer) -> small (rect_height new_outer) ->
  exists x y,
    meta_window_edge_resistance_for_move display win old_x old_y new_x new_y
      timeout_fn snap is_keyboard_op ml = Ret (x, y, display', ml') /\
    rect_width (moved_outer (current_outer win display) old_x old_y x y)
    = rect_width (current_outer win display) /\
    rect_height (moved_outer (current_outer win display) old_x old_y x y)
    = rect_height (current_outer win display) /\
    if modified then
      exists cx cy,
        reconciled snap is_keyboard_op
          (BOX_LEFT new_outer
           - BOX_LEFT (move_reference snap is_keyboard_op
                         (current_outer win display)
                         (moved_outer (current_outer win display)
                            old_x old_y new_x new_y)))
          (BOX_RIGHT new_outer
           - BOX_RIGHT (move_reference snap is_keyboard_op
                          (current_outer win display)
                          (moved_outer (current_outer win display)
                             old_x old_y new_x new_y)))
          cx /\
        reconciled snap is_keyboard_op
          (BOX_TOP new_outer
           - BOX_TOP (move_reference snap is_keyboard_op
                        (current_outer win display)
                        (moved_outer (current_outer win display)
                           old_x old_y new_x new_y)))
          (BOX_BOTTOM new_outer
           - BOX_BOTTOM (move_reference snap is_keyboard_op
                           (current_outer win display)
                           (moved_outer (current_outer win display)
                              old_x old_y new_x new_y)))
          cy /\
        BOX_LEFT (moved_outer (current_outer win display) old_x old_y x y)
        = BOX_LEFT (move_reference snap is_keyboard_op
                      (current_outer win display)
                      (moved_outer (current_outer win display)
                         old_x old_y new_x new_y)) + cx /\
        BOX_RIGHT (moved_outer (current_outer win display) old_x old_y x y)
        = BOX_RIGHT (move_reference snap is_keyboard_op
                       (current_outer win display)
                       (moved_outer (current_outer win display)
                          old_x old_y new_x new_y)) + cx /\
        BOX_TOP (moved_outer (current_outer win display) old_x old_y x y)
        = BOX_TOP (move_reference snap is_keyboard_op
                     (current_outer win display)
                     (moved_outer (current_outer win display)
                        old_x old_y new_x new_y)) + cy /\
        BOX_BOTTOM (moved_outer (current_outer win display) old_x old_y x y)
        = BOX_BOTTOM (move_reference snap is_keyboard_op
                        (current_outer win display)
                        (moved_outer (current_outer win display)
                           old_x old_y new_x new_y)) + cy
    else x = new_x /\ y = new_y.
Proof.
  intros Hrun Hox Hoy Hnx Hny Hrx Hry Hrw Hrh Hmx Hmy Hmw Hmh.
  unfold meta_window_edge_resistance_for_move. cbv zeta.
  rewrite Hrun. cbn [bind]. clear Hrun.
  set (old_outer := current_outer win display) in *.
  destruct modified.
  2:{ exists new_x, new_y. repeat split; reflexivity. }
  fold (move_reference snap is_keyboard_op old_outer
          (moved_outer old_outer old_x old_y new_x new_y)).
  set (ref := move_reference snap is_keyboard_op old_outer
                (moved_outer old_outer old_x old_y new_x new_y)).
  unfold small in *.
  assert (Href :
    (rect_x ref = rect_x old_outer \/
     rect_x ref = rect_x old_outer + (new_x - old_x)) /\
    (rect_y ref = rect_y old_outer \/
     rect_y ref = rect_y old_outer + (new_y - old_y)) /\
    rect_width ref = rect_width old_outer /\
    rect_height ref = rect_height old_outer).
  { unfold ref, move_reference, moved_outer.
    destruct (snap && negb is_keyboard_op); simpl; int_small; tauto. }
  destruct Href as (Hfx & Hfy & Hfw & Hfh).
  assert (HL : BOX_LEFT new_outer = rect_x new_outer) by reflexivity.
  assert (HR : BOX_RIGHT new_outer = rect_x new_outer + rect_width new_outer)
    by (unfold BOX_RIGHT; int_small; reflexivity).
  assert (HT : BOX_TOP new_outer = rect_y new_outer) by reflexivity.
  assert (HB : BOX_BOTTOM new_outer
               = rect_y new_outer + rect_height new_outer)
    by (unfold BOX_BOTTOM; int_small; reflexivity).
  assert (HLr : BOX_LEFT ref = rect_x ref) by reflexivity.
  assert (HRr : BOX_RIGHT ref = rect_x ref + rect_width old_outer)
    by (unfold BOX_RIGHT; rewrite Hfw; destruct Hfx as [-> | ->];
        int_small; reflexivity).
  assert (HTr : BOX_TOP ref = rect_y ref) by reflexivity.
  assert (HBr : BOX_BOTTOM ref = rect_y ref + rect_height old_outer)
    by (unfold BOX_BOTTOM; rewrite Hfh; destruct Hfy as [-> | ->];
        int_small; reflexivity).
  assert (HLo : BOX_LEFT old_outer = rect_x old_outer) by reflexivity.
  assert (HTo : BOX_TOP old_outer = rect_y old_outer) by reflexivity.
  rewrite HL, HR, HT, HB, HLr, HRr, HTr, HBr, HLo, HTo.
  set (lc := rect_x new_outer - rect_x ref).
  set (rc := rect_x new_outer + rect_width new_outer
             - (rect_x ref + rect_width old_outer)).
  set (tc := rect_y new_outer - rect_y ref).
  set (bc := rect_y new_outer + rect_height new_outer
             - (rect_y ref + rect_height old_outer)).
  assert (Hlc : -671088640 <= lc <= 671088640) by (unfold lc; lia).
  assert (Hrc : -939524096 <= rc <= 939524096) by (unfold rc; lia).
  assert (Htc : -671088640 <= tc <= 671088640) by (unfold tc; lia).
  assert (Hbc : -939524096 <= bc <= 939524096) by (unfold bc; lia).
  rewrite (int_sub_small (rect_x new_outer) (rect_x ref)),
    (int_sub_small (rect_x new_outer + rect_width new_outer)),
    (int_sub_small (rect_y new_outer) (rect_y ref)),
    (int_sub_small (rect_y new_outer + rect_height new_outer))
    by (unfold in_int, INT_MIN, INT_MAX; lia).
  fold lc rc tc bc.
  pose proof (smaller_change_reconciled snap is_keyboard_op lc rc) as Hcx.
  pose proof (smaller_change_reconciled snap is_keyboard_op tc bc) as Hcy.
  set (cx := smaller_change snap is_keyboard_op lc rc) in *.
  set (cy := smaller_change snap is_keyboard_op tc bc) in *.
  assert (Hx : reconciled snap is_keyboard_op lc rc cx)
    by (apply Hcx; unfold INT_MIN, INT_MAX; lia).
  assert (Hy : reconciled snap is_keyboard_op tc bc cy)
    by (apply Hcy; unfold INT_MIN, INT_MAX; lia).
  assert (Hbx : -939524096 <= cx <= 939524096)
    by (destruct Hx as [[-> | ->] _]; lia).
  assert (Hby : -939524096 <= cy <= 939524096)
    by (destruct Hy as [[-> | ->] _]; lia).
  do 2 eexists. split; [reflexivity|].
  split; [reflexivity|]. split; [reflexivity|].
  exists cx, cy. split; [assumption|]. split; [assumption|].
  unfold moved_outer, BOX_LEFT, BOX_RIGHT, BOX_TOP, BOX_BOTTOM. simpl.
  rewrite (int_add_small old_x cx), (int_add_small old_y cy),
    (int_sub_small (rect_x ref)), (int_sub_small (rect_y ref))
    by (unfold in_int, INT_MIN, INT_MAX; lia).
  rewrite (int_add_small (old_x + cx)), (int_add_small (old_y + cy))
    by (unfold in_int, INT_MIN, INT_MAX; lia).
  rewrite (int_sub_small (old_x + cx + (rect_x ref - rect_x old_outer))),
    (int_sub_small (old_y + cy + (rect_y ref - rect_y old_outer)))
    by (unfold in_int, INT_MIN, INT_MAX; lia).
  rewrite !int_add_small by (unfold in_int, INT_MIN, INT_MAX; lia).
  repeat split; lia.
Qed.

End Move.

(** The keyboard snap to the left of the sample window: the rectangle at
    the returned position is still 50 by 100. *)
Lemma move_applies_one_change_per_axis_witness :
  exists x y,
    meta_window_edge_resistance_for_move (ext := moving_ext) snap_display
      sample_win 105 20 95 20 0 true true []
    = Ret (x, y, set_last_user_action_was_snap snap_display true, []) /\
    rect_width (moved_outer (meta_rect 100 0 50 100) 105 20 x y) = 50 /\
    rect_height (moved_outer (meta_rect 100 0 50 100) 105 20 x y) = 100.
Proof.
  destruct (move_applies_one_change_per_axis (ext := moving_ext) snap_display
              sample_win 105 20 95 20 0 true true [] true
              (meta_rect 100 0 20 100)
              (set_last_user_action_was_snap snap_display true) [])
    as (x & y & Hrun & Hw & Hh & _).
  - vm_compute. reflexivity.
  - unfold small. lia.
  - unfold small. lia.
  - unfold small. lia.
  - unfold small. lia.
  - unfold small. simpl. lia.
  - unfold small. simpl. lia.
  - unfold small. simpl. lia.
  - unfold small. simpl. lia.
  - unfold small. simpl. lia.
  - unfold small. simpl. lia.
  - unfold small. simpl. lia.
  - unfold small. simpl. lia.
  - exists x, y. split; [exact Hrun|]. split; [exact Hw | exact Hh].
Defined.

(** C6, as stated, fails: in this keyboard snap to the left (the window
    spans [100, 150) and is asked to go 10 pixels left) snapping leaves the
    left edge where it was, a change of 0, and takes the right edge to the
    window edge at 120, a change of -30; the move applies -30, the change
    with the larger absolute value, to both edges: x goes from 105 to 75. *)
Lemma keyboard_snap_applies_larger_change :
  exists new_outer display',
    apply_edge_resistance_to_each_side (ext := moving_ext)
      (set_last_user_action_was_snap snap_display true) sample_win
      (meta_rect 100 0 50 100) (meta_rect 90 0 50 100) 0 true true []
    = Ret (true, new_outer, display', []) /\
    BOX_LEFT new_outer - BOX_LEFT (meta_rect 100 0 50 100) = 0 /\
    BOX_RIGHT new_outer - BOX_RIGHT (meta_rect 100 0 50 100) = -30 /\
    meta_window_edge_resistance_for_move (ext := moving_ext) snap_display
      sample_win 105 20 95 20 0 true true []
    = Ret (105 + -30, 20, display', []).
Proof.
  do 2 eexists. repeat split; vm_compute; reflexivity.
Qed.

(** ** Edge extraction *)

Lemma insert_sorted_perm (cmp : MetaEdge -> MetaEdge -> Z) (e : MetaEdge)
    (l : list MetaEdge) : Permutation (insert_sorted cmp e l) (e :: l).
Proof.
  induction l as [|x xs IH]; simpl.
  - apply Permutation_refl.
  - destruct (cmp e x <? 0).
    + apply Permutation_refl.
    + eapply Permutation_trans.
      * apply perm_skip, IH.
      * apply perm_swap.
Qed.

Lemma insertion_sort_perm (cmp : MetaEdge -> MetaEdge -> Z)
    (l : list MetaEdge) : Permutation (insertion_sort cmp l) l.
Proof.
  induction l as [|x xs IH]; simpl.
  - apply perm_nil.
  - eapply Permutation_trans.
    + apply insert_sorted_perm.
    + apply perm_skip, IH.
Qed.

Lemma MetaWindowType_eqb_false (a b : MetaWindowType) :
  MetaWindowType_eqb a b = false -> a <> b.
Proof. intros H ->. destruct b; discriminate. Qed.

Section Extraction.
Context {ext : Collaborators}.

Lemma relevant_contributes (display : MetaDisplay) (w : MetaWindow) :
  WINDOW_EDGES_RELEVANT w display &&
  negb (MetaWindowType_eqb (type w) META_WINDOW_DOCK) = true ->
  contributes display w.
Proof.
  unfold WINDOW_EDGES_RELEVANT, contributes. intros H.
  repeat (apply andb_true_iff in H as [H ?]).
  repeat match goal with
         | H : negb _ = true |- _ => apply negb_true_iff in H
         end.
  repeat split; try (apply MetaWindowType_eqb_false; assumption).
  - assumption.
  - apply Z.eqb_eq. assumption.
  - apply Z.eqb_neq. assumption.
Qed.

(** Every edge the third loop adds comes from its body run on a window that
    passes all the tests. *)
Lemma collect_edges_provenance (display : MetaDisplay)
    (stacked_windows : list MetaWindow) :
  forall stack_position rem_windows rem_win_stacking edges e,
    In e (collect_edges display stacked_windows stack_position rem_windows
            rem_win_stacking edges) ->
    In e edges \/
    exists w rem, In w stacked_windows /\ contributes display w /\
                  In e (edges_from_window display w rem).
Proof.
  induction stacked_windows as [|w ws IH];
    intros stack_position rem_windows rem_win_stacking edges e Hin;
    simpl in Hin.
  - left. assumption.
  - destruct (WINDOW_EDGES_RELEVANT w display &&
              negb (MetaWindowType_eqb (type w) META_WINDOW_DOCK)) eqn:Hrel.
    + destruct (drop_lower stack_position rem_windows rem_win_stacking)
        as [rw rs].
      apply IH in Hin. destruct Hin as [Hin | (w' & rem & Hw' & Hc & He)].
      * apply in_app_or in Hin. destruct Hin as [Hin | Hin].
        -- right. exists w, rw. split; [|split].
           ++ left. reflexivity.
           ++ apply relevant_contributes. assumption.
           ++ assumption.
        -- left. assumption.
      * right. exists w', rem. split; [|split]; try assumption.
        right. assumption.
    + apply IH in Hin. destruct Hin as [Hin | (w' & rem & Hw' & Hc & He)].
      * left. assumption.
      * right. exists w', rem. split; [|split]; try assumption.
        right. assumption.
Qed.

(** A window that fails one of the tests adds nothing: the loop goes on to
    the next window with the edges, and the remaining obscuring windows, it
    had. *)
Lemma collect_edges_skips (display : MetaDisplay) (w : MetaWindow)
    (rest : list MetaWindow) (stack_position : Z)
    (rem_windows : list MetaRectangle) (rem_win_stacking : list Z)
    (edges : list MetaEdge) :
  ~ contributes display w ->
  collect_edges display (w :: rest) stack_position rem_windows
    rem_win_stacking edges
  = collect_edges display rest (int_add stack_position 1) rem_windows
      rem_win_stacking edges.
Proof.
  intros Hno. simpl.
  destruct (WINDOW_EDGES_RELEVANT w display &&
            negb (MetaWindowType_eqb (type w) META_WINDOW_DOCK)) eqn:Hrel;
    [|reflexivity].
  exfalso. apply Hno. apply relevant_contributes. assumption.
Qed.

Hypothesis g_list_sort_perm :
  forall cmp l, Permutation (g_list_sort cmp l) l.
Hypothesis g_array_sort_perm :
  forall cmp l, Permutation (g_array_sort cmp l) l.

(** C7.  When a grab begins, every edge that
    [meta_display_compute_resistance_and_snapping_edges] puts in one of the
    four cached arrays is one of the workspace's xinerama or screen edges,
    or was made by the loop body from a window of the stack that should be
    showing, is on the grab's screen, is not the grabbed window and is not
    a desktop, a menu, a splashscreen or a dock; a window that fails one of
    these tests adds no edge. *)
Theorem window_edges_come_from_relevant_windows
    (garbage : ResistanceDataForAnEdge) (display : MetaDisplay) :
  grab_edge_resistance_data display = None ->
  (forall w rest stack_position rem_windows rem_win_stacking edges,
     ~ contributes display w ->
     collect_edges display (w :: rest) stack_position rem_windows
       rem_win_stacking edges
     = collect_edges display rest (int_add stack_position 1) rem_windows
         rem_win_stacking edges) /\
  exists display' edge_data,
    meta_display_compute_resistance_and_snapping_edges garbage display
    = Ret display' /\
    grab_edge_resistance_data display' = Some edge_data /\
    forall e,
      In e (left_edges edge_data ++ right_edges edge_data ++
            top_edges edge_data ++ bottom_edges edge_data) ->
      In e (xinerama_edges (active_workspace (grab_screen display))) \/
      In e (screen_edges (active_workspace (grab_screen display))) \/
      exists w rem,
        In w (meta_stack_list_windows (grab_screen display)) /\
        contributes display w /\
        In e (edges_from_window display w rem).
Proof.
  intros Hnone. split.
  { intros. apply collect_edges_skips. assumption. }
  unfold meta_display_compute_resistance_and_snapping_edges, cache_edges.
  rewrite Hnone. cbn [bind].
  unfold initialize_grab_edge_resistance_data.
  destruct display as [gs gw gy gp wa wr ls ed]. simpl in *. subst ed.
  do 2 eexists. split; [reflexivity|]. split; [reflexivity|].
  intros e Hin. simpl in Hin.
  assert (Hany : In e (window_edges_of_grab
                         (mk_display gs gw gy gp wa wr ls None) ++
                       xinerama_edges (active_workspace gs) ++
                       screen_edges (active_workspace gs))).
  { repeat (apply in_app_or in Hin; destruct Hin as [Hin | Hin]);
      (eapply Permutation_in in Hin; [|apply g_array_sort_perm]);
      unfold edges_of_side in Hin; apply filter_In in Hin;
      apply Hin. }
  apply in_app_or in Hany. destruct Hany as [Hw | Hother].
  - right. right. unfold window_edges_of_grab in Hw. simpl in Hw.
    destruct (obscuring _ _ 0) as [rw rs].
    eapply Permutation_in in Hw; [|apply g_list_sort_perm].
    apply collect_edges_provenance in Hw.
    destruct Hw as [[] | Hw]. exact Hw.
  - apply in_app_or in Hother. tauto.
Qed.

End Extraction.

(** The sample stack: a desktop window, a normal window, a dock and the
    grabbed window, on a screen with its four edges. *)
Lemma window_edges_come_from_relevant_windows_witness :
  exists display' edge_data,
    meta_display_compute_resistance_and_snapping_edges (ext := stack_ext)
      (sample_data true) starting_display = Ret display' /\
    grab_edge_resistance_data display' = Some edge_data /\
    forall e,
      In e (left_edges edge_data ++ right_edges edge_data ++
            top_edges edge_data ++ bottom_edges edge_data) ->
      In e (xinerama_edges (active_workspace (grab_screen starting_display)))
      \/
      In e (screen_edges (active_workspace (grab_screen starting_display)))
      \/
      exists w rem,
        In w (meta_stack_list_windows (Collaborators := stack_ext)
                (grab_screen starting_display)) /\
        contributes (ext := stack_ext) starting_display w /\
        In e (edges_from_window (ext := stack_ext) starting_display w rem).
Proof.
  apply (window_edges_come_from_relevant_windows (ext := stack_ext)
           insertion_sort_perm insertion_sort_perm (sample_data true)
           starting_display).
  reflexivity.
Defined.

(** ** Timers *)

(** Partial correctness of a loop: whatever the fuel, a result that comes
    out of the loop satisfies the invariant, or the postcondition of the
    [Break] that produced it. *)
Lemma while_loop_partial {S R : Type} (Inv : S -> Prop) (Post : R -> Prop)
    (cond : S -> bool) (body : S -> result (ctl S R)) :
  (forall s, Inv s -> cond s = true ->
     match body s with
     | Ret (Continue s') => Inv s'
     | Ret (Break r) => Post r
     | _ => True
     end) ->
  forall fuel s, Inv s ->
    match while_loop fuel cond body s with
    | Ret (Continue s') => Inv s' /\ cond s' = false
    | Ret (Break r) => Post r
    | _ => True
    end.
Proof.
  intros Hstep fuel. induction fuel as [|fuel IH]; intros s HI; simpl.
  - destruct (cond s) eqn:Hc; [exact I | split; assumption].
  - destruct (cond s) eqn:Hc; [|split; assumption].
    specialize (Hstep s HI Hc).
    destruct (body s) as [[s'|r]| | |]; simpl; try exact I.
    + apply IH. assumption.
    + assumption.
Qed.

Lemma side_eqb_eq (a b : MetaDirection) : side_eqb a b = true <-> a = b.
Proof. destruct a, b; simpl; split; intros H; congruence. Qed.

Lemma fresh_source_id_pos (ml : MainLoop) : 0 < fresh_source_id ml.
Proof.
  unfold fresh_source_id.
  assert (0 <= fold_right (fun s acc => Z.max (source_id s) acc) 0 ml).
  { induction ml as [|s ml IH]; simpl; lia. }
  lia.
Qed.

Lemma filter_filter_length {A : Type} (f g : A -> bool) (l : list A) :
  (length (filter f (filter g l)) <= length (filter f l))%nat.
Proof.
  induction l as [|x l IH]; simpl; [lia|].
  destruct (g x), (f x) eqn:Hf; simpl; rewrite ?Hf; simpl; lia.
Qed.

Lemma filter_comm {A : Type} (f g : A -> bool) (l : list A) :
  filter f (filter g l) = filter g (filter f l).
Proof.
  induction l as [|x l IH]; simpl; [reflexivity|].
  destruct (g x) eqn:Hg, (f x) eqn:Hf; simpl; rewrite ?Hg, ?Hf, IH;
    reflexivity.
Qed.

Lemma keeps_refl (side : MetaDirection) (ml : MainLoop) : keeps side ml ml.
Proof. split; [lia | apply incl_refl]. Qed.

Lemma keeps_trans (side : MetaDirection) (ml1 ml2 ml3 : MainLoop) :
  keeps side ml1 ml2 -> keeps side ml2 ml3 -> keeps side ml1 ml3.
Proof.
  intros [Hl1 Hi1] [Hl2 Hi2]. split; [lia|].
  eapply incl_tran; eassumption.
Qed.

Lemma keeps_remove (side : MetaDirection) (id : Z) (ml : MainLoop) :
  keeps side ml (g_source_remove id ml).
Proof.
  unfold keeps, pending_for, g_source_remove. split.
  - apply filter_filter_length.
  - intros s Hs. apply filter_In in Hs as [Hs Hd].
    apply filter_In in Hs as [Hs _]. apply filter_In. split; assumption.
Qed.

Lemma keeps_add (side self : MetaDirection) (id interval : Z)
    (ml : MainLoop) :
  side <> self ->
  keeps side ml (mk_source id interval (resistance_data_of self) :: ml).
Proof.
  intros Hne.
  assert (Hsame : pending_for side
                    (mk_source id interval (resistance_data_of self) :: ml)
                  = pending_for side ml).
  { unfold pending_for. simpl. unfold data_is at 1. simpl.
    destruct (side_eqb self side) eqn:He; [|reflexivity].
    apply side_eqb_eq in He. congruence. }
  unfold keeps. rewrite Hsame. split; [lia | apply incl_refl].
Qed.

Lemma timer_ok_keeps (rd : ResistanceDataForAnEdge) (side : MetaDirection)
    (ml ml' : MainLoop) :
  timer_ok rd side ml -> keeps side ml ml' -> timer_ok rd side ml'.
Proof.
  intros [Hlen Hall] [Hl Hi]. split; [lia|].
  intros s Hs. apply Hall, Hi, Hs.
Qed.

Lemma timer_ok_fields (rd rd' : ResistanceDataForAnEdge)
    (side : MetaDirection) (ml : MainLoop) :
  timeout_setup rd' = timeout_setup rd -> timeout_id rd' = timeout_id rd ->
  timer_ok rd side ml -> timer_ok rd' side ml.
Proof.
  intros Hs Hi [Hlen Hall]. split; [assumption|].
  intros s Hin. rewrite Hs, Hi. apply Hall, Hin.
Qed.

Lemma timer_ok_none (rd : ResistanceDataForAnEdge) (side : MetaDirection)
    (ml : MainLoop) :
  timer_ok rd side ml ->
  timeout_setup rd = false \/ timeout_id rd = 0 ->
  pending_for side ml = [].
Proof.
  intros [_ Hall] Hno.
  destruct (pending_for side ml) as [|s l] eqn:Hp; [reflexivity|].
  destruct (Hall s (or_introl eq_refl)) as (Hs & Hi & Hnz).
  destruct Hno; congruence.
Qed.

Lemma timer_ok_nil (rd : ResistanceDataForAnEdge) (side : MetaDirection)
    (ml : MainLoop) :
  pending_for side ml = [] -> timer_ok rd side ml.
Proof.
  intros H. unfold timer_ok. rewrite H. simpl. split; [lia | tauto].
Qed.

(** Removing the source a side's record names leaves no source pending for
    that side. *)
Lemma pending_for_remove_own (rd : ResistanceDataForAnEdge)
    (side : MetaDirection) (ml : MainLoop) :
  timer_ok rd side ml ->
  pending_for side (g_source_remove (timeout_id rd) ml) = [].
Proof.
  intros [_ Hall]. unfold pending_for, g_source_remove.
  rewrite filter_comm. fold (pending_for side ml).
  induction (pending_for side ml) as [|s l IH]; [reflexivity|].
  simpl. destruct (Hall s (or_introl eq_refl)) as (_ & Hid & _).
  rewrite <- Hid, Z.eqb_refl. simpl. apply IH.
  intros s' Hs'. apply Hall. right. assumption.
Qed.

(** The opening statement cancels a stale timer and touches nothing else. *)
Lemma remove_old_timeout_ok (old_pos new_pos : Z)
    (rd : ResistanceDataForAnEdge) (self : MetaDirection) (ml : MainLoop) :
  timer_ok rd self ml ->
  timer_ok (fst (remove_old_timeout old_pos new_pos rd ml)) self
    (snd (remove_old_timeout old_pos new_pos rd ml)) /\
  (forall other, keeps other ml
                   (snd (remove_old_timeout old_pos new_pos rd ml))) /\
  (timeout_setup rd = true -> stale rd old_pos new_pos ->
   timeout_setup (fst (remove_old_timeout old_pos new_pos rd ml)) = false /\
   timeout_id (fst (remove_old_timeout old_pos new_pos rd ml)) = 0 /\
   pending_for self (snd (remove_old_timeout old_pos new_pos rd ml)) = []).
Proof.
  intros Hok. unfold remove_old_timeout.
  destruct (timeout_setup rd &&
            ((timeout_edge_pos rd >? old_pos) &&
             (timeout_edge_pos rd >? new_pos)
             || (timeout_edge_pos rd <? old_pos) &&
                (timeout_edge_pos rd <? new_pos))) eqn:Hcond.
  - destruct (Z.eqb_spec (timeout_id rd) 0) as [Hz | Hnz]; simpl.
    + assert (Hnone : pending_for self ml = [])
        by (eapply timer_ok_none; [eassumption | right; assumption]).
      split; [apply timer_ok_nil; assumption|].
      split; [intros; apply keeps_refl|]. auto.
    + assert (Hnone : pending_for self (g_source_remove (timeout_id rd) ml)
                      = []) by (apply pending_for_remove_own; assumption).
      split; [apply timer_ok_nil; assumption|].
      split; [intros; apply keeps_remove|]. auto.
  - simpl. split; [assumption|]. split; [intros; apply keeps_refl|].
    intros Hs [[H1 H2] | [H1 H2]]; exfalso; rewrite Hs in Hcond;
      simpl in Hcond.
    + destruct (Z.gtb_spec (timeout_edge_pos rd) old_pos); [|lia].
      destruct (Z.gtb_spec (timeout_edge_pos rd) new_pos); [|lia].
      discriminate.
    + destruct (Z.ltb_spec (timeout_edge_pos rd) old_pos); [|lia].
      destruct (Z.ltb_spec (timeout_edge_pos rd) new_pos); [|lia].
      rewrite orb_true_r in Hcond. discriminate.
Qed.

Section TimerInvariant.
Context {ext : Collaborators}.

(** A mouse step leaves the record and the main loop as they were, or, when
    no timer was set up, arms one timer and records its id. *)
Lemma mouse_branch_state (self : MetaDirection) (win : MetaWindow)
    (new_pos increment : Z) (timeout_fn : GSourceFunc) (edge : MetaEdge)
    (compare : Z) (s : WalkState) :
  outcome_state (mouse_branch self win new_pos increment timeout_fn edge
                   compare s) = (walk_data s, walk_loop s) \/
  (timeout_setup (walk_data s) = false /\
   exists rd',
     timeout_setup rd' = true /\
     timeout_id rd' = fresh_source_id (walk_loop s) /\
     outcome_state (mouse_branch self win new_pos increment timeout_fn edge
                      compare s)
     = (rd', mk_source (fresh_source_id (walk_loop s))
               (timeout_length win edge) (resistance_data_of self)
             :: walk_loop s)).
Proof.
  unfold mouse_branch, g_timeout_add.
  destruct (_ && negb (allow_past_screen_edge (walk_data s)) && _);
    [left; reflexivity|].
  destruct (timeout_setup (walk_data s)) eqn:Hsetup.
  - left. rewrite andb_false_r. simpl.
    repeat match goal with
           | |- context [if ?c then _ else _] => destruct c
           end; reflexivity.
  - destruct (movement_towards_edge (side_type edge) increment &&
              negb false && negb (timeout_length win edge =? 0)) eqn:Harm.
    + right. split; [reflexivity|]. eexists.
      split; [|split]; cycle 2.
      * repeat match goal with
               | |- context [if ?c then _ else _] => destruct c
               end; simpl; reflexivity.
      * reflexivity.
      * reflexivity.
    + left.
      repeat match goal with
             | |- context [if ?c then _ else _] => destruct c
             end; reflexivity.
Qed.

Lemma keyboard_branch_state (new_pos increment : Z) (edge : MetaEdge)
    (compare : Z) (s : WalkState) :
  timeout_setup (fst (outcome_state
                        (keyboard_branch new_pos increment edge compare s)))
  = timeout_setup (walk_data s) /\
  timeout_id (fst (outcome_state
                     (keyboard_branch new_pos increment edge compare s)))
  = timeout_id (walk_data s) /\
  snd (outcome_state (keyboard_branch new_pos increment edge compare s))
  = walk_loop s.
Proof.
  unfold keyboard_branch.
  repeat match goal with
         | |- context [if ?c then _ else _] => destruct c
         end; simpl; repeat split; reflexivity.
Qed.

Lemma walk_body_bookkeeping (self : MetaDirection) (win : MetaWindow)
    (new_pos increment : Z) (new_rect : MetaRectangle) (edges : GArray)
    (timeout_fn : GSourceFunc) (xdir keyboard_op : bool) (ml0 : MainLoop)
    (s : WalkState) :
  bookkeeping self ml0 (walk_data s, walk_loop s) ->
  match walk_body self win new_pos increment new_rect edges timeout_fn xdir
          keyboard_op s with
  | Ret c => bookkeeping self ml0 (outcome_state c)
  | _ => True
  end.
Proof.
  intros [Hok Hkeep]. unfold walk_body. simpl in Hok, Hkeep.
  destruct (g_array_index edges (walk_i s)) as [edge| | |]; simpl;
    try exact I.
  destruct (edges_align xdir edge new_rect); simpl.
  2:{ split; assumption. }
  destruct keyboard_op.
  - pose proof (keyboard_branch_state new_pos increment edge
                  (edge_coord xdir edge) s) as (Hs & Hi & Hl).
    destruct (outcome_state _) as [rd' ml']. simpl in *. subst ml'.
    split; simpl; [|assumption].
    eapply timer_ok_fields; eassumption.
  - pose proof (mouse_branch_state self win new_pos increment timeout_fn
                  edge (edge_coord xdir edge) s)
      as [-> | (Hsetup & rd' & Hs' & Hid' & ->)].
    + split; assumption.
    + assert (Hnone : pending_for self (walk_loop s) = [])
        by (eapply timer_ok_none; [eassumption | left; assumption]).
      split; simpl.
      * set (new := mk_source (fresh_source_id (walk_loop s))
                      (timeout_length win edge) (resistance_data_of self)).
        assert (Hone : pending_for self (new :: walk_loop s) = [new]).
        { unfold pending_for in *. simpl. rewrite Hnone.
          unfold data_is. simpl.
          assert (side_eqb self self = true) as ->
            by (apply side_eqb_eq; reflexivity).
          reflexivity. }
        unfold timer_ok. rewrite Hone. simpl. split; [lia|].
        intros s0 [<- | []]. simpl.
        pose proof (fresh_source_id_pos (walk_loop s)).
        repeat split; [assumption | assumption | lia].
      * intros other Hne. eapply keeps_trans; [apply Hkeep; assumption|].
        apply keeps_add. assumption.
Qed.

(** A call of [apply_edge_resistance] for a side keeps the bookkeeping of
    that side and adds no pending source to any other side. *)
Lemma apply_edge_resistance_bookkeeping (self : MetaDirection)
    (win : MetaWindow) (old_pos new_pos : Z) (new_rect : MetaRectangle)
    (edges : GArray) (rd : ResistanceDataForAnEdge)
    (timeout_fn : GSourceFunc) (xdir keyboard_op : bool) (ml : MainLoop) :
  timer_ok rd self ml ->
  match apply_edge_resistance self win old_pos new_pos new_rect edges rd
          timeout_fn xdir keyboard_op ml with
  | Ret (_, rd', ml') => bookkeeping self ml (rd', ml')
  | _ => True
  end.
Proof.
  intros Hok. unfold apply_edge_resistance.
  destruct (old_pos =? new_pos).
  { split; simpl; [assumption | intros; apply keeps_refl]. }
  pose proof (remove_old_timeout_ok old_pos new_pos rd self ml Hok)
    as (Hok1 & Hkeep1 & _).
  destruct (remove_old_timeout old_pos new_pos rd ml) as [rd1 ml1].
  simpl in Hok1, Hkeep1. unfold resistance_walk. cbv zeta.
  destruct (find_index_of_edge_near_position edges old_pos _ xdir)
    as [begin| | |]; cbn [bind]; try exact I.
  destruct (find_index_of_edge_near_position edges new_pos _ xdir)
    as [end_| | |]; cbn [bind]; try exact I.
  pose proof (while_loop_partial
    (fun s => bookkeeping self ml (walk_data s, walk_loop s))
    (fun r : Returned => bookkeeping self ml (snd (fst r), snd r))
    (walk_cond (new_pos >? old_pos) end_)
    (walk_body self win new_pos (if new_pos >? old_pos then 1 else -1)
       new_rect edges timeout_fn xdir keyboard_op)) as Hrule.
  assert (Hstep : forall s,
    bookkeeping self ml (walk_data s, walk_loop s) ->
    walk_cond (new_pos >? old_pos) end_ s = true ->
    match walk_body self win new_pos (if new_pos >? old_pos then 1 else -1)
            new_rect edges timeout_fn xdir keyboard_op s with
    | Ret (Continue s') => bookkeeping self ml (walk_data s', walk_loop s')
    | Ret (Break r) => bookkeeping self ml (snd (fst r), snd r)
    | _ => True
    end).
  { intros s Hs _.
    pose proof (walk_body_bookkeeping self win new_pos
                  (if new_pos >? old_pos then 1 else -1) new_rect edges
                  timeout_fn xdir keyboard_op ml s Hs) as Hb.
    destruct (walk_body _ _ _ _ _ _ _ _ _ _) as [[s'|[[r rd'] ml']]| | |];
      try exact I; exact Hb. }
  specialize (Hrule Hstep (Datatypes.S (length edges))
                (mk_walk begin false G_MAXINT rd1 ml1)).
  assert (Hinit : bookkeeping self ml (rd1, ml1)).
  { split; simpl; [assumption | intros; apply Hkeep1]. }
  specialize (Hrule Hinit).
  destruct (while_loop _ _ _ _) as [[s'|[[r rd'] ml']]| | |]; cbn [bind];
    try exact I.
  - destruct Hrule as [[Hok' Hkeep'] _]. simpl in Hok', Hkeep'.
    destruct (_ && _); split; simpl; assumption.
  - exact Hrule.
Qed.

Lemma side_data_set_same (edge_data : MetaEdgeResistanceData)
    (side : MetaDirection) (rd : ResistanceDataForAnEdge) :
  side_data (set_data edge_data side rd) side = rd.
Proof. destruct side; reflexivity. Qed.

Lemma side_data_set_other (edge_data : MetaEdgeResistanceData)
    (side other : MetaDirection) (rd : ResistanceDataForAnEdge) :
  other <> side ->
  side_data (set_data edge_data side rd) other = side_data edge_data other.
Proof. destruct side, other; intros H; try reflexivity; congruence. Qed.

Lemma grab_step_timers_ok (st : GrabState) (ev : GrabEvent) :
  timers_ok st ->
  match grab_step st ev with
  | Ret st' => timers_ok st'
  | _ => True
  end.
Proof.
  destruct st as [edge_data ml]. intros Hok. unfold timers_ok in Hok.
  simpl in Hok.
  destruct ev as [side win old_pos new_pos new_rect timeout_fn keyboard_op
                 | id]; simpl.
  - pose proof (apply_edge_resistance_bookkeeping side win old_pos new_pos
                  new_rect (side_edges edge_data side)
                  (side_data edge_data side) timeout_fn (side_xdir side)
                  keyboard_op ml (Hok side)) as Hcall.
    destruct (apply_edge_resistance _ _ _ _ _ _ _ _ _ _ _)
      as [[[r rd'] ml']| | |]; simpl; try exact I.
    destruct Hcall as [Hself Hothers]. simpl in Hself, Hothers.
    intros other. simpl.
    destruct (side_eqb other side) eqn:He.
    + apply side_eqb_eq in He. subst other.
      rewrite side_data_set_same. assumption.
    + assert (Hne : other <> side).
      { intros ->. assert (side_eqb side side = true)
          by (apply side_eqb_eq; reflexivity). congruence. }
      rewrite side_data_set_other by assumption.
      eapply timer_ok_keeps; [apply Hok | apply Hothers; assumption].
  - destruct (find (fun s => source_id s =? id) ml) as [s|] eqn:Hfind;
      [|exact Hok].
    destruct (source_data s) as [side|addr] eqn:Hdata; [|exact Hok].
    apply find_some in Hfind as [Hin Hid]. apply Z.eqb_eq in Hid.
    intros other. simpl.
    destruct (side_eqb other side) eqn:He.
    + apply side_eqb_eq in He. subst other.
      rewrite side_data_set_same. apply timer_ok_nil.
      assert (Hp : In s (pending_for side ml)).
      { apply filter_In. split; [assumption|]. unfold data_is.
        rewrite Hdata. apply side_eqb_eq. reflexivity. }
      destruct (Hok side) as [Hlen Hall].
      destruct (Hall s Hp) as (_ & Hsame & _).
      rewrite <- Hid, <- Hsame.
      apply pending_for_remove_own. apply Hok.
    + assert (Hne : other <> side).
      { intros ->. assert (side_eqb side side = true)
          by (apply side_eqb_eq; reflexivity). congruence. }
      rewrite side_data_set_other by assumption.
      eapply timer_ok_keeps; [apply Hok | apply keeps_remove].
Qed.

Lemma grab_run_timers_ok (events : list GrabEvent) :
  forall st st', timers_ok st -> grab_run st events = Ret st' ->
                 timers_ok st'.
Proof.
  induction events as [|ev rest IH]; intros st st' Hok Hrun; simpl in Hrun.
  - inversion Hrun. subst. assumption.
  - pose proof (grab_step_timers_ok st ev Hok) as Hstep.
    destruct (grab_step st ev) as [st1| | |]; simpl in Hrun;
      try discriminate.
    eapply IH; eassumption.
Qed.

End TimerInvariant.

(** ** Calls on non-empty arrays return *)

Lemma find_index_in_range (edges : GArray) (position : Z)
    (want_interval_min horizontal : bool) :
  edges <> [] -> len_ok edges ->
  exists r, find_index_of_edge_near_position edges position
              want_interval_min horizontal = Ret r /\
            if want_interval_min then 0 <= r <= array_len edges
            else -1 <= r < array_len edges.
Proof.
  intros Hne Hlen. unfold find_index_of_edge_near_position.
  destruct (binary_search_in edges position horizontal Hne Hlen)
    as (mid & -> & Hmid).
  cbn [bind]. cbv iota beta.
  destruct want_interval_min.
  - destruct (linear_scan_down edges horizontal (fun c => c >=? position)
                mid Hlen Hmid) as (m1 & -> & Hm1 & _).
    cbn [bind]. cbv iota beta.
    destruct (linear_scan_up edges horizontal (fun c => c <? position) m1
                Hlen) as (m2 & -> & Hm2 & _); [lia|].
    cbn [bind]. cbv iota beta.
    destruct (_ <? position); eexists; (split; [reflexivity|]).
    + rewrite g_array_len_ok by assumption. lia.
    + lia.
  - destruct (linear_scan_up edges horizontal (fun c => c <=? position)
                mid Hlen Hmid) as (m1 & -> & Hm1 & _).
    cbn [bind]. cbv iota beta.
    destruct (linear_scan_down edges horizontal (fun c => c >? position) m1
                Hlen) as (m2 & -> & Hm2 & _); [lia|].
    cbn [bind]. cbv iota beta.
    destruct (_ >? position); eexists; (split; [reflexivity | lia]).
Qed.

Section Totality.
Context {ext : Collaborators}.

Lemma keyboard_branch_next (new_pos increment : Z) (edge : MetaEdge)
    (compare : Z) (s : WalkState) :
  match keyboard_branch new_pos increment edge compare s with
  | Continue s' => walk_i s' = int_add (walk_i s) increment
  | Break _ => True
  end.
Proof.
  unfold keyboard_branch.
  repeat match goal with
         | |- context [if ?c then _ else _] => destruct c
         end; simpl; auto.
Qed.

(** On a non-empty array a call of [apply_edge_resistance] reads inside the
    array only and returns. *)
Lemma apply_edge_resistance_total (self : MetaDirection) (win : MetaWindow)
    (old_pos new_pos : Z) (new_rect : MetaRectangle) (edges : GArray)
    (rd : ResistanceDataForAnEdge) (timeout_fn : GSourceFunc)
    (xdir keyboard_op : bool) (ml : MainLoop) :
  edges <> [] -> len_ok edges ->
  exists r, apply_edge_resistance self win old_pos new_pos new_rect edges rd
              timeout_fn xdir keyboard_op ml = Ret r.
Proof.
  intros Hne Hlen. unfold apply_edge_resistance.
  destruct (old_pos =? new_pos); [eexists; reflexivity|].
  destruct (remove_old_timeout old_pos new_pos rd ml) as [rd1 ml1].
  unfold resistance_walk. cbv zeta.
  set (increasing := new_pos >? old_pos).
  destruct (find_index_in_range edges old_pos increasing xdir Hne Hlen)
    as (begin & -> & Hbegin).
  destruct (find_index_in_range edges new_pos (negb increasing) xdir Hne Hlen)
    as (end_ & -> & Hend).
  cbn [bind].
  destruct (while_loop_total
    (fun s : WalkState =>
       if increasing then 0 <= walk_i s else walk_i s < array_len edges)
    (fun s : WalkState =>
       Z.to_nat (if increasing then end_ - walk_i s + 1
                 else walk_i s - end_ + 1))
    (walk_cond increasing end_)
    (walk_body self win new_pos (if increasing then 1 else -1) new_rect
       edges timeout_fn xdir keyboard_op))
    with (fuel := Datatypes.S (length edges))
         (s := mk_walk begin false G_MAXINT rd1 ml1) as (c & ->).
  - intros s HI Hcond. unfold walk_cond in Hcond.
    assert (Hin : 0 <= walk_i s < array_len edges /\
                  if increasing then walk_i s <= end_
                  else end_ <= walk_i s).
    { destruct increasing; simpl in *.
      - rewrite orb_false_r in Hcond. apply Z.leb_le in Hcond. lia.
      - destruct (Z.geb_spec (walk_i s) end_); [lia | discriminate]. }
    destruct Hin as [Hin Hdir]. unfold walk_body.
    destruct (g_array_index_in xdir edges (walk_i s) Hin) as (e & -> & _ & _).
    cbn [bind].
    assert (Hnext : forall s', walk_i s' = int_add (walk_i s)
                                           (if increasing then 1 else -1) ->
      (if increasing then 0 <= walk_i s' else walk_i s' < array_len edges) /\
      (Z.to_nat (if increasing then end_ - walk_i s' + 1
                 else walk_i s' - end_ + 1)
       < Z.to_nat (if increasing then end_ - walk_i s + 1
                   else walk_i s - end_ + 1))%nat).
    { intros s' ->. unfold len_ok in Hlen.
      destruct increasing; int_small; lia. }
    destruct (edges_align xdir e new_rect); simpl.
    + destruct keyboard_op.
      * pose proof (keyboard_branch_next new_pos
                      (if increasing then 1 else -1) e (edge_coord xdir e) s)
          as Hk.
        destruct (keyboard_branch _ _ _ _ _); [apply Hnext, Hk | exact I].
      * pose proof (mouse_branch_cases self win new_pos
                      (if increasing then 1 else -1) timeout_fn e
                      (edge_coord xdir e) s) as Hm.
        destruct (mouse_branch _ _ _ _ _ _ _ _) as [s'|[[r rd'] ml']];
          [apply Hnext, Hm | exact I].
    + exact (Hnext (mk_walk (int_add (walk_i s)
                               (if increasing then 1 else -1))
                      (okay_to_clear_keyboard_buildup s)
                      (keyboard_buildup_edge s) (walk_data s) (walk_loop s))
               eq_refl).
  - simpl. destruct increasing; simpl in *; lia.
  - simpl. unfold array_len in *. destruct increasing; simpl in *; lia.
  - cbn [bind]. destruct c as [s|r]; [|eexists; reflexivity].
    destruct (_ && _); eexists; reflexivity.
Qed.

End Totality.

Section Timers.
Context {ext : Collaborators}.

(** C8.  Along every sequence of [apply_edge_resistance] calls and timer
    dispatches of a grab that starts with no source pending for its four
    sides, at most one timer is pending per side at any time; in every
    call that goes on to look at edges ([old_pos <> new_pos]), a timer that
    is set up and stale (its edge position strictly on one side of both
    [old_pos] and [new_pos]) is cancelled first: the walk that takes all the
    resistance decisions runs on a record whose [timeout_setup] is cleared
    and [timeout_id] zero, and on a main loop with no source pending for
    that side and nothing added for the others; and a call on a non-empty
    edge array always returns, so that the sequence goes on. *)
Theorem one_timer_per_side_and_stale_cancelled
    (edge_data0 : MetaEdgeResistanceData) (ml0 : MainLoop)
    (events : list GrabEvent) (edge_data : MetaEdgeResistanceData)
    (ml : MainLoop) :
  (forall side, pending_for side ml0 = []) ->
  grab_run (edge_data0, ml0) events = Ret (edge_data, ml) ->
  (forall side, (length (pending_for side ml) <= 1)%nat) /\
  (forall side win old_pos new_pos new_rect timeout_fn keyboard_op,
     old_pos <> new_pos ->
     timeout_setup (side_data edge_data side) = true ->
     stale (side_data edge_data side) old_pos new_pos ->
     exists rd1 ml1,
       timeout_setup rd1 = false /\
       timeout_id rd1 = 0 /\
       pending_for side ml1 = [] /\
       (forall other, keeps other ml ml1) /\
       apply_edge_resistance side win old_pos new_pos new_rect
         (side_edges edge_data side) (side_data edge_data side) timeout_fn
         (side_xdir side) keyboard_op ml
       = resistance_walk side win old_pos new_pos new_rect
           (side_edges edge_data side) rd1 timeout_fn (side_xdir side)
           keyboard_op ml1) /\
  (forall side win old_pos new_pos new_rect timeout_fn keyboard_op,
     side_edges edge_data side <> [] ->
     len_ok (side_edges edge_data side) ->
     exists st',
       grab_step (edge_data, ml)
         (Resist side win old_pos new_pos new_rect timeout_fn keyboard_op)
       = Ret st').
Proof.
  intros Hinit Hrun.
  assert (Hok : timers_ok (edge_data, ml)).
  { eapply grab_run_timers_ok; [|eassumption].
    intros side. apply timer_ok_nil. apply Hinit. }
  split; [|split].
  - intros side. apply (Hok side).
  - intros side win old_pos new_pos new_rect timeout_fn keyboard_op Hneq
      Hsetup Hstale.
    pose proof (remove_old_timeout_ok old_pos new_pos
                  (side_data edge_data side) side ml (Hok side))
      as (_ & Hkeep & Hcancel).
    destruct (Hcancel Hsetup Hstale) as (Hs1 & Hi1 & Hp1).
    unfold apply_edge_resistance.
    destruct (Z.eqb_spec old_pos new_pos); [contradiction|].
    destruct (remove_old_timeout old_pos new_pos (side_data edge_data side)
                ml) as [rd1 ml1].
    simpl in *. exists rd1, ml1.
    split; [assumption|]. split; [assumption|]. split; [assumption|].
    split; [assumption | reflexivity].
  - intros side win old_pos new_pos new_rect timeout_fn keyboard_op Hne Hlen.
    simpl.
    destruct (apply_edge_resistance_total side win old_pos new_pos new_rect
                (side_edges edge_data side) (side_data edge_data side)
                timeout_fn (side_xdir side) keyboard_op ml Hne Hlen)
      as ([[r rd'] ml'] & ->).
    eexists. reflexivity.
Qed.

End Timers.

(** After the mouse went for the screen edge a timer is pending for the
    left side; a later call from 50 to 60 finds it stale and runs its walk
    with the timer cancelled. *)
Lemma one_timer_per_side_and_stale_cancelled_witness :
  (forall side, (length (pending_for side (snd armed_grab)) <= 1)%nat) /\
  exists rd1 ml1,
    timeout_setup rd1 = false /\
    pending_for META_DIRECTION_LEFT ml1 = [] /\
    apply_edge_resistance (ext := sample_ext) META_DIRECTION_LEFT onscreen_win
      50 60 (meta_rect 60 0 50 100)
      (side_edges (fst armed_grab) META_DIRECTION_LEFT)
      (side_data (fst armed_grab) META_DIRECTION_LEFT) 7 true false
      (snd armed_grab)
    = resistance_walk (ext := sample_ext) META_DIRECTION_LEFT onscreen_win
        50 60 (meta_rect 60 0 50 100)
        (side_edges (fst armed_grab) META_DIRECTION_LEFT) rd1 7 true false
        ml1.
Proof.
  destruct (one_timer_per_side_and_stale_cancelled (ext := sample_ext)
              screen_grab [] toward_screen_edge (fst armed_grab)
              (snd armed_grab)) as (Hone & Hstale & _).
  - intros side. reflexivity.
  - vm_compute. reflexivity.
  - split; [exact Hone|].
    destruct (Hstale META_DIRECTION_LEFT onscreen_win 50 60
                (meta_rect 60 0 50 100) 7 false)
      as (rd1 & ml1 & Hs & _ & Hp & _ & Heq).
    + lia.
    + reflexivity.
    + right. simpl. lia.
    + exists rd1, ml1. split; [exact Hs|]. split; [exact Hp | exact Heq].
Defined.

(** ** The range searches on sorted arrays *)

(** X1.  On a non-empty sorted array the lower-bound search
    ([want_interval_min] true) returns the index that separates the edges
    whose coordinate is below [position] from the others: an index of the
    array is below the result exactly when its coordinate is below
    [position]. *)
Theorem find_index_lower_bound (edges : GArray) (position : Z)
    (horizontal : bool) :
  edges <> [] -> len_ok edges -> sorted_edges horizontal edges ->
  exists r,
    find_index_of_edge_near_position edges position true horizontal = Ret r /\
    0 <= r <= array_len edges /\
    forall j, 0 <= j < array_len edges ->
      (j < r <-> pos_at horizontal edges j < position).
Proof.
  intros Hne Hlen Hs.
  destruct (find_index_min_spec edges position horizontal Hne Hlen Hs)
    as (r & Hr & Hrange & Hlow & Hhigh).
  exists r. split; [assumption|]. split; [assumption|].
  intros j Hj. split; intros H.
  - apply Hlow. lia.
  - destruct (Z_lt_le_dec j r) as [Hlt | Hge]; [assumption|].
    specialize (Hhigh j). lia.
Qed.

(** The array of the source's comment and the position 500. *)
Lemma find_index_lower_bound_witness :
  exists r,
    find_index_of_edge_near_position comment_array 500 true true = Ret r /\
    0 <= r <= array_len comment_array /\
    forall j, 0 <= j < array_len comment_array ->
      (j < r <-> pos_at true comment_array j < 500).
Proof.
  apply (find_index_lower_bound comment_array 500 true).
  - discriminate.
  - unfold len_ok, array_len, INT_MAX. simpl. lia.
  - reflexivity.
Defined.

(** X2.  On a non-empty sorted array the upper-bound search
    ([want_interval_min] false) returns the index that separates the edges
    whose coordinate is at most [position] from the others: an index of the
    array is at or below the result exactly when its coordinate is at most
    [position]; the result is -1 when no coordinate is. *)
Theorem find_index_upper_bound (edges : GArray) (position : Z)
    (horizontal : bool) :
  edges <> [] -> len_ok edges -> sorted_edges horizontal edges ->
  exists r,
    find_index_of_edge_near_position edges position false horizontal = Ret r /\
    -1 <= r < array_len edges /\
    forall j, 0 <= j < array_len edges ->
      (j <= r <-> pos_at horizontal edges j <= position).
Proof.
  intros Hne Hlen Hs.
  destruct (find_index_max_spec edges position horizontal Hne Hlen Hs)
    as (r & Hr & Hrange & Hlow & Hhigh).
  exists r. split; [assumption|]. split; [assumption|].
  intros j Hj. split; intros H.
  - apply Hlow. lia.
  - destruct (Z_le_gt_dec j r) as [Hle | Hgt]; [assumption|].
    specialize (Hhigh j). lia.
Qed.

(** The array of the source's comment and the position 805. *)
Lemma find_index_upper_bound_witness :
  exists r,
    find_index_of_edge_near_position comment_array 805 false true = Ret r /\
    -1 <= r < array_len comment_array /\
    forall j, 0 <= j < array_len comment_array ->
      (j <= r <-> pos_at true comment_array j <= 805).
Proof.
  apply (find_index_upper_bound comment_array 805 true).
  - discriminate.
  - unfold len_ok, array_len, INT_MAX. simpl. lia.
  - reflexivity.
Defined.

(** X3.  The two searches that open the walk of [apply_edge_resistance]
    delimit exactly the edges the movement goes past or to: on a non-empty
    sorted array, an index lies between [begin] and [end] (in the order of
    travel) exactly when its coordinate lies between the old and the new
    position, both included. *)
Theorem walk_range_is_edges_between (edges : GArray) (old_pos new_pos : Z)
    (xdir : bool) :
  edges <> [] -> len_ok edges -> sorted_edges xdir edges ->
  exists begin end_,
    find_index_of_edge_near_position edges old_pos (new_pos >? old_pos) xdir
      = Ret begin /\
    find_index_of_edge_near_position edges new_pos
      (negb (new_pos >? old_pos)) xdir = Ret end_ /\
    forall j, 0 <= j < array_len edges ->
      ((if new_pos >? old_pos then begin <= j <= end_
        else end_ <= j <= begin) <->
       Z.min old_pos new_pos <= pos_at xdir edges j <= Z.max old_pos new_pos).
Proof.
  intros Hne Hlen Hs.
  destruct (Z.gtb_spec new_pos old_pos) as [Hgt | Hle]; simpl.
  - destruct (find_index_min_spec edges old_pos xdir Hne Hlen Hs)
      as (b & Hb & Hbr & Hblow & Hbhigh).
    destruct (find_index_max_spec edges new_pos xdir Hne Hlen Hs)
      as (en & Hen & Her & Helow & Hehigh).
    exists b, en. split; [assumption|]. split; [assumption|].
    intros j Hj. split; intros H.
    + specialize (Hbhigh j). specialize (Helow j). lia.
    + split.
      * destruct (Z_le_gt_dec b j); [assumption|]. specialize (Hblow j). lia.
      * destruct (Z_le_gt_dec j en); [assumption|]. specialize (Hehigh j). lia.
  - destruct (find_index_max_spec edges old_pos xdir Hne Hlen Hs)
      as (b & Hb & Hbr & Hblow & Hbhigh).
    destruct (find_index_min_spec edges new_pos xdir Hne Hlen Hs)
      as (en & Hen & Her & Helow & Hehigh).
    exists b, en. split; [assumption|]. split; [assumption|].
    intros j Hj. split; intros H.
    + specialize (Hblow j). specialize (Hehigh j). lia.
    + split.
      * destruct (Z_le_gt_dec en j); [assumption|]. specialize (Helow j). lia.
      * destruct (Z_le_gt_dec j b); [assumption|]. specialize (Hbhigh j). lia.
Qed.

(** A side that goes from 800 down to 300 along the array of the source's
    comment. *)
Lemma walk_range_is_edges_between_witness :
  exists begin end_,
    find_index_of_edge_near_position comment_array 800 (300 >? 800) true
      = Ret begin /\
    find_index_of_edge_near_position comment_array 300
      (negb (300 >? 800)) true = Ret end_ /\
    forall j, 0 <= j < array_len comment_array ->
      ((if 300 >? 800 then begin <= j <= end_ else end_ <= j <= begin) <->
       Z.min 800 300 <= pos_at true comment_array j <= Z.max 800 300).
Proof.
  apply (walk_range_is_edges_between comment_array 800 300 true).
  - discriminate.
  - unfold len_ok, array_len, INT_MAX. simpl. lia.
  - reflexivity.
Defined.

(** X4.  On a non-empty array, sorted or not, either search reads inside the
    array only and returns an index of the documented range: between 0 and
    the length for the lower bound, between -1 and the last index for the
    upper bound. *)
Theorem find_index_stays_in_bounds (edges : GArray) (position : Z)
    (want_interval_min horizontal : bool) :
  edges <> [] -> len_ok edges ->
  exists r,
    find_index_of_edge_near_position edges position want_interval_min
      horizontal = Ret r /\
    (if want_interval_min then 0 <= r <= array_len edges
     else -1 <= r < array_len edges).
Proof.
  intros Hne Hlen.
  exact (find_index_in_range edges position want_interval_min horizontal
           Hne Hlen).
Qed.

(** An array that is not sorted. *)
Lemma find_index_stays_in_bounds_witness :
  exists r,
    find_index_of_edge_near_position (rev comment_array) 500 true true
      = Ret r /\
    0 <= r <= array_len (rev comment_array).
Proof.
  apply (find_index_stays_in_bounds (rev comment_array) 500 true true).
  - discriminate.
  - unfold len_ok, array_len, INT_MAX. simpl. lia.
Defined.

(** ** What the snap engine can answer *)

(** Whether two points lie on the same side of a reference, when the
    distances are small enough for the product. *)
Lemma points_on_same_side_small (ref pt1 pt2 : Z) :
  Z.abs (pt1 - ref) <= 46340 -> Z.abs (pt2 - ref) <= 46340 ->
  points_on_same_side ref pt1 pt2 = (0 <? (pt1 - ref) * (pt2 - ref)).
Proof.
  intros H1 H2. unfold points_on_same_side, int_mul.
  rewrite !int_sub_small by (unfold in_int, INT_MIN, INT_MAX; lia).
  rewrite wrap_small; [apply Z.gtb_ltb|].
  unfold in_int, INT_MIN, INT_MAX.
  assert (Z.abs ((pt1 - ref) * (pt2 - ref)) <= 46340 * 46340).
  { rewrite Z.abs_mul. apply Z.mul_le_mono_nonneg; lia. }
  lia.
Qed.

(** X5.  Two points within 46340 pixels of a reference are reported on the
    same side of it exactly when both are strictly below it or both strictly
    above it; a point at the reference is on no side. *)
Theorem points_on_same_side_spec (ref pt1 pt2 : Z) :
  Z.abs (pt1 - ref) <= 46340 -> Z.abs (pt2 - ref) <= 46340 ->
  (points_on_same_side ref pt1 pt2 = true <->
   (pt1 < ref /\ pt2 < ref) \/ (ref < pt1 /\ ref < pt2)).
Proof.
  intros H1 H2. rewrite points_on_same_side_small by assumption.
  rewrite Z.ltb_lt. split.
  - intros H. destruct (Z.lt_trichotomy pt1 ref) as [Ha | [Ha | Ha]];
      destruct (Z.lt_trichotomy pt2 ref) as [Hb | [Hb | Hb]]; try nia.
  - intros [[Ha Hb] | [Ha Hb]]; nia.
Qed.

Lemma points_on_same_side_spec_witness :
  points_on_same_side 100 90 40 = true <->
  (90 < 100 /\ 40 < 100) \/ (100 < 90 /\ 100 < 40).
Proof.
  apply (points_on_same_side_spec 100 90 40); simpl; lia.
Defined.

Section SnapTargets.
Context {ext : Collaborators}.

Lemma take_if_closer_target (edges : GArray) (position old_position : Z)
    (new_rect : MetaRectangle) (horizontal only_forward : bool)
    (edge : MetaEdge) (bb : Z * Z) :
  In edge edges ->
  candidate position old_position new_rect horizontal only_forward edge
  = true ->
  snap_target edges position old_position new_rect horizontal only_forward
    (fst bb) ->
  snap_target edges position old_position new_rect horizontal only_forward
    (fst (take_if_closer position (edge_coord horizontal edge) bb)).
Proof.
  intros Hin Hc Hbb. unfold take_if_closer.
  destruct (_ <? snd bb); [|assumption].
  right. exists edge. repeat split; assumption.
Qed.

(** On a non-empty array the nearest-aligned search returns, and what it
    returns is the old position or the coordinate of a candidate edge. *)
Lemma find_nearest_position_target (edges : GArray)
    (position old_position : Z) (new_rect : MetaRectangle)
    (horizontal only_forward : bool) :
  edges <> [] -> len_ok edges ->
  exists r, find_nearest_position edges position old_position new_rect
              horizontal only_forward = Ret r /\
            snap_target edges position old_position new_rect horizontal
              only_forward r.
Proof.
  intros Hne Hlen. unfold find_nearest_position.
  destruct (binary_search_in edges position horizontal Hne Hlen)
    as (mid & -> & Hmid).
  cbn [bind].
  destruct (g_array_index_in horizontal edges mid Hmid) as (e & -> & He & _).
  cbn [bind]. rewrite g_array_len_ok by assumption.
  set (bb := if candidate _ _ _ _ _ e then _ else _).
  assert (Hbb : snap_target edges position old_position new_rect horizontal
                  only_forward (fst bb)).
  { unfold bb.
    destruct (candidate position old_position new_rect horizontal
                only_forward e) eqn:Hc.
    - apply take_if_closer_target;
        [eapply nth_error_In; eassumption | assumption | left; reflexivity].
    - left. reflexivity. }
  clearbody bb.
  unfold len_ok in Hlen. int_small.
  assert (Hbody : forall (b : Z * Z) (next : Z -> Z) (i : Z),
    snap_target edges position old_position new_rect horizontal only_forward
      (fst b) ->
    0 <= i < array_len edges ->
    match nearest_body edges position old_position new_rect horizontal
            only_forward b next i with
    | Ret (Continue i') => i' = next i
    | Ret (Break b') =>
        snap_target edges position old_position new_rect horizontal
          only_forward (fst b')
    | _ => False
    end).
  { intros b next i Hb Hi. unfold nearest_body.
    destruct (g_array_index_in horizontal edges i Hi) as (ei & -> & Hei & _).
    cbn [bind].
    destruct (candidate position old_position new_rect horizontal
                only_forward ei) eqn:Hc; [|reflexivity].
    apply take_if_closer_target;
      [eapply nth_error_In; eassumption | assumption | assumption]. }
  pose proof (while_loop_rule
    (fun i : Z => mid + 1 <= i <= array_len edges)
    (fun b : Z * Z =>
       snap_target edges position old_position new_rect horizontal
         only_forward (fst b))
    (fun i : Z => Z.to_nat (array_len edges - i))
    (fun i => i <? array_len edges)
    (nearest_body edges position old_position new_rect horizontal
       only_forward bb (fun i => int_add i 1))) as Hup.
  assert (Hstep1 : forall i, mid + 1 <= i <= array_len edges ->
    (i <? array_len edges) = true ->
    match nearest_body edges position old_position new_rect horizontal
            only_forward bb (fun i => int_add i 1) i with
    | Ret (Continue i') =>
        mid + 1 <= i' <= array_len edges /\
        (Z.to_nat (array_len edges - i') < Z.to_nat (array_len edges - i))%nat
    | Ret (Break b') =>
        snap_target edges position old_position new_rect horizontal
          only_forward (fst b')
    | _ => False
    end).
  { intros i Hi Hcond. apply Z.ltb_lt in Hcond.
    assert (Hin : 0 <= i < array_len edges) by lia.
    pose proof (Hbody bb (fun i => int_add i 1) i Hbb Hin) as Hb.
    destruct (nearest_body _ _ _ _ _ _ _ _ _) as [[i'|b']| | |];
      try contradiction; [|assumption].
    subst i'. int_small. split; lia. }
  specialize (Hup Hstep1 (length edges) (mid + 1)).
  assert (HI1 : mid + 1 <= mid + 1 <= array_len edges) by lia.
  assert (HM1 : (Z.to_nat (array_len edges - (mid + 1)) < length edges)%nat)
    by (unfold array_len in *; lia).
  specialize (Hup HI1 HM1). clear Hstep1 HI1 HM1.
  destruct (while_loop _ _ _ (mid + 1)) as [c1| | |]; try contradiction.
  cbn [bind].
  set (bb' := match c1 with Continue _ => bb | Break b => b end).
  assert (Hbb' : snap_target edges position old_position new_rect horizontal
                   only_forward (fst bb')).
  { unfold bb'. destruct c1; [assumption | exact Hup]. }
  clearbody bb'. clear Hup.
  pose proof (while_loop_rule
    (fun i : Z => -1 <= i <= mid - 1)
    (fun b : Z * Z =>
       snap_target edges position old_position new_rect horizontal
         only_forward (fst b))
    (fun i : Z => Z.to_nat (i + 1))
    (fun i => i >=? 0)
    (nearest_body edges position old_position new_rect horizontal
       only_forward bb' (fun i => int_sub i 1))) as Hdown.
  assert (Hstep2 : forall i, -1 <= i <= mid - 1 -> (i >=? 0) = true ->
    match nearest_body edges position old_position new_rect horizontal
            only_forward bb' (fun i => int_sub i 1) i with
    | Ret (Continue i') =>
        -1 <= i' <= mid - 1 /\ (Z.to_nat (i' + 1) < Z.to_nat (i + 1))%nat
    | Ret (Break b') =>
        snap_target edges position old_position new_rect horizontal
          only_forward (fst b')
    | _ => False
    end).
  { intros i Hi Hcond. destruct (Z.geb_spec i 0); [|discriminate].
    assert (Hin : 0 <= i < array_len edges) by lia.
    pose proof (Hbody bb' (fun i => int_sub i 1) i Hbb' Hin) as Hb.
    destruct (nearest_body _ _ _ _ _ _ _ _ _) as [[i'|b']| | |];
      try contradiction; [|assumption].
    subst i'. int_small. split; lia. }
  specialize (Hdown Hstep2 (length edges) (mid - 1)).
  assert (HI2 : -1 <= mid - 1 <= mid - 1) by lia.
  assert (HM2 : (Z.to_nat (mid - 1 + 1) < length edges)%nat)
    by (unfold array_len in *; lia).
  specialize (Hdown HI2 HM2). clear Hstep2 HI2 HM2.
  destruct (while_loop _ _ _ (mid - 1)) as [c2| | |]; try contradiction.
  cbn [bind]. eexists. split; [reflexivity|].
  destruct c2; [assumption | exact Hdown].
Qed.

End SnapTargets.

Section SnapAnswers.
Context {ext : Collaborators}.

(** X6.  On a non-empty array [find_nearest_position] returns, and it
    never invents a position: its answer is the old position, or the
    coordinate of an edge of the array that is aligned with the moving
    rectangle and, when only forward edges are wanted, is not on the same
    side of the proposed position as the old position. *)
Theorem nearest_search_answers_candidate (edges : GArray)
    (position old_position : Z) (new_rect : MetaRectangle)
    (horizontal only_forward : bool) :
  edges <> [] -> len_ok edges ->
  exists r,
    find_nearest_position edges position old_position new_rect horizontal
      only_forward = Ret r /\
    (r = old_position \/
     exists edge, In edge edges /\
       edges_align horizontal edge new_rect = true /\
       (only_forward = true ->
        points_on_same_side position (edge_coord horizontal edge)
          old_position = false) /\
       edge_coord horizontal edge = r).
Proof.
  intros Hne Hlen.
  destruct (find_nearest_position_target edges position old_position new_rect
              horizontal only_forward Hne Hlen) as (r & Hr & Ht).
  exists r. split; [assumption|].
  destruct Ht as [-> | (edge & Hin & Hc & Hcoord)]; [left; reflexivity|].
  right. exists edge. unfold candidate in Hc.
  apply andb_true_iff in Hc as [Ha Hf].
  split; [assumption|]. split; [assumption|]. split; [|assumption].
  intros ->. simpl in Hf. apply negb_true_iff in Hf. assumption.
Qed.

(** With a movement proposed, the answer of [apply_edge_snapping] is one of
    the two answers of the nearest-aligned search, or the old position. *)
Lemma snapping_candidates (old_pos new_pos : Z) (new_rect : MetaRectangle)
    (edges1 edges2 : GArray) (xdir keyboard_op : bool) :
  edges1 <> [] -> len_ok edges1 -> edges2 <> [] -> len_ok edges2 ->
  old_pos <> new_pos ->
  exists pos1 pos2 r,
    snap_target edges1 new_pos old_pos new_rect xdir keyboard_op pos1 /\
    snap_target edges2 new_pos old_pos new_rect xdir keyboard_op pos2 /\
    apply_edge_snapping old_pos new_pos new_rect edges1 edges2 xdir
      keyboard_op = Ret r /\
    (r = pos1 \/ r = pos2 \/ r = old_pos).
Proof.
  intros Hne1 Hlen1 Hne2 Hlen2 Hneq. unfold apply_edge_snapping.
  destruct (Z.eqb_spec old_pos new_pos); [contradiction|].
  destruct (find_nearest_position_target edges1 new_pos old_pos new_rect xdir
              keyboard_op Hne1 Hlen1) as (pos1 & -> & Ht1).
  destruct (find_nearest_position_target edges2 new_pos old_pos new_rect xdir
              keyboard_op Hne2 Hlen2) as (pos2 & -> & Ht2).
  cbn [bind]. exists pos1, pos2.
  repeat match goal with
         | |- context [if ?c then _ else _] => destruct c
         end; eexists; (split; [exact Ht1|]); (split; [exact Ht2|]);
    (split; [reflexivity|]); auto.
Qed.

(** X7.  With non-empty arrays [apply_edge_snapping] returns, and the
    position it returns is the old position or the coordinate of an edge, of
    one of the two arrays, that is aligned with the moving rectangle; so a
    side that has no aligned edge in either array stays where it was,
    whatever movement is proposed. *)
Theorem snapping_answers_aligned_edge (old_pos new_pos : Z)
    (new_rect : MetaRectangle) (edges1 edges2 : GArray)
    (xdir keyboard_op : bool) :
  edges1 <> [] -> len_ok edges1 -> edges2 <> [] -> len_ok edges2 ->
  exists r,
    apply_edge_snapping old_pos new_pos new_rect edges1 edges2 xdir
      keyboard_op = Ret r /\
    (r = old_pos \/ aligned_at xdir (edges1 ++ edges2) new_rect r) /\
    ((forall edge, In edge (edges1 ++ edges2) ->
        edges_align xdir edge new_rect = false) -> r = old_pos).
Proof.
  intros Hne1 Hlen1 Hne2 Hlen2.
  assert (Hmain : exists r,
    apply_edge_snapping old_pos new_pos new_rect edges1 edges2 xdir
      keyboard_op = Ret r /\
    (r = old_pos \/ aligned_at xdir (edges1 ++ edges2) new_rect r)).
  { destruct (Z.eq_dec old_pos new_pos) as [Heq | Hneq].
    - exists new_pos. unfold apply_edge_snapping.
      rewrite Heq, Z.eqb_refl. split; [reflexivity | left; reflexivity].
    - destruct (snapping_candidates old_pos new_pos new_rect edges1 edges2
                  xdir keyboard_op Hne1 Hlen1 Hne2 Hlen2 Hneq)
        as (pos1 & pos2 & r & Ht1 & Ht2 & Hr & Hcases).
      exists r. split; [assumption|].
      assert (Hlift : forall edges p,
        incl edges (edges1 ++ edges2) ->
        snap_target edges new_pos old_pos new_rect xdir keyboard_op p ->
        p = old_pos \/ aligned_at xdir (edges1 ++ edges2) new_rect p).
      { intros edges p Hincl [-> | (edge & Hin & Hc & Hcoord)];
          [left; reflexivity|].
        right. exists edge. unfold candidate in Hc.
        apply andb_true_iff in Hc as [Ha _].
        split; [apply Hincl; assumption|]. split; assumption. }
      destruct Hcases as [-> | [-> | ->]].
      + apply (Hlift edges1); [apply incl_appl, incl_refl | assumption].
      + apply (Hlift edges2); [apply incl_appr, incl_refl | assumption].
      + left. reflexivity. }
  destruct Hmain as (r & Hr & Hcases). exists r.
  split; [assumption|]. split; [assumption|].
  intros Hnone. destruct Hcases as [-> | (edge & Hin & Ha & _)];
    [reflexivity|].
  rewrite (Hnone edge Hin) in Ha. discriminate.
Qed.

(** X8.  A keyboard snap never takes a side backwards nor to an edge short
    of the proposed position: for coordinates within 23170 pixels of the
    origin, what [apply_edge_snapping] returns in a keyboard operation is
    the old position, or a position at or beyond the proposed one in the
    direction of travel. *)
Theorem keyboard_snap_goes_forward (old_pos new_pos : Z)
    (new_rect : MetaRectangle) (edges1 edges2 : GArray) (xdir : bool) :
  edges1 <> [] -> len_ok edges1 -> edges2 <> [] -> len_ok edges2 ->
  near old_pos -> near new_pos ->
  (forall edge, In edge (edges1 ++ edges2) -> near (edge_coord xdir edge)) ->
  exists r,
    apply_edge_snapping old_pos new_pos new_rect edges1 edges2 xdir true
    = Ret r /\
    (r = old_pos \/
     (old_pos < new_pos /\ new_pos <= r) \/
     (new_pos < old_pos /\ r <= new_pos)).
Proof.
  intros Hne1 Hlen1 Hne2 Hlen2 Ho Hn Hnear.
  destruct (Z.eq_dec old_pos new_pos) as [Heq | Hneq].
  { exists new_pos. unfold apply_edge_snapping.
    rewrite Heq, Z.eqb_refl. split; [reflexivity | left; reflexivity]. }
  destruct (snapping_candidates old_pos new_pos new_rect edges1 edges2 xdir
              true Hne1 Hlen1 Hne2 Hlen2 Hneq)
    as (pos1 & pos2 & r & Ht1 & Ht2 & Hr & Hcases).
  exists r. split; [assumption|].
  assert (Hfwd : forall edges p,
    incl edges (edges1 ++ edges2) ->
    snap_target edges new_pos old_pos new_rect xdir true p ->
    p = old_pos \/
    (old_pos < new_pos /\ new_pos <= p) \/
    (new_pos < old_pos /\ p <= new_pos)).
  { intros edges p Hincl [-> | (edge & Hin & Hc & Hcoord)];
      [left; reflexivity|].
    right. unfold candidate in Hc. apply andb_true_iff in Hc as [_ Hside].
    simpl in Hside. apply negb_true_iff in Hside.
    pose proof (Hnear edge (Hincl edge Hin)) as He. rewrite Hcoord in *.
    unfold near in *.
    rewrite points_on_same_side_small in Hside by lia.
    apply Z.ltb_ge in Hside. nia. }
  destruct Hcases as [-> | [-> | ->]].
  - apply (Hfwd edges1); [apply incl_appl, incl_refl | assumption].
  - apply (Hfwd edges2); [apply incl_appr, incl_refl | assumption].
  - left. reflexivity.
Qed.

End SnapAnswers.

(** Five aligned edges, a side that goes from 25 to 19. *)
Lemma nearest_search_answers_candidate_witness :
  exists r,
    find_nearest_position (ext := sample_ext) five_edges 19 25
      (meta_rect 19 0 50 100) true false = Ret r /\
    (r = 25 \/
     exists edge, In edge five_edges /\
       edges_align (ext := sample_ext) true edge (meta_rect 19 0 50 100)
       = true /\
       (false = true ->
        points_on_same_side 19 (edge_coord true edge) 25 = false) /\
       edge_coord true edge = r).
Proof.
  apply (nearest_search_answers_candidate (ext := sample_ext) five_edges 19 25
           (meta_rect 19 0 50 100) true false).
  - discriminate.
  - unfold len_ok, array_len, INT_MAX. simpl. lia.
Defined.

(** A mouse snap of the side from 100 to 130, with an edge at 110 in the
    first array and one at 500 in the second. *)
Lemma snapping_answers_aligned_edge_witness :
  exists r,
    apply_edge_snapping (ext := sample_ext) 100 130 (meta_rect 130 0 50 100)
      [vertical_edge 110 META_DIRECTION_LEFT META_EDGE_WINDOW]
      [vertical_edge 500 META_DIRECTION_RIGHT META_EDGE_WINDOW] true false
    = Ret r /\
    (r = 100 \/
     aligned_at (ext := sample_ext) true
       ([vertical_edge 110 META_DIRECTION_LEFT META_EDGE_WINDOW] ++
        [vertical_edge 500 META_DIRECTION_RIGHT META_EDGE_WINDOW])
       (meta_rect 130 0 50 100) r) /\
    ((forall edge,
        In edge ([vertical_edge 110 META_DIRECTION_LEFT META_EDGE_WINDOW] ++
                 [vertical_edge 500 META_DIRECTION_RIGHT META_EDGE_WINDOW]) ->
        edges_align (ext := sample_ext) true edge (meta_rect 130 0 50 100)
        = false) -> r = 100).
Proof.
  apply (snapping_answers_aligned_edge (ext := sample_ext) 100 130
           (meta_rect 130 0 50 100)
           [vertical_edge 110 META_DIRECTION_LEFT META_EDGE_WINDOW]
           [vertical_edge 500 META_DIRECTION_RIGHT META_EDGE_WINDOW]
           true false).
  - discriminate.
  - unfold len_ok, array_len, INT_MAX. simpl. lia.
  - discriminate.
  - unfold len_ok, array_len, INT_MAX. simpl. lia.
Defined.

(** A keyboard snap to the right, from 100 towards 101, with edges at 110
    and at 500. *)
Lemma keyboard_snap_goes_forward_witness :
  exists r,
    apply_edge_snapping (ext := sample_ext) 100 101 (meta_rect 101 0 50 100)
      [vertical_edge 110 META_DIRECTION_LEFT META_EDGE_WINDOW]
      [vertical_edge 500 META_DIRECTION_RIGHT META_EDGE_WINDOW] true true
    = Ret r /\
    (r = 100 \/ (100 < 101 /\ 101 <= r) \/ (101 < 100 /\ r <= 101)).
Proof.
  apply (keyboard_snap_goes_forward (ext := sample_ext) 100 101
           (meta_rect 101 0 50 100)
           [vertical_edge 110 META_DIRECTION_LEFT META_EDGE_WINDOW]
           [vertical_edge 500 META_DIRECTION_RIGHT META_EDGE_WINDOW] true).
  - discriminate.
  - unfold len_ok, array_len, INT_MAX. simpl. lia.
  - discriminate.
  - unfold len_ok, array_len, INT_MAX. simpl. lia.
  - unfold near. lia.
  - unfold near. lia.
  - intros edge [<- | [<- | []]]; unfold near; simpl; lia.
Defined.

(** ** A rule for the walk of [apply_edge_resistance] *)

Section WalkRule.
Context {ext : Collaborators}.
Variables (self : MetaDirection) (win : MetaWindow) (old_pos new_pos : Z).
Variables (new_rect : MetaRectangle) (edges : GArray).
Variables (timeout_fn : GSourceFunc) (xdir keyboard_op : bool).
Variable Inv : Z -> Z -> WalkState -> Prop.
Variable Post : Returned -> Prop.

Hypothesis nonempty : edges <> [].
Hypothesis length_ok : len_ok edges.

Hypothesis step_ok : forall begin end_ s e,
  find_index_of_edge_near_position edges old_pos (new_pos >? old_pos) xdir
    = Ret begin ->
  find_index_of_edge_near_position edges new_pos
    (negb (new_pos >? old_pos)) xdir = Ret end_ ->
  Inv begin end_ s ->
  (if new_pos >? old_pos then begin <= walk_i s <= end_
   else end_ <= walk_i s <= begin) ->
  0 <= walk_i s < array_len edges ->
  nth_error edges (Z.to_nat (walk_i s)) = Some e ->
  g_array_index edges (walk_i s) = Ret e ->
  match walk_body self win new_pos (if new_pos >? old_pos then 1 else -1)
          new_rect edges timeout_fn xdir keyboard_op s with
  | Ret (Continue s') =>
      walk_i s' = walk_i s + (if new_pos >? old_pos then 1 else -1) ->
      Inv begin end_ s'
  | Ret (Break r) => Post r
  | _ => True
  end.

Hypothesis exit_ok : forall begin end_ s,
  find_index_of_edge_near_position edges old_pos (new_pos >? old_pos) xdir
    = Ret begin ->
  find_index_of_edge_near_position edges new_pos
    (negb (new_pos >? old_pos)) xdir = Ret end_ ->
  Inv begin end_ s ->
  (if new_pos >? old_pos then end_ < walk_i s else walk_i s < end_) ->
  Post (if okay_to_clear_keyboard_buildup s &&
           negb (new_pos =? keyboard_buildup_edge s)
        then (new_pos, set_keyboard_buildup (walk_data s) 0, walk_loop s)
        else (new_pos, walk_data s, walk_loop s)).

(** On a non-empty array the walk returns; what it returns satisfies [Post]
    when each iteration inside the range of indices keeps [Inv] or leaves
    with [Post], and the closing statement turns [Inv] into [Post]. *)
Lemma resistance_walk_rule (rd : ResistanceDataForAnEdge) (ml : MainLoop) :
  (forall begin end_,
     find_index_of_edge_near_position edges old_pos (new_pos >? old_pos) xdir
       = Ret begin ->
     find_index_of_edge_near_position edges new_pos
       (negb (new_pos >? old_pos)) xdir = Ret end_ ->
     Inv begin end_ (mk_walk begin false G_MAXINT rd ml)) ->
  exists r,
    resistance_walk self win old_pos new_pos new_rect edges rd timeout_fn
      xdir keyboard_op ml = Ret r /\ Post r.
Proof.
  intros Hinit. unfold resistance_walk. cbv zeta.
  set (increasing := new_pos >? old_pos) in *.
  set (increment := if increasing then 1 else -1) in *.
  destruct (find_index_in_range edges old_pos increasing xdir nonempty
              length_ok) as (begin & Hb & Hbegin).
  destruct (find_index_in_range edges new_pos (negb increasing) xdir nonempty
              length_ok) as (end_ & He & Hend).
  specialize (Hinit begin end_ Hb He).
  specialize (step_ok begin end_).
  specialize (exit_ok begin end_ ).
  rewrite Hb, He. cbn [bind].
  pose (Inv' := fun s : WalkState =>
    Inv begin end_ s /\
    if increasing then begin <= walk_i s else walk_i s <= begin).
  pose (measure := fun s : WalkState =>
    Z.to_nat (if increasing then end_ - walk_i s + 1
              else walk_i s - end_ + 1)).
  assert (Hstep : forall s, Inv' s -> walk_cond increasing end_ s = true ->
    match walk_body self win new_pos increment new_rect edges timeout_fn xdir
            keyboard_op s with
    | Ret (Continue s') => Inv' s' /\ (measure s' < measure s)%nat
    | Ret (Break r) => Post r
    | _ => False
    end).
  { intros s [HI Hdir] Hcond. unfold walk_cond in Hcond.
    assert (Hrange : if increasing then begin <= walk_i s <= end_
                     else end_ <= walk_i s <= begin).
    { destruct increasing; simpl in *.
      - rewrite orb_false_r in Hcond. apply Z.leb_le in Hcond. lia.
      - destruct (Z.geb_spec (walk_i s) end_); [lia | discriminate]. }
    assert (Hin : 0 <= walk_i s < array_len edges).
    { destruct increasing; simpl in *; lia. }
    destruct (g_array_index_in xdir edges (walk_i s) Hin)
      as (e & Hread & Hnth & _).
    specialize (step_ok s e Hb He HI Hrange Hin Hnth Hread).
    assert (Hnext : forall s',
      walk_i s' = int_add (walk_i s) increment ->
      walk_i s' = walk_i s + increment /\
      (if increasing then begin <= walk_i s' else walk_i s' <= begin) /\
      (measure s' < measure s)%nat).
    { intros s' Hs'. unfold measure. rewrite Hs'.
      unfold increment, len_ok in *. destruct increasing; int_small; lia. }
    assert (Hshape : match walk_body self win new_pos increment new_rect
                             edges timeout_fn xdir keyboard_op s with
                     | Ret (Continue s') =>
                         walk_i s' = int_add (walk_i s) increment
                     | Ret (Break _) => True
                     | _ => False
                     end).
    { unfold walk_body. rewrite Hread. cbn [bind].
      destruct (edges_align xdir e new_rect); simpl; [|reflexivity].
      destruct keyboard_op.
      - pose proof (keyboard_branch_next new_pos increment e
                      (edge_coord xdir e) s) as Hk.
        destruct (keyboard_branch _ _ _ _ _); [exact Hk | exact I].
      - pose proof (mouse_branch_cases self win new_pos increment timeout_fn
                      e (edge_coord xdir e) s) as Hm.
        destruct (mouse_branch _ _ _ _ _ _ _ _) as [s'|[[r rd'] ml']];
          [apply Hm | exact I]. }
    destruct (walk_body _ _ _ _ _ _ _ _ _ _) as [[s'|r]| | |];
      try contradiction; [|assumption].
    destruct (Hnext s' Hshape) as (Hi' & Hdir' & Hm').
    split; [split; [apply step_ok; assumption | assumption] | assumption]. }
  pose proof (while_loop_rule Inv' Post measure _ _ Hstep
                (Datatypes.S (length edges))
                (mk_walk begin false G_MAXINT rd ml)) as Hrule.
  assert (HI0 : Inv' (mk_walk begin false G_MAXINT rd ml)).
  { split; [assumption|]. simpl. destruct increasing; lia. }
  assert (HM0 : (measure (mk_walk begin false G_MAXINT rd ml)
                 < Datatypes.S (length edges))%nat).
  { unfold measure, array_len in *. simpl.
    destruct increasing; simpl in *; lia. }
  specialize (Hrule HI0 HM0).
  destruct (while_loop _ _ _ _) as [[s'|r]| | |]; try contradiction;
    cbn [bind].
  - destruct Hrule as [[HI' _] Hcond]. unfold walk_cond in Hcond.
    assert (Hout : if increasing then end_ < walk_i s' else walk_i s' < end_).
    { destruct increasing; simpl in *.
      - rewrite orb_false_r in Hcond. apply Z.leb_gt in Hcond. assumption.
      - destruct (Z.geb_spec (walk_i s') end_); [discriminate | assumption]. }
    specialize (exit_ok s' Hb He HI' Hout).
    destruct (_ && _); eexists; (split; [reflexivity | assumption]).
  - exists r. split; [reflexivity | assumption].
Qed.

End WalkRule.

(** ** What resistance can answer *)

Lemma pos_at_nth_error (xdir : bool) (edges : GArray) (i : Z) (e : MetaEdge) :
  nth_error edges (Z.to_nat i) = Some e ->
  pos_at xdir edges i = edge_coord xdir e.
Proof.
  intros H. unfold pos_at. erewrite nth_error_nth; [reflexivity|].
  rewrite nth_error_map, H. reflexivity.
Qed.

(** On a sorted array the indices of the walk are those of the edges
    between the old and the new position. *)
Lemma walk_index_between (edges : GArray) (old_pos new_pos : Z) (xdir : bool)
    (begin end_ j : Z) :
  edges <> [] -> len_ok edges -> sorted_edges xdir edges ->
  find_index_of_edge_near_position edges old_pos (new_pos >? old_pos) xdir
    = Ret begin ->
  find_index_of_edge_near_position edges new_pos
    (negb (new_pos >? old_pos)) xdir = Ret end_ ->
  0 <= j < array_len edges ->
  ((if new_pos >? old_pos then begin <= j <= end_ else end_ <= j <= begin) <->
   Z.min old_pos new_pos <= pos_at xdir edges j <= Z.max old_pos new_pos).
Proof.
  intros Hne Hlen Hs Hb He Hj.
  destruct (Z.gtb_spec new_pos old_pos) as [Hgt | Hle]; simpl in *.
  - destruct (find_index_min_spec edges old_pos xdir Hne Hlen Hs)
      as (b & Hb' & Hbr & Hblow & Hbhigh).
    destruct (find_index_max_spec edges new_pos xdir Hne Hlen Hs)
      as (en & He' & Her & Helow & Hehigh).
    assert (b = begin) by congruence. assert (en = end_) by congruence.
    subst b en. split; intros H.
    + specialize (Hbhigh j). specialize (Helow j). lia.
    + split.
      * destruct (Z_le_gt_dec begin j); [assumption|].
        specialize (Hblow j). lia.
      * destruct (Z_le_gt_dec j end_); [assumption|].
        specialize (Hehigh j). lia.
  - destruct (find_index_max_spec edges old_pos xdir Hne Hlen Hs)
      as (b & Hb' & Hbr & Hblow & Hbhigh).
    destruct (find_index_min_spec edges new_pos xdir Hne Hlen Hs)
      as (en & He' & Her & Helow & Hehigh).
    assert (b = begin) by congruence. assert (en = end_) by congruence.
    subst b en. split; intros H.
    + specialize (Hblow j). specialize (Hehigh j). lia.
    + split.
      * destruct (Z_le_gt_dec end_ j); [assumption|].
        specialize (Helow j). lia.
      * destruct (Z_le_gt_dec j begin); [assumption|].
        specialize (Hbhigh j). lia.
Qed.

Section ResistanceAnswers.
Context {ext : Collaborators}.

Lemma apply_edge_resistance_moving (self : MetaDirection) (win : MetaWindow)
    (old_pos new_pos : Z) (new_rect : MetaRectangle) (edges : GArray)
    (rd : ResistanceDataForAnEdge) (timeout_fn : GSourceFunc)
    (xdir keyboard_op : bool) (ml : MainLoop) :
  old_pos <> new_pos ->
  apply_edge_resistance self win old_pos new_pos new_rect edges rd timeout_fn
    xdir keyboard_op ml
  = resistance_walk self win old_pos new_pos new_rect edges
      (fst (remove_old_timeout old_pos new_pos rd ml)) timeout_fn xdir
      keyboard_op (snd (remove_old_timeout old_pos new_pos rd ml)).
Proof.
  intros Hneq. unfold apply_edge_resistance.
  destruct (Z.eqb_spec old_pos new_pos); [contradiction|].
  destruct (remove_old_timeout old_pos new_pos rd ml). reflexivity.
Qed.

Lemma keyboard_branch_cases (new_pos increment : Z) (edge : MetaEdge)
    (compare : Z) (s : WalkState) :
  match keyboard_branch new_pos increment edge compare s with
  | Break (r, _, ml') => r = compare /\ ml' = walk_loop s
  | Continue s' => walk_loop s' = walk_loop s
  end.
Proof.
  unfold keyboard_branch.
  repeat match goal with
         | |- context [if ?c then _ else _] => destruct c
         end; simpl; auto.
Qed.

(** On a non-empty sorted array the call returns the proposed position or
    the coordinate of an aligned edge, and in both cases a position between
    the old and the proposed one. *)
Lemma apply_edge_resistance_between (self : MetaDirection)
    (win : MetaWindow) (old_pos new_pos : Z) (new_rect : MetaRectangle)
    (edges : GArray) (rd : ResistanceDataForAnEdge)
    (timeout_fn : GSourceFunc) (xdir keyboard_op : bool) (ml : MainLoop) :
  edges <> [] -> len_ok edges -> sorted_edges xdir edges ->
  exists r rd' ml',
    apply_edge_resistance self win old_pos new_pos new_rect edges rd
      timeout_fn xdir keyboard_op ml = Ret (r, rd', ml') /\
    (r = new_pos \/ aligned_at xdir edges new_rect r) /\
    Z.min old_pos new_pos <= r <= Z.max old_pos new_pos.
Proof.
  intros Hne Hlen Hs.
  destruct (Z.eq_dec old_pos new_pos) as [Heq | Hneq].
  { exists new_pos, rd, ml. unfold apply_edge_resistance.
    rewrite Heq, Z.eqb_refl. split; [reflexivity|]. split; [left; auto | lia]. }
  rewrite apply_edge_resistance_moving by assumption.
  destruct (remove_old_timeout old_pos new_pos rd ml) as [rd1 ml1]. simpl.
  destruct (resistance_walk_rule self win old_pos new_pos new_rect edges
              timeout_fn xdir keyboard_op
              (fun _ _ _ => True)
              (fun r : Returned =>
                 (fst (fst r) = new_pos \/
                  aligned_at xdir edges new_rect (fst (fst r))) /\
                 Z.min old_pos new_pos <= fst (fst r)
                 <= Z.max old_pos new_pos)
              Hne Hlen) with (rd := rd1) (ml := ml1)
    as ([[r rd'] ml'] & Hr & Hpost).
  - intros begin end_ s e Hb He _ Hrange Hin Hnth Hread.
    assert (Hbetween : Z.min old_pos new_pos <= edge_coord xdir e
                       <= Z.max old_pos new_pos).
    { rewrite <- (pos_at_nth_error xdir edges (walk_i s) e Hnth).
      apply (walk_index_between edges old_pos new_pos xdir begin end_);
        assumption. }
    unfold walk_body. rewrite Hread. cbn [bind].
    destruct (edges_align xdir e new_rect) eqn:Ha; simpl; [|auto].
    assert (Hal : aligned_at xdir edges new_rect (edge_coord xdir e)).
    { exists e. split; [eapply nth_error_In; eassumption|].
      split; [assumption | reflexivity]. }
    destruct keyboard_op.
    + pose proof (keyboard_branch_cases new_pos
                    (if new_pos >? old_pos then 1 else -1) e
                    (edge_coord xdir e) s) as Hk.
      destruct (keyboard_branch _ _ _ _ _) as [s'|[[r rd'] ml']]; [auto|].
      destruct Hk as [-> _]. simpl. split; [right; assumption | assumption].
    + pose proof (mouse_branch_cases self win new_pos
                    (if new_pos >? old_pos then 1 else -1) timeout_fn e
                    (edge_coord xdir e) s) as Hm.
      destruct (mouse_branch _ _ _ _ _ _ _ _) as [s'|[[r rd'] ml']]; [auto|].
      destruct Hm as [-> _]. simpl. split; [right; assumption | assumption].
  - intros begin end_ s _ _ _ _.
    destruct (_ && _); simpl; (split; [left; auto | lia]).
  - intros; exact I.
  - exists r, rd', ml'. split; [assumption|]. exact Hpost.
Qed.

(** X9.  On a non-empty sorted array [apply_edge_resistance] returns, and
    the position it returns is the proposed position or the coordinate of an
    edge of the array aligned with the moving rectangle; in both cases it
    lies between the old and the proposed position: resistance holds a side
    back, it never pushes it backwards or beyond what was asked. *)
Theorem resistance_answers_edge_between (self : MetaDirection)
    (win : MetaWindow) (old_pos new_pos : Z) (new_rect : MetaRectangle)
    (edges : GArray) (rd : ResistanceDataForAnEdge)
    (timeout_fn : GSourceFunc) (xdir keyboard_op : bool) (ml : MainLoop) :
  edges <> [] -> len_ok edges -> sorted_edges xdir edges ->
  exists r rd' ml',
    apply_edge_resistance self win old_pos new_pos new_rect edges rd
      timeout_fn xdir keyboard_op ml = Ret (r, rd', ml') /\
    (r = new_pos \/ aligned_at xdir edges new_rect r) /\
    Z.min old_pos new_pos <= r <= Z.max old_pos new_pos.
Proof.
  intros Hne Hlen Hs.
  exact (apply_edge_resistance_between self win old_pos new_pos new_rect
           edges rd timeout_fn xdir keyboard_op ml Hne Hlen Hs).
Qed.

End ResistanceAnswers.

(** The left side is dragged from 10 to -50 across the left edge of the
    screen. *)
Lemma resistance_answers_edge_between_witness :
  exists r rd' ml',
    apply_edge_resistance (ext := sample_ext) META_DIRECTION_LEFT sample_win
      10 (-50) (meta_rect (-50) 0 50 100)
      [vertical_edge 0 META_DIRECTION_LEFT META_EDGE_SCREEN]
      (sample_data false) 0 true false [] = Ret (r, rd', ml') /\
    (r = -50 \/
     aligned_at (ext := sample_ext) true
       [vertical_edge 0 META_DIRECTION_LEFT META_EDGE_SCREEN]
       (meta_rect (-50) 0 50 100) r) /\
    Z.min 10 (-50) <= r <= Z.max 10 (-50).
Proof.
  apply (resistance_answers_edge_between (ext := sample_ext)
           META_DIRECTION_LEFT sample_win 10 (-50) (meta_rect (-50) 0 50 100)
           [vertical_edge 0 META_DIRECTION_LEFT META_EDGE_SCREEN]
           (sample_data false) 0 true false []).
  - discriminate.
  - unfold len_ok, array_len, INT_MAX. simpl. lia.
  - reflexivity.
Defined.

(** ** What a call leaves alone *)

Ltac split_ifs :=
  repeat match goal with
         | |- context [if ?c then _ else _] => destruct c
         end.

Lemma remove_old_timeout_shrinks (old_pos new_pos : Z)
    (rd : ResistanceDataForAnEdge) (ml : MainLoop) :
  incl (snd (remove_old_timeout old_pos new_pos rd ml)) ml /\
  (timeout_setup (fst (remove_old_timeout old_pos new_pos rd ml)) = true ->
   timeout_setup rd = true).
Proof.
  unfold remove_old_timeout.
  destruct (timeout_setup rd && _).
  - destruct (negb _); simpl; (split; [|discriminate]).
    + unfold g_source_remove. apply incl_filter.
    + apply incl_refl.
  - simpl. split; [apply incl_refl | auto].
Qed.

Section CallFrames.
Context {ext : Collaborators}.

(** A mouse step does not touch the keyboard buildup, nor the two locals
    that decide whether it is cleared. *)
Lemma mouse_branch_frame (self : MetaDirection) (win : MetaWindow)
    (new_pos increment : Z) (timeout_fn : GSourceFunc) (edge : MetaEdge)
    (compare : Z) (s : WalkState) :
  match mouse_branch self win new_pos increment timeout_fn edge compare s with
  | Break (_, rd', _) => keyboard_buildup rd' = keyboard_buildup (walk_data s)
  | Continue s' =>
      keyboard_buildup (walk_data s') = keyboard_buildup (walk_data s) /\
      okay_to_clear_keyboard_buildup s' = okay_to_clear_keyboard_buildup s
  end.
Proof.
  unfold mouse_branch, g_timeout_add. split_ifs; simpl; auto.
Qed.

(** With no time limit for the edge, a mouse step arms no timer. *)
Lemma mouse_branch_quiet (self : MetaDirection) (win : MetaWindow)
    (new_pos increment : Z) (timeout_fn : GSourceFunc) (edge : MetaEdge)
    (compare : Z) (s : WalkState) :
  timeout_length win edge = 0 ->
  outcome_state (mouse_branch self win new_pos increment timeout_fn edge
                   compare s) = (walk_data s, walk_loop s).
Proof.
  intros H. unfold mouse_branch. rewrite H. simpl (negb (0 =? 0)).
  rewrite !andb_false_r. split_ifs; reflexivity.
Qed.

(** X10.  A mouse operation leaves the keyboard buildup of the side, and
    its [allow_past_screen_edge] flag, exactly as they were: on a non-empty
    array the call returns and both fields of the record it leaves have
    their old values. *)
Theorem mouse_operation_keeps_keyboard_buildup (self : MetaDirection)
    (win : MetaWindow) (old_pos new_pos : Z) (new_rect : MetaRectangle)
    (edges : GArray) (rd : ResistanceDataForAnEdge)
    (timeout_fn : GSourceFunc) (xdir : bool) (ml : MainLoop) :
  edges <> [] -> len_ok edges ->
  exists r rd' ml',
    apply_edge_resistance self win old_pos new_pos new_rect edges rd
      timeout_fn xdir false ml = Ret (r, rd', ml') /\
    keyboard_buildup rd' = keyboard_buildup rd /\
    allow_past_screen_edge rd' = allow_past_screen_edge rd.
Proof.
  intros Hne Hlen.
  destruct (Z.eq_dec old_pos new_pos) as [Heq | Hneq].
  { exists new_pos, rd, ml. unfold apply_edge_resistance.
    rewrite Heq, Z.eqb_refl. auto. }
  rewrite apply_edge_resistance_moving by assumption.
  pose proof (remove_old_timeout_allow old_pos new_pos rd ml) as [Hal Hkb].
  destruct (remove_old_timeout old_pos new_pos rd ml) as [rd1 ml1].
  simpl in *. rewrite <- Hal, <- Hkb.
  destruct (resistance_walk_rule self win old_pos new_pos new_rect edges
              timeout_fn xdir false
              (fun _ _ s =>
                 keyboard_buildup (walk_data s) = keyboard_buildup rd1 /\
                 allow_past_screen_edge (walk_data s)
                 = allow_past_screen_edge rd1 /\
                 okay_to_clear_keyboard_buildup s = false)
              (fun r : Returned =>
                 keyboard_buildup (snd (fst r)) = keyboard_buildup rd1 /\
                 allow_past_screen_edge (snd (fst r))
                 = allow_past_screen_edge rd1)
              Hne Hlen) with (rd := rd1) (ml := ml1)
    as ([[r rd'] ml'] & Hr & Hpost).
  - intros begin end_ s e _ _ (Hk & Ha & Ho) _ _ _ Hread.
    unfold walk_body. rewrite Hread. cbn [bind].
    destruct (edges_align xdir e new_rect); simpl; [|auto].
    pose proof (mouse_branch_frame self win new_pos
                  (if new_pos >? old_pos then 1 else -1) timeout_fn e
                  (edge_coord xdir e) s) as Hf.
    pose proof (mouse_branch_cases self win new_pos
                  (if new_pos >? old_pos then 1 else -1) timeout_fn e
                  (edge_coord xdir e) s) as Hc.
    destruct (mouse_branch _ _ _ _ _ _ _ _) as [s'|[[r rd'] ml']]; simpl.
    + intros _. destruct Hf as [Hf1 Hf2]. destruct Hc as [_ Hc].
      repeat split; congruence.
    + destruct Hc as [_ Hc]. split; congruence.
  - intros begin end_ s _ _ (Hk & Ha & Ho) _. rewrite Ho. simpl. auto.
  - intros. simpl. auto.
  - exists r, rd', ml'. split; [assumption|]. exact Hpost.
Qed.

(** X11.  A resistance timer is only ever armed by a mouse operation on a
    window that must stay on a single xinerama or fully on the screen: in a
    keyboard operation, and in a mouse operation on a window with neither
    requirement, a call on a non-empty array returns with no source added to
    the main loop and no timer set up that was not set up before. *)
Theorem timers_need_constrained_mouse_move (self : MetaDirection)
    (win : MetaWindow) (old_pos new_pos : Z) (new_rect : MetaRectangle)
    (edges : GArray) (rd : ResistanceDataForAnEdge)
    (timeout_fn : GSourceFunc) (xdir keyboard_op : bool) (ml : MainLoop) :
  keyboard_op = true \/
  (require_on_single_xinerama win = false /\
   require_fully_onscreen win = false) ->
  edges <> [] -> len_ok edges ->
  exists r rd' ml',
    apply_edge_resistance self win old_pos new_pos new_rect edges rd
      timeout_fn xdir keyboard_op ml = Ret (r, rd', ml') /\
    incl ml' ml /\
    (timeout_setup rd' = true -> timeout_setup rd = true).
Proof.
  intros Hquiet Hne Hlen.
  destruct (Z.eq_dec old_pos new_pos) as [Heq | Hneq].
  { exists new_pos, rd, ml. unfold apply_edge_resistance.
    rewrite Heq, Z.eqb_refl. split; [reflexivity|].
    split; [apply incl_refl | auto]. }
  rewrite apply_edge_resistance_moving by assumption.
  pose proof (remove_old_timeout_shrinks old_pos new_pos rd ml)
    as [Hincl Hsetup].
  destruct (remove_old_timeout old_pos new_pos rd ml) as [rd1 ml1].
  simpl in *.
  destruct (resistance_walk_rule self win old_pos new_pos new_rect edges
              timeout_fn xdir keyboard_op
              (fun _ _ s =>
                 walk_loop s = ml1 /\
                 timeout_setup (walk_data s) = timeout_setup rd1)
              (fun r : Returned =>
                 snd r = ml1 /\
                 timeout_setup (snd (fst r)) = timeout_setup rd1)
              Hne Hlen) with (rd := rd1) (ml := ml1)
    as ([[r rd'] ml'] & Hr & Hpost).
  - intros begin end_ s e _ _ [Hl Hs] _ _ _ Hread.
    unfold walk_body. rewrite Hread. cbn [bind].
    destruct (edges_align xdir e new_rect); simpl; [|auto].
    destruct keyboard_op.
    + pose proof (keyboard_branch_state new_pos
                    (if new_pos >? old_pos then 1 else -1) e
                    (edge_coord xdir e) s) as (Hs' & _ & Hl').
      destruct (keyboard_branch _ _ _ _ _) as [s'|[[r rd'] ml']];
        simpl in *; [intros _|]; split; congruence.
    + destruct Hquiet as [Hk | [Hx Hf]]; [discriminate|].
      assert (H0 : timeout_length win e = 0).
      { unfold timeout_length. rewrite Hx, Hf.
        destruct (edge_type e); reflexivity. }
      pose proof (mouse_branch_quiet self win new_pos
                    (if new_pos >? old_pos then 1 else -1) timeout_fn e
                    (edge_coord xdir e) s H0) as Hq.
      destruct (mouse_branch _ _ _ _ _ _ _ _) as [s'|[[r rd'] ml']];
        simpl in *; [intros _|]; inversion Hq as [[H1 H2]];
        split; congruence.
  - intros begin end_ s _ _ [Hl Hs] _. destruct (_ && _); simpl; auto.
  - intros. simpl. auto.
  - exists r, rd', ml'. simpl in Hpost. destruct Hpost as [-> Hs].
    split; [assumption|]. split; [assumption|].
    intros H. apply Hsetup. congruence.
Qed.

End CallFrames.

(** A mouse drag to the left across a window edge, with some keyboard
    buildup left from before. *)
Lemma mouse_operation_keeps_keyboard_buildup_witness :
  exists r rd' ml',
    apply_edge_resistance (ext := sample_ext) META_DIRECTION_LEFT sample_win
      130 90 (meta_rect 90 0 50 100)
      [vertical_edge 110 META_DIRECTION_LEFT META_EDGE_WINDOW]
      (set_keyboard_buildup (sample_data true) 7) 0 true false []
    = Ret (r, rd', ml') /\
    keyboard_buildup rd'
    = keyboard_buildup (set_keyboard_buildup (sample_data true) 7) /\
    allow_past_screen_edge rd'
    = allow_past_screen_edge (set_keyboard_buildup (sample_data true) 7).
Proof.
  apply (mouse_operation_keeps_keyboard_buildup (ext := sample_ext)
           META_DIRECTION_LEFT sample_win 130 90 (meta_rect 90 0 50 100)
           [vertical_edge 110 META_DIRECTION_LEFT META_EDGE_WINDOW]
           (set_keyboard_buildup (sample_data true) 7) 0 true []).
  - discriminate.
  - unfold len_ok, array_len, INT_MAX. simpl. lia.
Defined.

(** A window free to leave the screen is dragged across the left edge of
    the screen. *)
Lemma timers_need_constrained_mouse_move_witness :
  exists r rd' ml',
    apply_edge_resistance (ext := sample_ext) META_DIRECTION_LEFT sample_win
      10 (-50) (meta_rect (-50) 0 50 100)
      [vertical_edge 0 META_DIRECTION_LEFT META_EDGE_SCREEN]
      (sample_data true) 0 true false [] = Ret (r, rd', ml') /\
    incl ml' [] /\
    (timeout_setup rd' = true -> timeout_setup (sample_data true) = true).
Proof.
  apply (timers_need_constrained_mouse_move (ext := sample_ext)
           META_DIRECTION_LEFT sample_win 10 (-50) (meta_rect (-50) 0 50 100)
           [vertical_edge 0 META_DIRECTION_LEFT META_EDGE_SCREEN]
           (sample_data true) 0 true false []).
  - right. split; reflexivity.
  - discriminate.
  - unfold len_ok, array_len, INT_MAX. simpl. lia.
Defined.

(** ** Timeout resistance and pixel-distance resistance *)

Section MouseResistance.
Context {ext : Collaborators}.

(** While the timer of the side has not fired, a mouse step towards an
    edge that has a time limit stops at the edge. *)
Lemma mouse_branch_held (self : MetaDirection) (win : MetaWindow)
    (new_pos increment : Z) (timeout_fn : GSourceFunc) (edge : MetaEdge)
    (compare : Z) (s : WalkState) :
  movement_towards_edge (side_type edge) increment = true ->
  timeout_length win edge <> 0 ->
  timeout_setup (walk_data s) = false \/ timeout_over (walk_data s) = false ->
  exists rd' ml',
    mouse_branch self win new_pos increment timeout_fn edge compare s
    = Break (compare, rd', ml').
Proof.
  intros Ht Hl Hs. unfold mouse_branch, g_timeout_add. rewrite Ht.
  apply Z.eqb_neq in Hl. rewrite Hl. simpl negb. rewrite !andb_true_r.
  destruct (_ && negb (allow_past_screen_edge (walk_data s)));
    [do 2 eexists; reflexivity|].
  simpl. destruct (timeout_setup (walk_data s)) eqn:Hsetup; simpl.
  - destruct Hs as [Hs | Hs]; [discriminate|]. rewrite Hs. simpl.
    do 2 eexists; reflexivity.
  - do 2 eexists; reflexivity.
Qed.

Lemma mouse_branch_unfired (self : MetaDirection) (win : MetaWindow)
    (new_pos increment : Z) (timeout_fn : GSourceFunc) (edge : MetaEdge)
    (compare : Z) (s : WalkState) :
  timeout_setup (walk_data s) = false \/ timeout_over (walk_data s) = false ->
  timeout_setup (fst (outcome_state
                        (mouse_branch self win new_pos increment timeout_fn
                           edge compare s))) = false \/
  timeout_over (fst (outcome_state
                       (mouse_branch self win new_pos increment timeout_fn
                          edge compare s))) = false.
Proof.
  intros Hs. unfold mouse_branch, g_timeout_add.
  split_ifs; simpl; auto.
Qed.

(** X12.  Timeout resistance: in a mouse operation whose side has no
    fired timer (no timer set up, or one that is not over), an aligned edge
    of a sorted array that has a time limit for the window (a xinerama edge
    for a window that must stay on one xinerama, a screen edge for a window
    that must stay fully on the screen), that the movement heads for and
    whose coordinate lies between the old and the proposed position, is not
    passed: the call returns a position that is not beyond the edge in the
    direction of travel. *)
Theorem unfired_timer_holds_side (self : MetaDirection) (win : MetaWindow)
    (old_pos new_pos : Z) (new_rect : MetaRectangle) (edges : GArray)
    (rd : ResistanceDataForAnEdge) (timeout_fn : GSourceFunc) (xdir : bool)
    (ml : MainLoop) (k : Z) (e : MetaEdge) :
  len_ok edges -> sorted_edges xdir edges ->
  0 <= k -> nth_error edges (Z.to_nat k) = Some e ->
  edges_align xdir e new_rect = true ->
  timeout_length win e <> 0 ->
  movement_towards_edge (side_type e)
    (if new_pos >? old_pos then 1 else -1) = true ->
  timeout_setup rd = false \/ timeout_over rd = false ->
  Z.min old_pos new_pos <= edge_coord xdir e <= Z.max old_pos new_pos ->
  exists r rd' ml',
    apply_edge_resistance self win old_pos new_pos new_rect edges rd
      timeout_fn xdir false ml = Ret (r, rd', ml') /\
    (if new_pos >? old_pos
     then r <= edge_coord xdir e else edge_coord xdir e <= r).
Proof.
  intros Hlen Hs Hk0 Hk Halign Hlimit Htowards Hunfired Hbetween.
  assert (Hklen : k < array_len edges).
  { assert (nth_error edges (Z.to_nat k) <> None) as H by congruence.
    apply nth_error_Some in H. unfold array_len. lia. }
  assert (Hne : edges <> []).
  { intros ->. unfold array_len in Hklen. simpl in Hklen. lia. }
  pose proof (pos_at_nth_error xdir edges k e Hk) as HE.
  destruct (Z.eq_dec old_pos new_pos) as [Heq | Hneq].
  { exists new_pos, rd, ml. unfold apply_edge_resistance.
    rewrite Heq, Z.eqb_refl. split; [reflexivity|].
    subst. rewrite Z.gtb_ltb, Z.ltb_irrefl. lia. }
  rewrite apply_edge_resistance_moving by assumption.
  assert (Hunfired1 :
    timeout_setup (fst (remove_old_timeout old_pos new_pos rd ml)) = false \/
    timeout_over (fst (remove_old_timeout old_pos new_pos rd ml)) = false).
  { unfold remove_old_timeout. destruct (timeout_setup rd && _);
      [destruct (negb _); simpl; auto | simpl; assumption]. }
  destruct (remove_old_timeout old_pos new_pos rd ml) as [rd1 ml1].
  simpl in *.
  assert (Hkrange : forall begin end_,
    find_index_of_edge_near_position edges old_pos (new_pos >? old_pos) xdir
      = Ret begin ->
    find_index_of_edge_near_position edges new_pos
      (negb (new_pos >? old_pos)) xdir = Ret end_ ->
    if new_pos >? old_pos then begin <= k <= end_ else end_ <= k <= begin).
  { intros begin end_ Hb He.
    apply (walk_index_between edges old_pos new_pos xdir begin end_ k);
      try assumption; [lia|]. rewrite HE. assumption. }
  destruct (resistance_walk_rule self win old_pos new_pos new_rect edges
              timeout_fn xdir false
              (fun _ _ s =>
                 (timeout_setup (walk_data s) = false \/
                  timeout_over (walk_data s) = false) /\
                 if new_pos >? old_pos then walk_i s <= k else k <= walk_i s)
              (fun r : Returned =>
                 if new_pos >? old_pos then fst (fst r) <= edge_coord xdir e
                 else edge_coord xdir e <= fst (fst r))
              Hne Hlen) with (rd := rd1) (ml := ml1)
    as ([[r rd'] ml'] & Hr & Hpost).
  - intros begin end_ s ei Hb He [Hu Hi] Hrange Hin Hnth Hread.
    unfold walk_body. rewrite Hread. cbn [bind].
    destruct (Z.eq_dec (walk_i s) k) as [Hik | Hik].
    + rewrite Hik in Hnth. assert (ei = e) by congruence. subst ei.
      rewrite Halign. simpl.
      destruct (mouse_branch_held self win new_pos
                  (if new_pos >? old_pos then 1 else -1) timeout_fn e
                  (edge_coord xdir e) s Htowards Hlimit Hu)
        as (rd' & ml' & ->).
      simpl. destruct (new_pos >? old_pos); lia.
    + assert (Hnext : if new_pos >? old_pos
                      then walk_i s + 1 <= k else k <= walk_i s + -1)
        by (destruct (new_pos >? old_pos); lia).
      destruct (edges_align xdir ei new_rect); simpl.
      * pose proof (mouse_branch_unfired self win new_pos
                      (if new_pos >? old_pos then 1 else -1) timeout_fn ei
                      (edge_coord xdir ei) s Hu) as Hu'.
        pose proof (mouse_branch_cases self win new_pos
                      (if new_pos >? old_pos then 1 else -1) timeout_fn ei
                      (edge_coord xdir ei) s) as Hc.
        destruct (mouse_branch _ _ _ _ _ _ _ _) as [s'|[[r rd'] ml']];
          simpl in *.
        -- intros ->. split; [assumption|].
           destruct (new_pos >? old_pos); assumption.
        -- destruct Hc as [-> _].
           rewrite <- (pos_at_nth_error xdir edges (walk_i s) ei Hnth), <- HE.
           destruct (new_pos >? old_pos);
             apply sorted_edges_le; try assumption; lia.
      * intros ->. split; [assumption|].
        destruct (new_pos >? old_pos); assumption.
  - intros begin end_ s Hb He [_ Hi] Hout. exfalso.
    specialize (Hkrange begin end_ Hb He).
    destruct (new_pos >? old_pos); lia.
  - intros begin end_ Hb He. simpl. split; [assumption|].
    specialize (Hkrange begin end_ Hb He).
    destruct (new_pos >? old_pos); lia.
  - exists r, rd', ml'. split; [assumption|]. exact Hpost.
Qed.

End MouseResistance.

(** A window that must stay on the screen is dragged from 10 to -50 across
    the left edge of the screen, on a side that may pass screen edges. *)
Lemma unfired_timer_holds_side_witness :
  exists r rd' ml',
    apply_edge_resistance (ext := sample_ext) META_DIRECTION_LEFT onscreen_win
      10 (-50) (meta_rect (-50) 0 50 100)
      [vertical_edge 0 META_DIRECTION_LEFT META_EDGE_SCREEN]
      (sample_data true) 7 true false [] = Ret (r, rd', ml') /\
    0 <= r.
Proof.
  apply (unfired_timer_holds_side (ext := sample_ext) META_DIRECTION_LEFT
           onscreen_win 10 (-50) (meta_rect (-50) 0 50 100)
           [vertical_edge 0 META_DIRECTION_LEFT META_EDGE_SCREEN]
           (sample_data true) 7 true [] 0
           (vertical_edge 0 META_DIRECTION_LEFT META_EDGE_SCREEN)).
  - unfold len_ok, array_len, INT_MAX. simpl. lia.
  - reflexivity.
  - lia.
  - reflexivity.
  - vm_compute. reflexivity.
  - vm_compute. discriminate.
  - reflexivity.
  - left. reflexivity.
  - simpl. lia.
Defined.

Lemma keyboard_resistance_range (edge : MetaEdge) (increment : Z) :
  16 <= keyboard_resistance edge increment <= 32.
Proof.
  unfold keyboard_resistance.
  destruct (edge_type edge), (movement_towards_edge _ _); simpl;
    unfold KEYBOARD_BUILDUP_THRESHOLD_TOWARDS_WINDOW,
      KEYBOARD_BUILDUP_THRESHOLD_AWAYFROM_WINDOW,
      KEYBOARD_BUILDUP_THRESHOLD_TOWARDS_XINERAMA,
      KEYBOARD_BUILDUP_THRESHOLD_AWAYFROM_XINERAMA,
      KEYBOARD_BUILDUP_THRESHOLD_TOWARDS_SCREEN,
      KEYBOARD_BUILDUP_THRESHOLD_AWAYFROM_SCREEN; lia.
Qed.

Section LeftBehind.
Context {ext : Collaborators}.
Variables (self : MetaDirection) (win : MetaWindow) (old_pos new_pos : Z).
Variables (new_rect : MetaRectangle) (edges : GArray).
Variables (timeout_fn : GSourceFunc) (xdir keyboard_op : bool).
Variable far : MetaEdge -> Prop.
Variable Extra : WalkState -> Prop.

Hypothesis nonempty : edges <> [].
Hypothesis length_ok : len_ok edges.
Hypothesis sorted : sorted_edges xdir edges.

Hypothesis pass_ok : forall s e s',
  Extra s -> In e edges ->
  (if keyboard_op
   then keyboard_branch new_pos (if new_pos >? old_pos then 1 else -1) e
          (edge_coord xdir e) s
   else mouse_branch self win new_pos (if new_pos >? old_pos then 1 else -1)
          timeout_fn e (edge_coord xdir e) s) = Continue s' ->
  far e /\ Extra s'.

Hypothesis skip_ok : forall s i,
  Extra s ->
  Extra (mk_walk i (okay_to_clear_keyboard_buildup s)
           (keyboard_buildup_edge s) (walk_data s) (walk_loop s)).

(** When every aligned edge that an iteration goes past is [far], every
    aligned edge that the returned position leaves behind is. *)
Lemma walk_leaves_far_edges_behind (rd : ResistanceDataForAnEdge)
    (ml : MainLoop) :
  (forall begin, Extra (mk_walk begin false G_MAXINT rd ml)) ->
  exists r rd' ml',
    resistance_walk self win old_pos new_pos new_rect edges rd timeout_fn
      xdir keyboard_op ml = Ret (r, rd', ml') /\
    forall e, In e edges -> edges_align xdir e new_rect = true ->
      (if new_pos >? old_pos then old_pos <= edge_coord xdir e < r
       else r < edge_coord xdir e <= old_pos) ->
      far e.
Proof.
  intros Hinit.
  set (increasing := new_pos >? old_pos) in *.
  set (increment := if increasing then 1 else -1) in *.
  (* every edge of the array sits at an index *)
  assert (Hindex : forall e, In e edges ->
    exists j, 0 <= j < array_len edges /\
              nth_error edges (Z.to_nat j) = Some e).
  { intros e Hin. apply In_nth_error in Hin as [n Hn].
    exists (Z.of_nat n). rewrite Nat2Z.id. split; [|assumption].
    assert (nth_error edges n <> None) as H by congruence.
    apply nth_error_Some in H. unfold array_len. lia. }
  destruct (resistance_walk_rule self win old_pos new_pos new_rect edges
              timeout_fn xdir keyboard_op
              (fun begin _ s =>
                 Extra s /\
                 forall j e,
                   (if increasing then begin <= j < walk_i s
                    else walk_i s < j <= begin) ->
                   nth_error edges (Z.to_nat j) = Some e ->
                   edges_align xdir e new_rect = true -> far e)
              (fun r : Returned =>
                 forall e, In e edges -> edges_align xdir e new_rect = true ->
                   (if increasing
                    then old_pos <= edge_coord xdir e < fst (fst r)
                    else fst (fst r) < edge_coord xdir e <= old_pos) ->
                   far e)
              nonempty length_ok) with (rd := rd) (ml := ml)
    as ([[r rd'] ml'] & Hr & Hpost).
  - intros begin end_ s ei Hb He [HX HI] Hrange Hin Hnth Hread.
    fold increasing in Hb, He, Hrange. fold increasing. fold increment.
    pose proof (walk_index_between edges old_pos new_pos xdir begin end_)
      as Hbetween.
    fold increasing in Hbetween.
    assert (Hextend : (edges_align xdir ei new_rect = true -> far ei) ->
      forall i', i' = walk_i s + increment ->
      forall j e,
        (if increasing then begin <= j < i' else i' < j <= begin) ->
        nth_error edges (Z.to_nat j) = Some e ->
        edges_align xdir e new_rect = true -> far e).
    { intros Hhere i' Hs' j e Hj Hnj Ha. rewrite Hs' in Hj.
      destruct (Z.eq_dec j (walk_i s)) as [-> | Hji].
      - assert (e = ei) by congruence. subst e. apply Hhere. assumption.
      - apply (HI j e); try assumption.
        unfold increment in Hj. destruct increasing; lia. }
    unfold walk_body. rewrite Hread. cbn [bind].
    destruct (edges_align xdir ei new_rect) eqn:Ha; simpl.
    + specialize (pass_ok s ei).
      assert (Hstop : forall r rd' ml',
        (if keyboard_op
         then keyboard_branch new_pos increment ei (edge_coord xdir ei) s
         else mouse_branch self win new_pos increment timeout_fn ei
                (edge_coord xdir ei) s) = Break (r, rd', ml') ->
        r = edge_coord xdir ei).
      { intros r rd' ml' Hbr. destruct keyboard_op.
        - pose proof (keyboard_branch_cases new_pos increment ei
                        (edge_coord xdir ei) s) as Hc.
          rewrite Hbr in Hc. apply Hc.
        - pose proof (mouse_branch_cases self win new_pos increment
                        timeout_fn ei (edge_coord xdir ei) s) as Hc.
          rewrite Hbr in Hc. apply Hc. }
      assert (Hsame :
        (if keyboard_op
         then Ret (keyboard_branch new_pos increment ei (edge_coord xdir ei) s)
         else Ret (mouse_branch self win new_pos increment timeout_fn ei
                     (edge_coord xdir ei) s))
        = Ret (if keyboard_op
               then keyboard_branch new_pos increment ei
                      (edge_coord xdir ei) s
               else mouse_branch self win new_pos increment timeout_fn ei
                      (edge_coord xdir ei) s))
        by (destruct keyboard_op; reflexivity).
      rewrite Hsame. clear Hsame.
      destruct (if keyboard_op then _ else _)
        as [s'|[[r rd'] ml']] eqn:Hm.
      * destruct (pass_ok s' HX (nth_error_In _ _ Hnth) eq_refl)
          as [Hfar HX'].
        intros Hi. split; [assumption|].
        apply (Hextend (fun _ => Hfar) (walk_i s') Hi).
      * rewrite (Hstop r rd' ml' eq_refl). simpl.
        intros e Hine Hae Hce.
        destruct (Hindex e Hine) as (j & Hj & Hnj).
        pose proof (pos_at_nth_error xdir edges j e Hnj) as Hpj.
        pose proof (pos_at_nth_error xdir edges (walk_i s) ei Hnth) as Hpi.
        pose proof (proj1 (Hbetween (walk_i s) nonempty length_ok sorted Hb
                             He Hin) Hrange) as Hci.
        apply (HI j e); try assumption.
        assert (Hjr : if increasing then begin <= j <= end_
                      else end_ <= j <= begin).
        { apply (Hbetween j nonempty length_ok sorted Hb He Hj). rewrite Hpj.
          rewrite Hpi in Hci. unfold increasing in *.
          destruct (Z.gtb_spec new_pos old_pos); lia. }
        destruct increasing.
        -- split; [lia|].
           destruct (Z_lt_le_dec j (walk_i s)); [assumption|].
           pose proof (sorted_edges_le xdir edges (walk_i s) j sorted). lia.
        -- split; [|lia].
           destruct (Z_lt_le_dec (walk_i s) j); [assumption|].
           pose proof (sorted_edges_le xdir edges j (walk_i s) sorted). lia.
    + intros Hi. split; [apply skip_ok; assumption|].
      apply (Hextend ltac:(discriminate) _ Hi).
  - intros begin end_ s Hb He [_ HI] Hout.
    fold increasing in Hb, He, Hout.
    assert (Hfst : forall e, In e edges ->
      edges_align xdir e new_rect = true ->
      (if increasing then old_pos <= edge_coord xdir e < new_pos
       else new_pos < edge_coord xdir e <= old_pos) -> far e).
    { intros e Hine Hae Hce.
      destruct (Hindex e Hine) as (j & Hj & Hnj).
      pose proof (pos_at_nth_error xdir edges j e Hnj) as Hpj.
      apply (HI j e); try assumption.
      assert (Hjr : if increasing then begin <= j <= end_
                    else end_ <= j <= begin).
      { apply (walk_index_between edges old_pos new_pos xdir begin end_ j
                 nonempty length_ok sorted Hb He Hj).
        rewrite Hpj. unfold increasing in *.
        destruct (Z.gtb_spec new_pos old_pos); lia. }
      destruct increasing; lia. }
    destruct (_ && _); simpl; exact Hfst.
  - intros begin end_ _ _. split; [apply Hinit|].
    intros j e Hj. simpl in Hj. destruct increasing; lia.
  - exists r, rd', ml'. split; [assumption|]. exact Hpost.
Qed.

End LeftBehind.

Section PixelDistance.
Context {ext : Collaborators}.

(** A mouse step that goes on to the next edge found this one at least its
    pixel threshold away from the proposed position. *)
Lemma mouse_branch_continue_far (self : MetaDirection) (win : MetaWindow)
    (new_pos increment : Z) (timeout_fn : GSourceFunc) (edge : MetaEdge)
    (compare : Z) (s s' : WalkState) :
  mouse_branch self win new_pos increment timeout_fn edge compare s
  = Continue s' ->
  (ABS (int_sub compare new_pos) <? pixel_threshold edge increment) = false.
Proof.
  intros H.
  destruct (ABS (int_sub compare new_pos) <? pixel_threshold edge increment)
    eqn:Hfar; [|reflexivity].
  exfalso. revert H. unfold mouse_branch, g_timeout_add. rewrite Hfar.
  split_ifs; discriminate.
Qed.

(** A keyboard step from a side with no buildup goes on to the next edge
    only when this one is at least its keyboard threshold away from the
    proposed position, and it goes on with no buildup. *)
Lemma keyboard_branch_continue_far (new_pos increment : Z) (edge : MetaEdge)
    (compare : Z) (s s' : WalkState) :
  keyboard_buildup (walk_data s) = 0 ->
  keyboard_branch new_pos increment edge compare s = Continue s' ->
  (ABS (int_sub compare new_pos) <? keyboard_resistance edge increment)
  = false /\
  keyboard_buildup (walk_data s') = 0.
Proof.
  intros Hb. unfold keyboard_branch.
  assert (Hthr : forall rd, keyboard_buildup rd = 0 ->
    int_sub (keyboard_resistance edge increment) (keyboard_buildup rd)
    = keyboard_resistance edge increment).
  { intros rd ->. pose proof (keyboard_resistance_range edge increment).
    rewrite int_sub_small by (unfold in_int, INT_MIN, INT_MAX; lia). lia. }
  destruct (okay_to_clear_keyboard_buildup s &&
            negb (compare =? keyboard_buildup_edge s)).
  - rewrite Hthr by reflexivity.
    destruct (ABS (int_sub compare new_pos)
              <? keyboard_resistance edge increment);
      intros H; inversion H. split; reflexivity.
  - rewrite Hthr by assumption.
    destruct (ABS (int_sub compare new_pos)
              <? keyboard_resistance edge increment);
      intros H; inversion H. split; [reflexivity | assumption].
Qed.

Lemma ABS_sub_small (a b : Z) :
  small a -> small b -> ABS (int_sub a b) = Z.abs (a - b).
Proof.
  unfold small. intros Ha Hb.
  rewrite int_sub_small by (unfold in_int, INT_MIN, INT_MAX; lia).
  apply ABS_small. unfold INT_MIN, INT_MAX. lia.
Qed.

(** X13.  Pixel-distance resistance: in a mouse operation on a sorted
    array, every aligned edge that the returned position leaves behind (its
    coordinate lies from the old position up to, but not at, the returned
    one, in the direction of travel) is at least its pixel threshold away
    from the proposed position: 16 pixels for a window edge the movement
    heads for, 32 for a xinerama or screen edge it heads for, 8 for an edge
    it moves away from. *)
Theorem mouse_passes_only_distant_edges (self : MetaDirection)
    (win : MetaWindow) (old_pos new_pos : Z) (new_rect : MetaRectangle)
    (edges : GArray) (rd : ResistanceDataForAnEdge)
    (timeout_fn : GSourceFunc) (xdir : bool) (ml : MainLoop) :
  edges <> [] -> len_ok edges -> sorted_edges xdir edges ->
  small new_pos ->
  (forall e, In e edges -> small (edge_coord xdir e)) ->
  exists r rd' ml',
    apply_edge_resistance self win old_pos new_pos new_rect edges rd
      timeout_fn xdir false ml = Ret (r, rd', ml') /\
    forall e, In e edges -> edges_align xdir e new_rect = true ->
      (if new_pos >? old_pos then old_pos <= edge_coord xdir e < r
       else r < edge_coord xdir e <= old_pos) ->
      pixel_threshold e (if new_pos >? old_pos then 1 else -1)
      <= Z.abs (edge_coord xdir e - new_pos).
Proof.
  intros Hne Hlen Hs Hnew Hsmall.
  destruct (Z.eq_dec old_pos new_pos) as [Heq | Hneq].
  { exists new_pos, rd, ml. unfold apply_edge_resistance.
    rewrite Heq, Z.eqb_refl. split; [reflexivity|].
    intros e _ _. rewrite Z.gtb_ltb, Z.ltb_irrefl. lia. }
  rewrite apply_edge_resistance_moving by assumption.
  apply (walk_leaves_far_edges_behind self win old_pos new_pos new_rect edges
           timeout_fn xdir false
           (fun e => pixel_threshold e (if new_pos >? old_pos then 1 else -1)
                     <= Z.abs (edge_coord xdir e - new_pos))
           (fun _ => True) Hne Hlen Hs).
  - intros s e s' _ Hin Hm. split; [|exact I].
    apply mouse_branch_continue_far in Hm.
    rewrite ABS_sub_small in Hm by (try apply Hsmall; assumption).
    apply Z.ltb_ge in Hm. exact Hm.
  - intros; exact I.
  - intros; exact I.
Qed.

(** X14.  Keyboard resistance: in a keyboard operation on a sorted array,
    from a side with no buildup, every aligned edge that the returned
    position leaves behind is at least its keyboard threshold away from the
    proposed position: 16 pixels for a window edge, 24 for a xinerama edge
    the movement heads for, 32 for a screen edge it heads for, 16 for a
    xinerama or screen edge it moves away from. *)
Theorem keyboard_passes_only_distant_edges (self : MetaDirection)
    (win : MetaWindow) (old_pos new_pos : Z) (new_rect : MetaRectangle)
    (edges : GArray) (rd : ResistanceDataForAnEdge)
    (timeout_fn : GSourceFunc) (xdir : bool) (ml : MainLoop) :
  edges <> [] -> len_ok edges -> sorted_edges xdir edges ->
  small new_pos ->
  (forall e, In e edges -> small (edge_coord xdir e)) ->
  keyboard_buildup rd = 0 ->
  exists r rd' ml',
    apply_edge_resistance self win old_pos new_pos new_rect edges rd
      timeout_fn xdir true ml = Ret (r, rd', ml') /\
    forall e, In e edges -> edges_align xdir e new_rect = true ->
      (if new_pos >? old_pos then old_pos <= edge_coord xdir e < r
       else r < edge_coord xdir e <= old_pos) ->
      keyboard_resistance e (if new_pos >? old_pos then 1 else -1)
      <= Z.abs (edge_coord xdir e - new_pos).
Proof.
  intros Hne Hlen Hs Hnew Hsmall Hzero.
  destruct (Z.eq_dec old_pos new_pos) as [Heq | Hneq].
  { exists new_pos, rd, ml. unfold apply_edge_resistance.
    rewrite Heq, Z.eqb_refl. split; [reflexivity|].
    intros e _ _. rewrite Z.gtb_ltb, Z.ltb_irrefl. lia. }
  rewrite apply_edge_resistance_moving by assumption.
  pose proof (remove_old_timeout_allow old_pos new_pos rd ml) as [_ Hkb].
  rewrite Hzero in Hkb.
  apply (walk_leaves_far_edges_behind self win old_pos new_pos new_rect edges
           timeout_fn xdir true
           (fun e => keyboard_resistance e
                       (if new_pos >? old_pos then 1 else -1)
                     <= Z.abs (edge_coord xdir e - new_pos))
           (fun s => keyboard_buildup (walk_data s) = 0) Hne Hlen Hs).
  - intros s e s' Hb Hin Hm.
    destruct (keyboard_branch_continue_far _ _ _ _ _ _ Hb Hm) as [Hfar Hb'].
    split; [|assumption].
    rewrite ABS_sub_small in Hfar by (try apply Hsmall; assumption).
    apply Z.ltb_ge in Hfar. exact Hfar.
  - intros s i Hb. exact Hb.
  - intros begin. exact Hkb.
Qed.

End PixelDistance.

(** A drag to the left from 130 to 90 over window edges at 100 and 110. *)
Lemma mouse_passes_only_distant_edges_witness :
  exists r rd' ml',
    apply_edge_resistance (ext := sample_ext) META_DIRECTION_LEFT sample_win
      130 90 (meta_rect 90 0 50 100)
      [vertical_edge 100 META_DIRECTION_LEFT META_EDGE_WINDOW;
       vertical_edge 110 META_DIRECTION_LEFT META_EDGE_WINDOW]
      (sample_data true) 0 true false [] = Ret (r, rd', ml') /\
    forall e,
      In e [vertical_edge 100 META_DIRECTION_LEFT META_EDGE_WINDOW;
            vertical_edge 110 META_DIRECTION_LEFT META_EDGE_WINDOW] ->
      edges_align (ext := sample_ext) true e (meta_rect 90 0 50 100) = true ->
      (if 90 >? 130 then 130 <= edge_coord true e < r
       else r < edge_coord true e <= 130) ->
      pixel_threshold e (if 90 >? 130 then 1 else -1)
      <= Z.abs (edge_coord true e - 90).
Proof.
  apply (mouse_passes_only_distant_edges (ext := sample_ext)
           META_DIRECTION_LEFT sample_win 130 90 (meta_rect 90 0 50 100)
           [vertical_edge 100 META_DIRECTION_LEFT META_EDGE_WINDOW;
            vertical_edge 110 META_DIRECTION_LEFT META_EDGE_WINDOW]
           (sample_data true) 0 true []).
  - discriminate.
  - unfold len_ok, array_len, INT_MAX. simpl. lia.
  - reflexivity.
  - unfold small. lia.
  - intros e [<- | [<- | []]]; unfold small; simpl; lia.
Defined.

(** ** The keyboard buildup stays below the thresholds *)

Section BuildupBound.
Context {ext : Collaborators}.

Lemma keyboard_branch_bound (new_pos increment : Z) (edge : MetaEdge)
    (compare : Z) (s : WalkState) :
  small new_pos -> small compare ->
  0 <= keyboard_buildup (walk_data s) < 32 ->
  match keyboard_branch new_pos increment edge compare s with
  | Break (_, rd', _) => 1 <= keyboard_buildup rd' < 32
  | Continue s' => 0 <= keyboard_buildup (walk_data s') < 32
  end.
Proof.
  intros Hn Hc Hb. unfold keyboard_branch.
  pose proof (keyboard_resistance_range edge increment) as Hres.
  set (resistance := keyboard_resistance edge increment) in *.
  destruct (okay_to_clear_keyboard_buildup s &&
            negb (compare =? keyboard_buildup_edge s)).
  - (* the buildup was cleared on the way *)
    simpl keyboard_buildup.
    rewrite (int_sub_small resistance 0)
      by (unfold in_int, INT_MIN, INT_MAX; lia).
    destruct (ABS (int_sub compare new_pos) <? resistance - 0); simpl; lia.
  - rewrite (int_sub_small resistance (keyboard_buildup (walk_data s)))
      by (unfold in_int, INT_MIN, INT_MAX; lia).
    rewrite (ABS_sub_small compare new_pos) by assumption.
    destruct (Z.ltb_spec (Z.abs (compare - new_pos))
                (resistance - keyboard_buildup (walk_data s)))
      as [Hlt | Hge]; simpl; [|assumption].
    destruct (Z.eqb_spec (keyboard_buildup (walk_data s)) 0); simpl; [lia|].
    rewrite (ABS_sub_small new_pos compare) by assumption.
    rewrite int_add_small by (unfold in_int, INT_MIN, INT_MAX; lia).
    lia.
Qed.

(** X15.  The keyboard buildup of a side stays within 0 and 31: for
    coordinates far from the limits of an [int], a call on a non-empty
    array, keyboard or mouse, that finds the buildup in that range returns
    with the buildup in that range, so what has built up against an edge
    stays below the largest threshold (32); and a keyboard move that is
    held short of the proposed position always leaves a buildup of at least
    1, which the next press adds to. *)
Theorem keyboard_buildup_stays_below_threshold (self : MetaDirection)
    (win : MetaWindow) (old_pos new_pos : Z) (new_rect : MetaRectangle)
    (edges : GArray) (rd : ResistanceDataForAnEdge)
    (timeout_fn : GSourceFunc) (xdir keyboard_op : bool) (ml : MainLoop) :
  edges <> [] -> len_ok edges ->
  small new_pos ->
  (forall e, In e edges -> small (edge_coord xdir e)) ->
  0 <= keyboard_buildup rd < 32 ->
  exists r rd' ml',
    apply_edge_resistance self win old_pos new_pos new_rect edges rd
      timeout_fn xdir keyboard_op ml = Ret (r, rd', ml') /\
    0 <= keyboard_buildup rd' < 32 /\
    (keyboard_op = true -> r <> new_pos -> 1 <= keyboard_buildup rd').
Proof.
  intros Hne Hlen Hnew Hsmall Hb.
  destruct (Z.eq_dec old_pos new_pos) as [Heq | Hneq].
  { exists new_pos, rd, ml. unfold apply_edge_resistance.
    rewrite Heq, Z.eqb_refl. split; [reflexivity|].
    split; [assumption | congruence]. }
  rewrite apply_edge_resistance_moving by assumption.
  pose proof (remove_old_timeout_allow old_pos new_pos rd ml) as [_ Hkb].
  destruct (remove_old_timeout old_pos new_pos rd ml) as [rd1 ml1].
  simpl in *. rewrite <- Hkb in Hb.
  destruct (resistance_walk_rule self win old_pos new_pos new_rect edges
              timeout_fn xdir keyboard_op
              (fun _ _ s => 0 <= keyboard_buildup (walk_data s) < 32)
              (fun r : Returned =>
                 0 <= keyboard_buildup (snd (fst r)) < 32 /\
                 (keyboard_op = true -> fst (fst r) <> new_pos ->
                  1 <= keyboard_buildup (snd (fst r))))
              Hne Hlen) with (rd := rd1) (ml := ml1)
    as ([[r rd'] ml'] & Hr & Hpost).
  - intros begin end_ s e _ _ HI _ _ Hnth Hread.
    unfold walk_body. rewrite Hread. cbn [bind].
    destruct (edges_align xdir e new_rect); simpl; [|auto].
    destruct keyboard_op.
    + pose proof (keyboard_branch_bound new_pos
                    (if new_pos >? old_pos then 1 else -1) e
                    (edge_coord xdir e) s Hnew
                    (Hsmall e (nth_error_In _ _ Hnth)) HI) as Hk.
      destruct (keyboard_branch _ _ _ _ _) as [s'|[[r rd'] ml']];
        simpl in *; [auto|]. split; [lia|]. intros _ _. lia.
    + pose proof (mouse_branch_frame self win new_pos
                    (if new_pos >? old_pos then 1 else -1) timeout_fn e
                    (edge_coord xdir e) s) as Hf.
      destruct (mouse_branch _ _ _ _ _ _ _ _) as [s'|[[r rd'] ml']];
        simpl in *.
      * intros _. destruct Hf as [-> _]. assumption.
      * rewrite Hf. split; [assumption | discriminate].
  - intros begin end_ s _ _ HI _.
    destruct (_ && _); simpl; (split; [lia || assumption | congruence]).
  - intros. simpl. assumption.
  - exists r, rd', ml'. split; [assumption|]. exact Hpost.
Qed.

End BuildupBound.

(** The fifteenth press against a window edge at 100. *)
Lemma keyboard_buildup_stays_below_threshold_witness :
  exists r rd' ml',
    apply_edge_resistance (ext := sample_ext) META_DIRECTION_LEFT sample_win
      100 101 (meta_rect 101 0 50 100)
      [vertical_edge 100 META_DIRECTION_LEFT META_EDGE_WINDOW]
      (set_keyboard_buildup (sample_data true) 14) 0 true true []
    = Ret (r, rd', ml') /\
    0 <= keyboard_buildup rd' < 32 /\
    (true = true -> r <> 101 -> 1 <= keyboard_buildup rd').
Proof.
  apply (keyboard_buildup_stays_below_threshold (ext := sample_ext)
           META_DIRECTION_LEFT sample_win 100 101 (meta_rect 101 0 50 100)
           [vertical_edge 100 META_DIRECTION_LEFT META_EDGE_WINDOW]
           (set_keyboard_buildup (sample_data true) 14) 0 true true []).
  - discriminate.
  - unfold len_ok, array_len, INT_MAX. simpl. lia.
  - unfold small. lia.
  - intros e [<- | []]. unfold small. simpl. lia.
  - simpl. lia.
Defined.

(** ** Fields that were never set do not matter *)

Lemma same_state_scrub (rd rd' : ResistanceDataForAnEdge) :
  same_state rd rd' <-> scrub rd = scrub rd'.
Proof.
  unfold same_state, scrub. destruct rd, rd'. simpl.
  split.
  - intros (Hs & Hk & Ha & Heq). subst.
    destruct timeout_setup1; [apply Heq; reflexivity | reflexivity].
  - destruct timeout_setup0, timeout_setup1; intros H; inversion H; subst;
      repeat split; auto; discriminate.
Qed.

Lemma scrub_idempotent (rd : ResistanceDataForAnEdge) :
  scrub (scrub rd) = scrub rd.
Proof. unfold scrub. destruct rd as [[] ? ? ? ? ? ? ?]; reflexivity. Qed.

(** A loop whose test and body do not see through [f] gives, up to [f],
    the same result from [f s] as from [s]. *)
Lemma while_loop_quotient {S R : Type} (f : S -> S) (g : R -> R)
    (cond : S -> bool) (body : S -> result (ctl S R)) :
  (forall s, f (f s) = f s) ->
  (forall s, cond (f s) = cond s) ->
  (forall s, result_map (ctl_map f g) (body (f s))
             = result_map (ctl_map f g) (body s)) ->
  forall fuel s,
    result_map (ctl_map f g) (while_loop fuel cond body (f s))
    = result_map (ctl_map f g) (while_loop fuel cond body s).
Proof.
  intros Hidem Hcond Hbody fuel.
  induction fuel as [|fuel IH]; intros s; simpl; rewrite Hcond.
  - destruct (cond s); simpl; [reflexivity | rewrite Hidem; reflexivity].
  - destruct (cond s); simpl; [|rewrite Hidem; reflexivity].
    specialize (Hbody s).
    destruct (body (f s)) as [[s1|r1]| | |], (body s) as [[s2|r2]| | |];
      simpl in *; try discriminate; try reflexivity.
    + inversion Hbody as [Hf]. rewrite <- (IH s1), <- (IH s2), Hf.
      reflexivity.
    + inversion Hbody as [Hg]. rewrite Hg. reflexivity.
Qed.

Section Unset.
Context {ext : Collaborators}.

Lemma walk_body_scrub (self : MetaDirection) (win : MetaWindow)
    (new_pos increment : Z) (new_rect : MetaRectangle) (edges : GArray)
    (timeout_fn : GSourceFunc) (xdir keyboard_op : bool) (s : WalkState) :
  result_map (ctl_map scrub_walk scrub_returned)
    (walk_body self win new_pos increment new_rect edges timeout_fn xdir
       keyboard_op (scrub_walk s))
  = result_map (ctl_map scrub_walk scrub_returned)
      (walk_body self win new_pos increment new_rect edges timeout_fn xdir
         keyboard_op s).
Proof.
  unfold walk_body. simpl walk_i.
  destruct (g_array_index edges (walk_i s)) as [e| | |]; simpl;
    try reflexivity.
  destruct (edges_align xdir e new_rect); simpl.
  2:{ unfold scrub_walk. simpl. rewrite scrub_idempotent. reflexivity. }
  destruct s as [i okay kbe [setup id pos over fn w kb allow] ml].
  destruct keyboard_op.
  - unfold keyboard_branch, scrub_walk, scrub_returned, scrub,
      set_keyboard_buildup.
    destruct setup; simpl;
      repeat (match goal with
              | |- context [if ?c then _ else _] => destruct c
              end; simpl); reflexivity.
  - unfold mouse_branch, scrub_walk, scrub_returned, scrub, g_timeout_add.
    destruct setup; simpl;
      [repeat (match goal with
               | |- context [if ?c then _ else _] => destruct c
               end; simpl); reflexivity|].
    destruct (movement_towards_edge (side_type e) increment),
      (timeout_length win e =? 0), over, allow; simpl;
      repeat (match goal with
              | |- context [if ?c then _ else _] => destruct c
              end; simpl); reflexivity.
Qed.

(** The walk from a record with its unset fields replaced gives, up to
    those fields, the result of the walk from the record itself. *)
Lemma resistance_walk_scrub (self : MetaDirection) (win : MetaWindow)
    (old_pos new_pos : Z) (new_rect : MetaRectangle) (edges : GArray)
    (rd : ResistanceDataForAnEdge) (timeout_fn : GSourceFunc)
    (xdir keyboard_op : bool) (ml : MainLoop) :
  result_map scrub_returned
    (resistance_walk self win old_pos new_pos new_rect edges (scrub rd)
       timeout_fn xdir keyboard_op ml)
  = result_map scrub_returned
      (resistance_walk self win old_pos new_pos new_rect edges rd
         timeout_fn xdir keyboard_op ml).
Proof.
  unfold resistance_walk. cbv zeta.
  destruct (find_index_of_edge_near_position edges old_pos _ xdir)
    as [begin| | |]; cbn [bind]; try reflexivity.
  destruct (find_index_of_edge_near_position edges new_pos _ xdir)
    as [end_| | |]; cbn [bind]; try reflexivity.
  pose proof (while_loop_quotient scrub_walk scrub_returned
                (walk_cond (new_pos >? old_pos) end_)
                (walk_body self win new_pos
                   (if new_pos >? old_pos then 1 else -1) new_rect edges
                   timeout_fn xdir keyboard_op)) as Hq.
  specialize (Hq ltac:(intros s; unfold scrub_walk; simpl;
                       rewrite scrub_idempotent; reflexivity)
                 ltac:(intros s; reflexivity)
                 ltac:(intros s; apply walk_body_scrub)
                 (Datatypes.S (length edges))
                 (mk_walk begin false G_MAXINT rd ml)).
  change (scrub_walk (mk_walk begin false G_MAXINT rd ml))
    with (mk_walk begin false G_MAXINT (scrub rd) ml) in Hq.
  destruct (while_loop _ _ _ (mk_walk begin false G_MAXINT (scrub rd) ml))
    as [[s1|[[r1 rd1] ml1]]| | |],
    (while_loop _ _ _ (mk_walk begin false G_MAXINT rd ml))
    as [[s2|[[r2 rd2] ml2]]| | |];
    simpl in Hq; try discriminate; cbn [bind]; try reflexivity.
  - inversion Hq as [[Hi Ho Hk Hd Hl]].
    destruct s1 as [i1 o1 k1 d1 l1], s2 as [i2 o2 k2 d2 l2].
    simpl in *. subst.
    destruct (o2 && negb (new_pos =? k2)); simpl.
    + unfold scrub, set_keyboard_buildup in *.
      destruct d1 as [[] ? ? ? ? ? ? ?], d2 as [[] ? ? ? ? ? ? ?];
        simpl in *; inversion Hd; subst; reflexivity.
    + rewrite Hd. reflexivity.
  - inversion Hq as [[Hr Hd Hl]]. simpl. rewrite Hd. reflexivity.
Qed.

Lemma remove_old_timeout_scrub (old_pos new_pos : Z)
    (rd : ResistanceDataForAnEdge) (ml : MainLoop) :
  scrub (fst (remove_old_timeout old_pos new_pos (scrub rd) ml))
  = scrub (fst (remove_old_timeout old_pos new_pos rd ml)) /\
  snd (remove_old_timeout old_pos new_pos (scrub rd) ml)
  = snd (remove_old_timeout old_pos new_pos rd ml).
Proof.
  unfold remove_old_timeout, scrub.
  destruct rd as [[] id pos over fn w kb allow]; simpl; auto.
Qed.

Lemma apply_edge_resistance_scrub (self : MetaDirection) (win : MetaWindow)
    (old_pos new_pos : Z) (new_rect : MetaRectangle) (edges : GArray)
    (rd : ResistanceDataForAnEdge) (timeout_fn : GSourceFunc)
    (xdir keyboard_op : bool) (ml : MainLoop) :
  result_map scrub_returned
    (apply_edge_resistance self win old_pos new_pos new_rect edges (scrub rd)
       timeout_fn xdir keyboard_op ml)
  = result_map scrub_returned
      (apply_edge_resistance self win old_pos new_pos new_rect edges rd
         timeout_fn xdir keyboard_op ml).
Proof.
  destruct (Z.eq_dec old_pos new_pos) as [Heq | Hneq].
  { unfold apply_edge_resistance. rewrite Heq, Z.eqb_refl. simpl.
    rewrite scrub_idempotent. reflexivity. }
  rewrite !apply_edge_resistance_moving by assumption.
  destruct (remove_old_timeout_scrub old_pos new_pos rd ml) as [Hrd Hml].
  rewrite Hml.
  rewrite <- (resistance_walk_scrub _ _ _ _ _ _
                (fst (remove_old_timeout old_pos new_pos (scrub rd) ml))).
  rewrite <- (resistance_walk_scrub _ _ _ _ _ _
                (fst (remove_old_timeout old_pos new_pos rd ml))).
  rewrite Hrd. reflexivity.
Qed.

End Unset.

Section UnsetFields.
Context {ext : Collaborators}.

(** X16.  The fields of a resistance record that
    [initialize_grab_edge_resistance_data] leaves unset ([timeout_id],
    [timeout_edge_pos], [timeout_over], [timeout_func], [window]) never
    influence a call.  Two records initialised from different memory
    contents agree on what a call may look at; and from two records that so
    agree, a call of [apply_edge_resistance] on a non-empty array returns
    the same position and the same main loop, and leaves two records that
    agree again, as does the timer callback. *)
Theorem unset_fields_never_matter :
  (forall garbage1 garbage2 allow,
     same_state (initialize_one garbage1 allow)
       (initialize_one garbage2 allow)) /\
  (forall rd1 rd2,
     same_state rd1 rd2 ->
     same_state (fst (edge_resistance_timeout rd1))
       (fst (edge_resistance_timeout rd2))) /\
  (forall self win old_pos new_pos new_rect edges rd1 rd2 timeout_fn xdir
          keyboard_op ml,
     edges <> [] -> len_ok edges -> same_state rd1 rd2 ->
     exists r rd1' rd2' ml',
       apply_edge_resistance self win old_pos new_pos new_rect edges rd1
         timeout_fn xdir keyboard_op ml = Ret (r, rd1', ml') /\
       apply_edge_resistance self win old_pos new_pos new_rect edges rd2
         timeout_fn xdir keyboard_op ml = Ret (r, rd2', ml') /\
       same_state rd1' rd2').
Proof.
  split; [|split].
  - intros garbage1 garbage2 allow. unfold same_state, initialize_one. simpl.
    repeat split; discriminate.
  - intros rd1 rd2 (Hs & Hk & Ha & Heq).
    unfold same_state, edge_resistance_timeout. simpl.
    repeat split; try assumption.
    intros H. rewrite (Heq H). reflexivity.
  - intros self win old_pos new_pos new_rect edges rd1 rd2 timeout_fn xdir
      keyboard_op ml Hne Hlen Hsame.
    apply same_state_scrub in Hsame.
    pose proof (apply_edge_resistance_scrub self win old_pos new_pos new_rect
                  edges rd1 timeout_fn xdir keyboard_op ml) as H1.
    pose proof (apply_edge_resistance_scrub self win old_pos new_pos new_rect
                  edges rd2 timeout_fn xdir keyboard_op ml) as H2.
    rewrite Hsame, H2 in H1.
    destruct (apply_edge_resistance_total self win old_pos new_pos new_rect
                edges rd1 timeout_fn xdir keyboard_op ml Hne Hlen)
      as ([[r1 rd1'] ml1] & Hr1).
    destruct (apply_edge_resistance_total self win old_pos new_pos new_rect
                edges rd2 timeout_fn xdir keyboard_op ml Hne Hlen)
      as ([[r2 rd2'] ml2] & Hr2).
    rewrite Hr1, Hr2 in H1. simpl in H1. inversion H1 as [[Hr Hd Hl]].
    exists r1, rd1', rd2', ml1. rewrite Hr1, Hr2, Hr, Hl.
    split; [reflexivity|]. split; [reflexivity|].
    apply same_state_scrub. symmetry. assumption.
Qed.

End UnsetFields.

(** A window that must stay on the screen is dragged across the left screen
    edge, once from a clean record and once from one whose unset fields hold
    other values. *)
Lemma unset_fields_never_matter_witness :
  exists r rd1' rd2' ml',
    apply_edge_resistance (ext := sample_ext) META_DIRECTION_LEFT onscreen_win
      10 (-50) (meta_rect (-50) 0 50 100)
      [vertical_edge 0 META_DIRECTION_LEFT META_EDGE_SCREEN]
      (sample_data true) 7 true false [] = Ret (r, rd1', ml') /\
    apply_edge_resistance (ext := sample_ext) META_DIRECTION_LEFT onscreen_win
      10 (-50) (meta_rect (-50) 0 50 100)
      [vertical_edge 0 META_DIRECTION_LEFT META_EDGE_SCREEN]
      (mk_resistance_data false 99 5 true 3 sample_win 0 true) 7 true false []
    = Ret (r, rd2', ml') /\
    same_state rd1' rd2'.
Proof.
  destruct (unset_fields_never_matter (ext := sample_ext)) as (_ & _ & H).
  apply H.
  - discriminate.
  - unfold len_ok, array_len, INT_MAX. simpl. lia.
  - unfold same_state. simpl. repeat split; discriminate.
Defined.

(** ** The entry points of a move and of a resize *)

Lemma set_edge_data_own (display : MetaDisplay)
    (edge_data : MetaEdgeResistanceData) :
  grab_edge_resistance_data display = Some edge_data ->
  set_edge_data display (Some edge_data) = display.
Proof. destruct display. simpl. intros ->. reflexivity. Qed.

Lemma set_side_data_own (edge_data : MetaEdgeResistanceData) :
  set_side_data edge_data (left_data edge_data) (right_data edge_data)
    (top_data edge_data) (bottom_data edge_data) = edge_data.
Proof. destruct edge_data. reflexivity. Qed.

Section EntryPoints.
Context {ext : Collaborators}.

(** With nothing to move, the four per-side calls change nothing and read
    no array. *)
Lemma each_side_without_motion (display : MetaDisplay) (win : MetaWindow)
    (outer : MetaRectangle) (timeout_fn : GSourceFunc)
    (auto_snap keyboard_op : bool) (ml : MainLoop)
    (edge_data : MetaEdgeResistanceData) :
  grab_edge_resistance_data display = Some edge_data ->
  rect_in_int outer ->
  apply_edge_resistance_to_each_side display win outer outer timeout_fn
    auto_snap keyboard_op ml
  = Ret (negb (meta_rectangle_equal outer outer), outer, display, ml).
Proof.
  intros Hdata (Hx & Hy & Hw & Hh & Hr & Hb).
  unfold apply_edge_resistance_to_each_side. rewrite Hdata.
  unfold apply_edge_snapping, apply_edge_resistance.
  rewrite !Z.eqb_refl. destruct auto_snap; cbn [bind]; cbv iota beta.
  - unfold BOX_LEFT, BOX_RIGHT, BOX_TOP, BOX_BOTTOM.
    rewrite (int_add_small (rect_x outer)), (int_add_small (rect_y outer))
      by assumption.
    rewrite !int_sub_small
      by (unfold in_int in *;
          repeat match goal with
                 | |- context [?a + ?b - ?a] =>
                     replace (a + b - a) with b by lia
                 end; assumption).
    replace (rect_x outer + rect_width outer - rect_x outer)
      with (rect_width outer) by lia.
    replace (rect_y outer + rect_height outer - rect_y outer)
      with (rect_height outer) by lia.
    rewrite set_edge_data_own by assumption.
    destruct outer. reflexivity.
  - unfold BOX_LEFT, BOX_RIGHT, BOX_TOP, BOX_BOTTOM.
    rewrite (int_add_small (rect_x outer)), (int_add_small (rect_y outer))
      by assumption.
    rewrite !int_sub_small
      by (unfold in_int in *;
          repeat match goal with
                 | |- context [?a + ?b - ?a] =>
                     replace (a + b - a) with b by lia
                 end; assumption).
    replace (rect_x outer + rect_width outer - rect_x outer)
      with (rect_width outer) by lia.
    replace (rect_y outer + rect_height outer - rect_y outer)
      with (rect_height outer) by lia.
    rewrite set_side_data_own, set_edge_data_own by assumption.
    destruct outer. reflexivity.
Qed.

Lemma smaller_change_zero (snap is_keyboard_op : bool) :
  smaller_change snap is_keyboard_op 0 0 = 0.
Proof. unfold smaller_change. split_ifs; reflexivity. Qed.

Lemma int_sub_diag (a : Z) : int_sub a a = 0.
Proof. unfold int_sub. rewrite Z.sub_diag. reflexivity. Qed.

Lemma int_add_0_r (a : Z) : in_int a -> int_add a 0 = a.
Proof. intros H. rewrite int_add_small; rewrite Z.add_0_r; auto. Qed.

(** X17.  A move that proposes the position the window already has comes
    back with that position, whatever the snap and keyboard flags: no edge
    array is read (so the call is safe even when an array is empty), no
    timer or resistance record changes, and the display only records the
    snap flag. *)
Theorem move_without_motion_is_identity (display : MetaDisplay)
    (win : MetaWindow) (old_x old_y : Z) (timeout_fn : GSourceFunc)
    (snap is_keyboard_op : bool) (ml : MainLoop)
    (edge_data : MetaEdgeResistanceData) :
  grab_edge_resistance_data display = Some edge_data ->
  in_int old_x -> in_int old_y ->
  rect_in_int (current_outer win display) ->
  meta_window_edge_resistance_for_move display win old_x old_y old_x old_y
    timeout_fn snap is_keyboard_op ml
  = Ret (old_x, old_y, set_last_user_action_was_snap display snap, ml).
Proof.
  intros Hdata Hox Hoy Hrect.
  unfold meta_window_edge_resistance_for_move.
  assert (Houter : current_outer win (set_last_user_action_was_snap display
                                        snap) = current_outer win display)
    by reflexivity.
  set (outer := current_outer win display) in *.
  assert (Hmoved : moved_outer outer old_x old_y old_x old_y = outer).
  { unfold moved_outer. rewrite !int_sub_diag.
    destruct Hrect as (Hx & Hy & _).
    rewrite !int_add_0_r by assumption. destruct outer. reflexivity. }
  cbv zeta. rewrite Hmoved.
  rewrite (each_side_without_motion (set_last_user_action_was_snap display
                                       snap) win outer timeout_fn snap
             is_keyboard_op ml edge_data Hdata Hrect).
  cbn [bind]. cbv iota beta.
  destruct (negb (meta_rectangle_equal outer outer)); [|reflexivity].
  assert (Href : (if snap && negb is_keyboard_op then outer else outer)
                 = outer) by (destruct (snap && negb is_keyboard_op); auto).
  rewrite Href, !int_sub_diag, !smaller_change_zero.
  rewrite !(int_add_0_r old_x), !(int_add_0_r old_y) by assumption.
  reflexivity.
Qed.

End EntryPoints.

(** A grab whose edge arrays are all empty: the call still returns. *)
Lemma move_without_motion_is_identity_witness :
  meta_window_edge_resistance_for_move (ext := moving_ext)
    (sample_display [] [] [] []) sample_win 5 5 5 5 0 false false []
  = Ret (5, 5,
         set_last_user_action_was_snap (sample_display [] [] [] []) false,
         []).
Proof.
  apply (move_without_motion_is_identity (ext := moving_ext)
           (sample_display [] [] [] []) sample_win 5 5 0 false false []
           (mk_edge_data [] [] [] [] (sample_data true) (sample_data true)
              (sample_data true) (sample_data true))).
  - reflexivity.
  - unfold in_int, INT_MIN, INT_MAX. lia.
  - unfold in_int, INT_MIN, INT_MAX. lia.
  - unfold rect_in_int, in_int, INT_MIN, INT_MAX. simpl. lia.
Defined.

Section GrabCalls.
Context {ext : Collaborators}.

(** With four non-empty arrays the per-side calls return; they leave the
    edge arrays and the other fields of the display as they were. *)
Lemma each_side_returns (display : MetaDisplay) (win : MetaWindow)
    (old_outer new_outer : MetaRectangle) (timeout_fn : GSourceFunc)
    (auto_snap keyboard_op : bool) (ml : MainLoop)
    (edge_data : MetaEdgeResistanceData) :
  grab_edge_resistance_data display = Some edge_data ->
  arrays_ok edge_data ->
  exists modified rect' edge_data' ml',
    apply_edge_resistance_to_each_side display win old_outer new_outer
      timeout_fn auto_snap keyboard_op ml
    = Ret (modified, rect', set_edge_data display (Some edge_data'), ml') /\
    forall side, side_edges edge_data' side = side_edges edge_data side.
Proof.
  intros Hdata Hok.
  destruct (Hok META_DIRECTION_LEFT) as [Hl Hll].
  destruct (Hok META_DIRECTION_RIGHT) as [Hr Hlr].
  destruct (Hok META_DIRECTION_TOP) as [Ht Hlt].
  destruct (Hok META_DIRECTION_BOTTOM) as [Hb Hlb].
  simpl in *.
  unfold apply_edge_resistance_to_each_side. rewrite Hdata.
  destruct auto_snap.
  - destruct (apply_edge_snapping_total (BOX_LEFT old_outer)
                (BOX_LEFT new_outer) new_outer (left_edges edge_data)
                (right_edges edge_data) true keyboard_op Hl Hll Hr Hlr)
      as (nl & ->).
    destruct (apply_edge_snapping_total (BOX_RIGHT old_outer)
                (BOX_RIGHT new_outer) new_outer (left_edges edge_data)
                (right_edges edge_data) true keyboard_op Hl Hll Hr Hlr)
      as (nr & ->).
    destruct (apply_edge_snapping_total (BOX_TOP old_outer)
                (BOX_TOP new_outer) new_outer (top_edges edge_data)
                (bottom_edges edge_data) false keyboard_op Ht Hlt Hb Hlb)
      as (nt & ->).
    destruct (apply_edge_snapping_total (BOX_BOTTOM old_outer)
                (BOX_BOTTOM new_outer) new_outer (top_edges edge_data)
                (bottom_edges edge_data) false keyboard_op Ht Hlt Hb Hlb)
      as (nb & ->).
    cbn [bind]. cbv iota beta.
    do 4 eexists. split; [reflexivity|]. reflexivity.
  - destruct (apply_edge_resistance_total META_DIRECTION_LEFT win
                (BOX_LEFT old_outer) (BOX_LEFT new_outer) new_outer
                (left_edges edge_data) (left_data edge_data) timeout_fn true
                keyboard_op ml Hl Hll) as ([[nl ld] ml1] & ->).
    cbn [bind]. cbv iota beta.
    destruct (apply_edge_resistance_total META_DIRECTION_RIGHT win
                (BOX_RIGHT old_outer) (BOX_RIGHT new_outer) new_outer
                (right_edges edge_data) (right_data edge_data) timeout_fn true
                keyboard_op ml1 Hr Hlr) as ([[nr rd] ml2] & ->).
    cbn [bind]. cbv iota beta.
    destruct (apply_edge_resistance_total META_DIRECTION_TOP win
                (BOX_TOP old_outer) (BOX_TOP new_outer) new_outer
                (top_edges edge_data) (top_data edge_data) timeout_fn false
                keyboard_op ml2 Ht Hlt) as ([[nt td] ml3] & ->).
    cbn [bind]. cbv iota beta.
    destruct (apply_edge_resistance_total META_DIRECTION_BOTTOM win
                (BOX_BOTTOM old_outer) (BOX_BOTTOM new_outer) new_outer
                (bottom_edges edge_data) (bottom_data edge_data) timeout_fn
                false keyboard_op ml3 Hb Hlb) as ([[nb bd] ml4] & ->).
    cbn [bind]. cbv iota beta.
    do 4 eexists. split; [reflexivity|].
    intros side. destruct side; reflexivity.
Qed.

(** X18.  During a grab whose four edge arrays are non-empty, every call
    of [meta_window_edge_resistance_for_move] and of
    [meta_window_edge_resistance_for_resize] returns; the display it leaves
    has the same four edge arrays (a move or resize never changes the
    cached edges), records the snap flag of the call in
    [grab_last_user_action_was_snap], and is otherwise unchanged. *)
Theorem grab_calls_return_and_keep_edges (display : MetaDisplay)
    (win : MetaWindow) (timeout_fn : GSourceFunc)
    (snap is_keyboard_op : bool) (ml : MainLoop)
    (edge_data : MetaEdgeResistanceData) :
  grab_edge_resistance_data display = Some edge_data ->
  arrays_ok edge_data ->
  (forall old_x old_y new_x new_y,
     exists x y display' ml' edge_data',
       meta_window_edge_resistance_for_move display win old_x old_y new_x
         new_y timeout_fn snap is_keyboard_op ml
       = Ret (x, y, display', ml') /\
       grab_edge_resistance_data display' = Some edge_data' /\
       (forall side, side_edges edge_data' side = side_edges edge_data side) /\
       grab_last_user_action_was_snap display' = snap /\
       same_grab display display') /\
  (forall old_width old_height new_width new_height gravity,
     exists width height display' ml' edge_data',
       meta_window_edge_resistance_for_resize display win old_width old_height
         new_width new_height gravity timeout_fn snap is_keyboard_op ml
       = Ret (width, height, display', ml') /\
       grab_edge_resistance_data display' = Some edge_data' /\
       (forall side, side_edges edge_data' side = side_edges edge_data side) /\
       grab_last_user_action_was_snap display' = snap /\
       same_grab display display').
Proof.
  intros Hdata Hok.
  assert (Hframe : forall edge_data',
    grab_last_user_action_was_snap
      (set_edge_data (set_last_user_action_was_snap display snap)
         (Some edge_data')) = snap /\
    same_grab display
      (set_edge_data (set_last_user_action_was_snap display snap)
         (Some edge_data'))).
  { intros edge_data'. unfold same_grab. simpl. repeat split. }
  split.
  - intros old_x old_y new_x new_y.
    unfold meta_window_edge_resistance_for_move. cbv zeta.
    destruct (each_side_returns (set_last_user_action_was_snap display snap)
                win (current_outer win display)
                (moved_outer (current_outer win display) old_x old_y new_x
                   new_y)
                timeout_fn snap is_keyboard_op ml edge_data Hdata Hok)
      as (modified & rect' & edge_data' & ml' & Hcall & Harrays).
    rewrite Hcall. cbn [bind]. cbv iota beta.
    destruct (Hframe edge_data') as [Hsnap Hsame].
    destruct modified; do 5 eexists;
      (split; [reflexivity|]); (split; [reflexivity|]);
      (split; [exact Harrays|]); split; assumption.
  - intros old_width old_height new_width new_height gravity.
    unfold meta_window_edge_resistance_for_resize. cbv zeta.
    destruct (each_side_returns (set_last_user_action_was_snap display snap)
                win (current_outer win display)
                (meta_rectangle_resize_with_gravity
                   (current_outer win display) gravity
                   (int_add (rect_width (current_outer win display))
                      (int_sub new_width old_width))
                   (int_add (rect_height (current_outer win display))
                      (int_sub new_height old_height)))
                timeout_fn snap is_keyboard_op ml edge_data Hdata Hok)
      as (modified & rect' & edge_data' & ml' & Hcall & Harrays).
    rewrite Hcall. cbn [bind]. cbv iota beta.
    destruct (Hframe edge_data') as [Hsnap Hsame].
    destruct modified; do 5 eexists;
      (split; [reflexivity|]); (split; [reflexivity|]);
      (split; [exact Harrays|]); split; assumption.
Qed.

End GrabCalls.

(** The grab with one window edge in each of its four arrays. *)
Lemma grab_calls_return_and_keep_edges_witness :
  exists x y display' ml' edge_data',
    meta_window_edge_resistance_for_move (ext := moving_ext)
      four_sided_display sample_win 100 0 95 3 0 false false []
    = Ret (x, y, display', ml') /\
    grab_edge_resistance_data display' = Some edge_data' /\
    (forall side,
       side_edges edge_data' side
       = side_edges
           (mk_edge_data
              [vertical_edge 110 META_DIRECTION_LEFT META_EDGE_WINDOW]
              [vertical_edge 500 META_DIRECTION_RIGHT META_EDGE_WINDOW]
              [mk_edge (meta_rect 0 300 1000 0) META_DIRECTION_TOP
                 META_EDGE_WINDOW]
              [mk_edge (meta_rect 0 600 1000 0) META_DIRECTION_BOTTOM
                 META_EDGE_WINDOW]
              (sample_data true) (sample_data true) (sample_data true)
              (sample_data true)) side) /\
    grab_last_user_action_was_snap display' = false /\
    same_grab four_sided_display display'.
Proof.
  destruct (grab_calls_return_and_keep_edges (ext := moving_ext)
              four_sided_display sample_win 0 false false []
              (mk_edge_data
                 [vertical_edge 110 META_DIRECTION_LEFT META_EDGE_WINDOW]
                 [vertical_edge 500 META_DIRECTION_RIGHT META_EDGE_WINDOW]
                 [mk_edge (meta_rect 0 300 1000 0) META_DIRECTION_TOP
                    META_EDGE_WINDOW]
                 [mk_edge (meta_rect 0 600 1000 0) META_DIRECTION_BOTTOM
                    META_EDGE_WINDOW]
                 (sample_data true) (sample_data true) (sample_data true)
                 (sample_data true))) as [Hmove _].
  - reflexivity.
  - intros side. destruct side; simpl; (split; [discriminate|]);
      unfold len_ok, array_len, INT_MAX; simpl; lia.
  - exact (Hmove 100 0 95 3).
Defined.

(** ** The life of the resistance data *)

Lemma set_edge_data_none (display : MetaDisplay)
    (d d' : option MetaEdgeResistanceData) :
  grab_edge_resistance_data display = None ->
  set_edge_data (set_edge_data (set_edge_data display d) d') None = display.
Proof. destruct display. simpl. intros ->. reflexivity. Qed.

Section Lifecycle.
Context {ext : Collaborators}.

(** X19.  The resistance data must exist exactly while a grab lasts.
    Without it, [meta_display_cleanup_edges], a move and a resize all fail
    their assertion; with it already there,
    [meta_display_compute_resistance_and_snapping_edges] fails the assertion
    of [cache_edges]. *)
Theorem grab_data_assertions (display : MetaDisplay) :
  (grab_edge_resistance_data display = None ->
   (forall ml, meta_display_cleanup_edges display ml = AssertFailed) /\
   (forall win old_x old_y new_x new_y timeout_fn snap is_keyboard_op ml,
      meta_window_edge_resistance_for_move display win old_x old_y new_x
        new_y timeout_fn snap is_keyboard_op ml = AssertFailed) /\
   (forall win old_width old_height new_width new_height gravity timeout_fn
           snap is_keyboard_op ml,
      meta_window_edge_resistance_for_resize display win old_width
        old_height new_width new_height gravity timeout_fn snap
        is_keyboard_op ml = AssertFailed)) /\
  (grab_edge_resistance_data display <> None ->
   forall garbage,
     meta_display_compute_resistance_and_snapping_edges garbage display
     = AssertFailed).
Proof.
  split.
  - intros Hnone. split; [|split].
    + intros ml. unfold meta_display_cleanup_edges. rewrite Hnone.
      reflexivity.
    + intros. unfold meta_window_edge_resistance_for_move,
        apply_edge_resistance_to_each_side. simpl. rewrite Hnone.
      reflexivity.
    + intros. unfold meta_window_edge_resistance_for_resize,
        apply_edge_resistance_to_each_side. simpl. rewrite Hnone.
      reflexivity.
  - intros Hsome garbage.
    unfold meta_display_compute_resistance_and_snapping_edges, cache_edges.
    destruct (grab_edge_resistance_data display); [reflexivity | congruence].
Qed.

(** X20.  A grab that begins and ends with nothing in between leaves no
    trace: on a display without resistance data
    [meta_display_compute_resistance_and_snapping_edges] returns, and
    [meta_display_cleanup_edges] run on its result gives back the display
    as it was, with the main loop untouched (no timer was set up, so no
    source is removed). *)
Theorem compute_then_cleanup_restores_display
    (garbage : ResistanceDataForAnEdge) (display : MetaDisplay)
    (ml : MainLoop) :
  grab_edge_resistance_data display = None ->
  exists display1 freed,
    meta_display_compute_resistance_and_snapping_edges garbage display
    = Ret display1 /\
    meta_display_cleanup_edges display1 ml = Ret (display, ml, freed).
Proof.
  intros Hnone.
  unfold meta_display_compute_resistance_and_snapping_edges, cache_edges.
  rewrite Hnone. cbn [bind].
  unfold initialize_grab_edge_resistance_data. simpl.
  eexists. eexists. split; [reflexivity|].
  unfold meta_display_cleanup_edges. simpl.
  unfold cleanup_timeout. simpl.
  rewrite set_edge_data_none by assumption. reflexivity.
Qed.

End Lifecycle.

(** The display at the start of the sample grab, and the display of a grab
    in progress. *)
Lemma grab_data_assertions_witness :
  meta_display_cleanup_edges starting_display [] = AssertFailed /\
  meta_display_compute_resistance_and_snapping_edges (ext := stack_ext)
    (sample_data true) four_sided_display = AssertFailed.
Proof.
  split.
  - apply (grab_data_assertions (ext := stack_ext) starting_display).
    reflexivity.
  - apply (grab_data_assertions (ext := stack_ext) four_sided_display).
    discriminate.
Defined.

Lemma compute_then_cleanup_restores_display_witness :
  exists display1 freed,
    meta_display_compute_resistance_and_snapping_edges (ext := stack_ext)
      (sample_data true) starting_display = Ret display1 /\
    meta_display_cleanup_edges display1 [] = Ret (starting_display, [], freed).
Proof.
  apply (compute_then_cleanup_restores_display (ext := stack_ext)
           (sample_data true) starting_display []).
  reflexivity.
Defined.

(** ** The end of a grab and the timers *)

Lemma cleanup_timeout_clears (rd : ResistanceDataForAnEdge)
    (side : MetaDirection) (ml : MainLoop) :
  timer_ok rd side ml -> pending_for side (cleanup_timeout rd ml) = [].
Proof.
  intros Hok. unfold cleanup_timeout.
  destruct (timeout_setup rd) eqn:Hs; simpl.
  - destruct (Z.eqb_spec (timeout_id rd) 0) as [Hz | Hnz]; simpl.
    + eapply timer_ok_none; [eassumption | right; assumption].
    + apply pending_for_remove_own. assumption.
  - eapply timer_ok_none; [eassumption | left; assumption].
Qed.

Lemma cleanup_timeout_keeps (rd : ResistanceDataForAnEdge)
    (side : MetaDirection) (ml : MainLoop) :
  keeps side ml (cleanup_timeout rd ml) /\ incl (cleanup_timeout rd ml) ml.
Proof.
  unfold cleanup_timeout. destruct (_ && _).
  - split; [apply keeps_remove | unfold g_source_remove; apply incl_filter].
  - split; [apply keeps_refl | apply incl_refl].
Qed.

Lemma keeps_nil (side : MetaDirection) (ml ml' : MainLoop) :
  keeps side ml ml' -> pending_for side ml = [] -> pending_for side ml' = [].
Proof.
  intros [Hlen _] Hnil. rewrite Hnil in Hlen. simpl in Hlen.
  destruct (pending_for side ml'); [reflexivity | simpl in Hlen; lia].
Qed.

Section CleanupTimers.
Context {ext : Collaborators}.

(** X21.  However a grab went (any sequence of [apply_edge_resistance]
    calls and timer dispatches from a main loop that held no resistance
    timer), [meta_display_cleanup_edges] returns, drops the resistance
    data, and leaves no resistance timer pending for any of the four
    sides; it adds no source to the main loop.  No callback can run later on
    the released data. *)
Theorem cleanup_cancels_resistance_timers (display : MetaDisplay)
    (edge_data0 : MetaEdgeResistanceData) (ml0 : MainLoop)
    (events : list GrabEvent) (edge_data : MetaEdgeResistanceData)
    (ml : MainLoop) :
  (forall side, pending_for side ml0 = []) ->
  grab_run (edge_data0, ml0) events = Ret (edge_data, ml) ->
  grab_edge_resistance_data display = Some edge_data ->
  exists display' ml' freed,
    meta_display_cleanup_edges display ml = Ret (display', ml', freed) /\
    grab_edge_resistance_data display' = None /\
    (forall side, pending_for side ml' = []) /\
    incl ml' ml.
Proof.
  intros Hinit Hrun Hdata.
  assert (Hok : timers_ok (edge_data, ml)).
  { eapply grab_run_timers_ok; [|eassumption].
    intros side. apply timer_ok_nil. apply Hinit. }
  unfold timers_ok in Hok. simpl in Hok.
  unfold meta_display_cleanup_edges. rewrite Hdata. cbv zeta.
  set (ml1 := cleanup_timeout (left_data edge_data) ml).
  set (ml2 := cleanup_timeout (right_data edge_data) ml1).
  set (ml3 := cleanup_timeout (top_data edge_data) ml2).
  set (ml4 := cleanup_timeout (bottom_data edge_data) ml3).
  assert (K1 : forall side, keeps side ml ml1)
    by (intros; apply cleanup_timeout_keeps).
  assert (K2 : forall side, keeps side ml1 ml2)
    by (intros; apply cleanup_timeout_keeps).
  assert (K3 : forall side, keeps side ml2 ml3)
    by (intros; apply cleanup_timeout_keeps).
  assert (K4 : forall side, keeps side ml3 ml4)
    by (intros; apply cleanup_timeout_keeps).
  do 3 eexists. split; [reflexivity|]. split; [reflexivity|]. split.
  - intros side. destruct side.
    + apply (keeps_nil _ ml3); [apply K4|].
      apply (keeps_nil _ ml2); [apply K3|].
      apply (keeps_nil _ ml1); [apply K2|].
      apply cleanup_timeout_clears. apply (Hok META_DIRECTION_LEFT).
    + apply (keeps_nil _ ml3); [apply K4|].
      apply (keeps_nil _ ml2); [apply K3|].
      apply cleanup_timeout_clears.
      eapply timer_ok_keeps; [apply (Hok META_DIRECTION_RIGHT) | apply K1].
    + apply (keeps_nil _ ml3); [apply K4|].
      apply cleanup_timeout_clears.
      eapply timer_ok_keeps; [apply (Hok META_DIRECTION_TOP)|].
      eapply keeps_trans; [apply K1 | apply K2].
    + apply cleanup_timeout_clears.
      eapply timer_ok_keeps; [apply (Hok META_DIRECTION_BOTTOM)|].
      eapply keeps_trans; [apply K1|].
      eapply keeps_trans; [apply K2 | apply K3].
  - unfold ml4, ml3, ml2, ml1.
    eapply incl_tran; [apply cleanup_timeout_keeps; exact META_DIRECTION_LEFT|].
    eapply incl_tran; [apply cleanup_timeout_keeps; exact META_DIRECTION_LEFT|].
    eapply incl_tran; [apply cleanup_timeout_keeps; exact META_DIRECTION_LEFT|].
    apply cleanup_timeout_keeps; exact META_DIRECTION_LEFT.
Qed.

End CleanupTimers.

(** The grab in which the mouse went for the screen edge ends while its
    timer is still pending. *)
Lemma cleanup_cancels_resistance_timers_witness :
  exists display' ml' freed,
    meta_display_cleanup_edges
      (set_edge_data starting_display (Some (fst armed_grab)))
      (snd armed_grab) = Ret (display', ml', freed) /\
    grab_edge_resistance_data display' = None /\
    (forall side, pending_for side ml' = []) /\
    incl ml' (snd armed_grab).
Proof.
  apply (cleanup_cancels_resistance_timers (ext := sample_ext)
           (set_edge_data starting_display (Some (fst armed_grab)))
           screen_grab [] toward_screen_edge (fst armed_grab)
           (snd armed_grab)).
  - intros side. reflexivity.
  - vm_compute. reflexivity.
  - reflexivity.
Defined.

(** ** The cached arrays *)

Lemma side_split (l : list MetaEdge) :
  Permutation
    (filter (fun e => side_eqb (side_type e) META_DIRECTION_LEFT) l ++
     filter (fun e => side_eqb (side_type e) META_DIRECTION_RIGHT) l ++
     filter (fun e => side_eqb (side_type e) META_DIRECTION_TOP) l ++
     filter (fun e => side_eqb (side_type e) META_DIRECTION_BOTTOM) l) l.
Proof.
  induction l as [|e l IH]; simpl; [constructor|].
  destruct (side_type e); simpl.
  - constructor. assumption.
  - symmetry. apply Permutation_cons_app. symmetry. assumption.
  - symmetry. rewrite app_assoc. apply Permutation_cons_app.
    rewrite <- app_assoc. symmetry. assumption.
  - symmetry. rewrite 2 app_assoc. apply Permutation_cons_app.
    rewrite <- 2 app_assoc. symmetry. assumption.
Qed.

Lemma filter_perm {A : Type} (f : A -> bool) (l l' : list A) :
  Permutation l l' -> Permutation (filter f l) (filter f l').
Proof.
  induction 1 as [|x l l' _ IH|x y l|l l' l'' _ IH1 _ IH2]; simpl.
  - constructor.
  - destruct (f x); [constructor|]; assumption.
  - destruct (f x), (f y); try constructor; apply Permutation_refl.
  - eapply Permutation_trans; eassumption.
Qed.

Lemma filter_all {A : Type} (f : A -> bool) (l : list A) :
  (forall x, In x l -> f x = true) -> filter f l = l.
Proof.
  induction l as [|x l IH]; intros H; simpl; [reflexivity|].
  rewrite (H x (or_introl eq_refl)), IH; [reflexivity|].
  intros y Hy. apply H. right. assumption.
Qed.

Lemma filter_none {A : Type} (f : A -> bool) (l : list A) :
  (forall x, In x l -> f x = false) -> filter f l = [].
Proof.
  induction l as [|x l IH]; intros H; simpl; [reflexivity|].
  rewrite (H x (or_introl eq_refl)). apply IH.
  intros y Hy. apply H. right. assumption.
Qed.

Section CachedEdges.
Context {ext : Collaborators}.
Hypothesis array_sort_permutes :
  forall cmp l, Permutation (g_array_sort cmp l) l.

(** X22.  [cache_edges] sorts every edge it is given into the array of its
    side: on a display without resistance data it returns, an edge is in the
    array of a side exactly when it is one of the window, xinerama or screen
    edges given and has that side, and the four arrays together hold each
    given edge as many times as it was given (no edge is lost or
    duplicated).  [g_array_sort] is taken to permute its array. *)
Theorem cache_edges_splits_by_side (garbage : ResistanceDataForAnEdge)
    (display : MetaDisplay)
    (window_edges xinerama_edges screen_edges : list MetaEdge) :
  grab_edge_resistance_data display = None ->
  exists edge_data,
    cache_edges garbage display window_edges xinerama_edges screen_edges
    = Ret (set_edge_data display (Some edge_data)) /\
    (forall side e,
       In e (side_edges edge_data side) <->
       In e (window_edges ++ xinerama_edges ++ screen_edges) /\
       side_type e = side) /\
    Permutation
      (left_edges edge_data ++ right_edges edge_data ++
       top_edges edge_data ++ bottom_edges edge_data)
      (window_edges ++ xinerama_edges ++ screen_edges).
Proof.
  intros Hnone. unfold cache_edges. rewrite Hnone.
  eexists. split; [reflexivity|]. split.
  - intros side e.
    assert (Hside : In e (side_edges
      (mk_edge_data
         (g_array_sort stupid_sort_requiring_extra_pointer_dereference
            (edges_of_side META_DIRECTION_LEFT window_edges xinerama_edges
               screen_edges))
         (g_array_sort stupid_sort_requiring_extra_pointer_dereference
            (edges_of_side META_DIRECTION_RIGHT window_edges xinerama_edges
               screen_edges))
         (g_array_sort stupid_sort_requiring_extra_pointer_dereference
            (edges_of_side META_DIRECTION_TOP window_edges xinerama_edges
               screen_edges))
         (g_array_sort stupid_sort_requiring_extra_pointer_dereference
            (edges_of_side META_DIRECTION_BOTTOM window_edges xinerama_edges
               screen_edges))
         garbage garbage garbage garbage) side) <->
      In e (edges_of_side side window_edges xinerama_edges screen_edges)).
    { destruct side; simpl; split; intros H;
        (eapply Permutation_in; [|exact H]);
        try apply array_sort_permutes;
        symmetry; apply array_sort_permutes. }
    rewrite Hside. unfold edges_of_side. rewrite filter_In.
    rewrite side_eqb_eq. reflexivity.
  - simpl.
    eapply Permutation_trans; [|apply side_split].
    unfold edges_of_side.
    repeat apply Permutation_app; apply array_sort_permutes.
Qed.

(** X23.  Ownership of the cached edges: when the edges made from windows
    are all of the window class and the workspace's xinerama and screen
    edges are not, the edges that [meta_display_cleanup_edges] releases at
    the end of a grab are exactly those that
    [meta_display_compute_resistance_and_snapping_edges] made at its start
    (each one once: nothing leaks, nothing is released twice), and no edge
    of the workspace is released.  [g_array_sort] is taken to permute its
    array. *)
Theorem cleanup_frees_the_window_edges (garbage : ResistanceDataForAnEdge)
    (display : MetaDisplay) (ml : MainLoop) :
  grab_edge_resistance_data display = None ->
  (forall e, In e (window_edges_of_grab display) ->
             edge_type e = META_EDGE_WINDOW) ->
  (forall e,
     In e (xinerama_edges (active_workspace (grab_screen display)) ++
           screen_edges (active_workspace (grab_screen display))) ->
     edge_type e <> META_EDGE_WINDOW) ->
  exists display1 freed,
    meta_display_compute_resistance_and_snapping_edges garbage display
    = Ret display1 /\
    meta_display_cleanup_edges display1 ml = Ret (display, ml, freed) /\
    Permutation freed (window_edges_of_grab display).
Proof.
  intros Hnone Hwin Hother.
  unfold meta_display_compute_resistance_and_snapping_edges, cache_edges.
  rewrite Hnone. cbn [bind].
  unfold initialize_grab_edge_resistance_data. simpl.
  eexists. eexists. split; [reflexivity|].
  unfold meta_display_cleanup_edges. simpl.
  unfold cleanup_timeout. simpl.
  rewrite set_edge_data_none by assumption.
  split; [reflexivity|].
  set (all := window_edges_of_grab display ++
              xinerama_edges (active_workspace (grab_screen display)) ++
              screen_edges (active_workspace (grab_screen display))).
  assert (Hall : filter is_window_edge all = window_edges_of_grab display).
  { unfold all. rewrite filter_app.
    rewrite filter_all, filter_none; [apply app_nil_r | |].
    - intros e He. specialize (Hother e He). unfold is_window_edge.
      destruct (edge_type e); congruence.
    - intros e He. unfold is_window_edge. rewrite (Hwin e He). reflexivity. }
  apply Permutation_trans with (filter is_window_edge all);
    [|rewrite Hall; apply Permutation_refl].
  eapply Permutation_trans;
    [|apply filter_perm; apply (side_split all)].
  unfold freed_from, edges_of_side. fold all. rewrite !filter_app.
  repeat apply Permutation_app; apply filter_perm, array_sort_permutes.
Qed.

End CachedEdges.

(** The edges of the sample grab: four from its normal window, four from
    the screen. *)
Lemma cache_edges_splits_by_side_witness :
  exists edge_data,
    cache_edges (ext := stack_ext) (sample_data true) starting_display
      (window_edges_of_grab (ext := stack_ext) starting_display) []
      (screen_edges (active_workspace (grab_screen starting_display)))
    = Ret (set_edge_data starting_display (Some edge_data)) /\
    (forall side e,
       In e (side_edges edge_data side) <->
       In e (window_edges_of_grab (ext := stack_ext) starting_display ++
             [] ++
             screen_edges (active_workspace (grab_screen starting_display)))
       /\ side_type e = side) /\
    Permutation
      (left_edges edge_data ++ right_edges edge_data ++
       top_edges edge_data ++ bottom_edges edge_data)
      (window_edges_of_grab (ext := stack_ext) starting_display ++ [] ++
       screen_edges (active_workspace (grab_screen starting_display))).
Proof.
  apply (cache_edges_splits_by_side (ext := stack_ext) insertion_sort_perm
           (sample_data true) starting_display).
  reflexivity.
Defined.

Lemma cleanup_frees_the_window_edges_witness :
  exists display1 freed,
    meta_display_compute_resistance_and_snapping_edges (ext := stack_ext)
      (sample_data true) starting_display = Ret display1 /\
    meta_display_cleanup_edges display1 [] = Ret (starting_display, [], freed)
    /\
    Permutation freed (window_edges_of_grab (ext := stack_ext)
                         starting_display).
Proof.
  apply (cleanup_frees_the_window_edges (ext := stack_ext)
           insertion_sort_perm (sample_data true) starting_display []).
  - reflexivity.
  - intros e He. vm_compute in He.
    repeat (destruct He as [<- | He]; [reflexivity|]). contradiction.
  - intros e He. vm_compute in He.
    repeat (destruct He as [<- | He]; [discriminate|]). contradiction.
Defined.

(** ** Which windows cut the edges of a window *)

Section StackOrder.
Context {ext : Collaborators}.

Lemma obscuring_rects (display : MetaDisplay) (ws : list MetaWindow) :
  forall p, fst (obscuring display ws p) = relevant_rects display ws.
Proof.
  induction ws as [|w ws IH]; intros p; simpl; [reflexivity|].
  specialize (IH (int_add p 1)).
  destruct (obscuring display ws (int_add p 1)) as [r q]. simpl in IH.
  destruct (WINDOW_EDGES_RELEVANT w display); simpl; rewrite IH; reflexivity.
Qed.

Lemma obscuring_positions (display : MetaDisplay) (ws : list MetaWindow) :
  forall p, 0 <= p -> p + Z.of_nat (length ws) <= INT_MAX ->
    length (fst (obscuring display ws p))
    = length (snd (obscuring display ws p)) /\
    Forall (fun q => p <= q) (snd (obscuring display ws p)).
Proof.
  induction ws as [|w ws IH]; intros p Hp Hlen; simpl.
  - split; [reflexivity | constructor].
  - simpl length in Hlen.
    assert (Hnext : int_add p 1 = p + 1)
      by (apply int_add_small; unfold in_int, INT_MIN, INT_MAX in *; lia).
    rewrite Hnext. destruct (IH (p + 1)) as [Hl Hall]; [lia | lia |].
    destruct (obscuring display ws (p + 1)) as [r q]. simpl in *.
    assert (Hall' : Forall (fun q => p <= q) q).
    { eapply Forall_impl; [|exact Hall]. simpl. intros; lia. }
    destruct (WINDOW_EDGES_RELEVANT w display); simpl.
    + split; [congruence|]. constructor; [lia | assumption].
    + split; assumption.
Qed.

(** The entries at or below the current stacking position are dropped, the
    others stay. *)
Lemma drop_lower_split (p : Z) (sw rw : list MetaRectangle) (sp rp : list Z) :
  length sw = length sp ->
  Forall (fun q => q <= p) sp -> Forall (fun q => p < q) rp ->
  drop_lower p (sw ++ rw) (sp ++ rp) = (rw, rp).
Proof.
  revert sw. induction sp as [|q sp IH]; intros sw Hl Hlow Hhigh.
  - destruct sw; [|discriminate]. simpl.
    destruct rp as [|q rp]; [reflexivity|]. simpl.
    inversion Hhigh; subst.
    destruct (Z.geb_spec p q); [lia | reflexivity].
  - destruct sw as [|x sw]; [discriminate|]. simpl.
    inversion Hlow; subst.
    destruct (Z.geb_spec p q); [|lia].
    apply IH; [simpl in Hl; congruence | assumption | assumption].
Qed.

Lemma collect_edges_above (display : MetaDisplay) (ws : list MetaWindow) :
  forall p sw sp acc,
    0 <= p -> p + Z.of_nat (length ws) <= INT_MAX ->
    length sw = length sp -> Forall (fun q => q < p) sp ->
    collect_edges display ws p
      (sw ++ fst (obscuring display ws p))
      (sp ++ snd (obscuring display ws p)) acc
    = edges_above display ws ++ acc.
Proof.
  induction ws as [|w ws IH]; intros p sw sp acc Hp Hlen Hl Hstale;
    [reflexivity|].
  simpl length in Hlen.
  assert (Hnext : int_add p 1 = p + 1)
    by (apply int_add_small; unfold in_int, INT_MIN, INT_MAX in *; lia).
  pose proof (obscuring_positions display ws (p + 1)) as Hpos.
  pose proof (obscuring_rects display ws (p + 1)) as Hrects.
  assert (Hstale' : Forall (fun q => q < p + 1) sp).
  { eapply Forall_impl; [|exact Hstale]. simpl. intros; lia. }
  simpl. rewrite Hnext.
  specialize (IH (p + 1)).
  destruct (obscuring display ws (p + 1)) as [r q]. simpl in Hpos, Hrects.
  destruct Hpos as [Hlrq Hq]; [lia | lia |].
  destruct (WINDOW_EDGES_RELEVANT w display) eqn:Hrel; simpl.
  - (* relevant: the window is in the two lists, at position [p] *)
    destruct (negb (MetaWindowType_eqb (type w) META_WINDOW_DOCK)); simpl.
    + replace (sw ++ meta_window_get_outer_rect w :: r)
        with ((sw ++ [meta_window_get_outer_rect w]) ++ r)
        by (rewrite <- app_assoc; reflexivity).
      replace (sp ++ p :: q) with ((sp ++ [p]) ++ q)
        by (rewrite <- app_assoc; reflexivity).
      rewrite drop_lower_split.
      * specialize (IH [] [] (edges_from_window display w r ++ acc)).
        simpl in IH. rewrite IH; [|lia | lia | reflexivity | constructor].
        rewrite Hrects, app_assoc. reflexivity.
      * rewrite !length_app. simpl. congruence.
      * apply Forall_app. split.
        -- eapply Forall_impl; [|exact Hstale]. simpl. intros; lia.
        -- constructor; [lia | constructor].
      * eapply Forall_impl; [|exact Hq]. simpl. intros; lia.
    + replace (sw ++ meta_window_get_outer_rect w :: r)
        with ((sw ++ [meta_window_get_outer_rect w]) ++ r)
        by (rewrite <- app_assoc; reflexivity).
      replace (sp ++ p :: q) with ((sp ++ [p]) ++ q)
        by (rewrite <- app_assoc; reflexivity).
      specialize (IH (sw ++ [meta_window_get_outer_rect w]) (sp ++ [p]) acc).
      simpl in IH. rewrite IH.
      * rewrite app_nil_r. reflexivity.
      * lia.
      * lia.
      * rewrite !length_app. simpl. congruence.
      * apply Forall_app. split; [assumption|].
        constructor; [lia | constructor].
  - specialize (IH sw sp acc). simpl in IH.
    rewrite IH; try assumption; try lia.
    rewrite app_nil_r. reflexivity.
Qed.

(** X24.  The bookkeeping of the edge extraction (two parallel lists of
    obscuring rectangles and stacking positions, consumed as the loop
    climbs the stack) does what it is meant to: for a stack of fewer than
    2^31 windows, the window edges of a grab are the sorted list of, for
    each relevant window that is not a dock, its four edges cut by the
    relevant windows stacked above it, and by no window below it. *)
Theorem window_edges_are_cut_by_windows_above (display : MetaDisplay) :
  Z.of_nat (length (meta_stack_list_windows (grab_screen display)))
  <= INT_MAX ->
  window_edges_of_grab display
  = g_list_sort meta_rectangle_edge_cmp
      (edges_above display (meta_stack_list_windows (grab_screen display))).
Proof.
  intros Hlen. unfold window_edges_of_grab. cbv zeta.
  pose proof (collect_edges_above display
                (meta_stack_list_windows (grab_screen display)) 0 [] [] [])
    as H.
  simpl in H.
  destruct (obscuring display (meta_stack_list_windows (grab_screen display))
              0) as [rw rs].
  simpl in H. rewrite H; [|lia | lia | reflexivity | constructor].
  rewrite app_nil_r. reflexivity.
Qed.

End StackOrder.

(** The stack of the sample grab: a desktop, a normal window, a dock and
    the grabbed window. *)
Lemma window_edges_are_cut_by_windows_above_witness :
  window_edges_of_grab (ext := stack_ext) starting_display
  = g_list_sort (Collaborators := stack_ext)
      (meta_rectangle_edge_cmp (Collaborators := stack_ext))
      (edges_above (ext := stack_ext) starting_display
         (meta_stack_list_windows (Collaborators := stack_ext)
            (grab_screen starting_display))).
Proof.
  apply (window_edges_are_cut_by_windows_above (ext := stack_ext)
           starting_display).
  unfold INT_MAX. simpl. lia.
Defined.

(** ** Once the timer has fired *)

Section FiredTimer.
Context {ext : Collaborators}.

Lemma mouse_branch_fired (self : MetaDirection) (win : MetaWindow)
    (new_pos increment : Z) (timeout_fn : GSourceFunc) (edge : MetaEdge)
    (compare : Z) (s : WalkState) :
  timeout_setup (walk_data s) = true ->
  timeout_over (walk_data s) = true ->
  allow_past_screen_edge (walk_data s) = true ->
  mouse_branch self win new_pos increment timeout_fn edge compare s
  = if ABS (int_sub compare new_pos) <? pixel_threshold edge increment
    then Break (compare, walk_data s, walk_loop s)
    else Continue (mk_walk (int_add (walk_i s) increment)
                     (okay_to_clear_keyboard_buildup s)
                     (keyboard_buildup_edge s) (walk_data s) (walk_loop s)).
Proof.
  intros Hs Ho Ha. unfold mouse_branch. rewrite Hs, Ha. simpl.
  rewrite !andb_false_r. simpl. rewrite Ho. simpl.
  rewrite !andb_false_r. reflexivity.
Qed.

Lemma remove_old_timeout_relevant (old_pos new_pos : Z)
    (rd : ResistanceDataForAnEdge) (ml : MainLoop) :
  Z.min old_pos new_pos <= timeout_edge_pos rd <= Z.max old_pos new_pos ->
  remove_old_timeout old_pos new_pos rd ml = (rd, ml).
Proof.
  intros H. unfold remove_old_timeout.
  destruct (Z.gtb_spec (timeout_edge_pos rd) old_pos),
    (Z.gtb_spec (timeout_edge_pos rd) new_pos),
    (Z.ltb_spec (timeout_edge_pos rd) old_pos),
    (Z.ltb_spec (timeout_edge_pos rd) new_pos); try lia;
    simpl; rewrite ?andb_false_r; reflexivity.
Qed.

(** X25.  Once the timer of a side has fired ([timeout_over]), and while
    the edge it was armed for still lies between the old and the proposed
    position, time no longer holds the side: a mouse operation on a side
    that may pass screen edges arms no new timer and leaves the record and
    the main loop as they are, and it stops the side short of the proposed
    position only at an aligned edge that is less than its pixel threshold
    away from the proposed position. *)
Theorem fired_timer_leaves_pixel_resistance (self : MetaDirection)
    (win : MetaWindow) (old_pos new_pos : Z) (new_rect : MetaRectangle)
    (edges : GArray) (rd : ResistanceDataForAnEdge)
    (timeout_fn : GSourceFunc) (xdir : bool) (ml : MainLoop) :
  edges <> [] -> len_ok edges ->
  small new_pos ->
  (forall e, In e edges -> small (edge_coord xdir e)) ->
  timeout_setup rd = true -> timeout_over rd = true ->
  Z.min old_pos new_pos <= timeout_edge_pos rd <= Z.max old_pos new_pos ->
  allow_past_screen_edge rd = true ->
  exists r,
    apply_edge_resistance self win old_pos new_pos new_rect edges rd
      timeout_fn xdir false ml = Ret (r, rd, ml) /\
    (r = new_pos \/
     exists e, In e edges /\ edges_align xdir e new_rect = true /\
       edge_coord xdir e = r /\
       Z.abs (r - new_pos)
       < pixel_threshold e (if new_pos >? old_pos then 1 else -1)).
Proof.
  intros Hne Hlen Hnew Hsmall Hsetup Hover Hpos Hallow.
  destruct (Z.eq_dec old_pos new_pos) as [Heq | Hneq].
  { exists new_pos. unfold apply_edge_resistance.
    rewrite Heq, Z.eqb_refl. auto. }
  rewrite apply_edge_resistance_moving by assumption.
  rewrite remove_old_timeout_relevant by assumption. simpl.
  destruct (resistance_walk_rule self win old_pos new_pos new_rect edges
              timeout_fn xdir false
              (fun _ _ s =>
                 walk_data s = rd /\ walk_loop s = ml /\
                 okay_to_clear_keyboard_buildup s = false)
              (fun r : Returned =>
                 snd (fst r) = rd /\ snd r = ml /\
                 (fst (fst r) = new_pos \/
                  exists e, In e edges /\ edges_align xdir e new_rect = true /\
                    edge_coord xdir e = fst (fst r) /\
                    Z.abs (fst (fst r) - new_pos)
                    < pixel_threshold e
                        (if new_pos >? old_pos then 1 else -1)))
              Hne Hlen) with (rd := rd) (ml := ml)
    as ([[r rd'] ml'] & Hr & Hpost).
  - intros begin end_ s e _ _ (Hd & Hl & Ho) _ _ Hnth Hread.
    unfold walk_body. rewrite Hread. cbn [bind].
    destruct (edges_align xdir e new_rect) eqn:Ha; simpl.
    + rewrite mouse_branch_fired by (rewrite Hd; assumption).
      pose proof (Hsmall e (nth_error_In _ _ Hnth)) as He.
      rewrite ABS_sub_small by assumption.
      destruct (Z.ltb_spec (Z.abs (edge_coord xdir e - new_pos))
                  (pixel_threshold e (if new_pos >? old_pos then 1 else -1)))
        as [Hnear | Hfar]; simpl.
      * split; [assumption|]. split; [assumption|]. right.
        exists e. split; [eapply nth_error_In; eassumption|].
        split; [assumption|]. split; [reflexivity | assumption].
      * intros _. auto.
    + intros _. auto.
  - intros begin end_ s _ _ (Hd & Hl & Ho) _. rewrite Ho. simpl. auto.
  - intros. simpl. auto.
  - simpl in Hpost. destruct Hpost as (-> & -> & Hcases).
    exists r. split; [assumption | exact Hcases].
Qed.

End FiredTimer.

(** The timer for the left screen edge has fired; the window is dragged on
    from 10 to -50. *)
Lemma fired_timer_leaves_pixel_resistance_witness :
  exists r,
    apply_edge_resistance (ext := sample_ext) META_DIRECTION_LEFT onscreen_win
      10 (-50) (meta_rect (-50) 0 50 100)
      [vertical_edge 0 META_DIRECTION_LEFT META_EDGE_SCREEN]
      (mk_resistance_data true 0 0 true 7 onscreen_win 0 true) 7 true false []
    = Ret (r, mk_resistance_data true 0 0 true 7 onscreen_win 0 true, []) /\
    (r = -50 \/
     exists e,
       In e [vertical_edge 0 META_DIRECTION_LEFT META_EDGE_SCREEN] /\
       edges_align (ext := sample_ext) true e (meta_rect (-50) 0 50 100)
       = true /\
       edge_coord true e = r /\
       Z.abs (r - -50) < pixel_threshold e (if -50 >? 10 then 1 else -1)).
Proof.
  apply (fired_timer_leaves_pixel_resistance (ext := sample_ext)
           META_DIRECTION_LEFT onscreen_win 10 (-50)
           (meta_rect (-50) 0 50 100)
           [vertical_edge 0 META_DIRECTION_LEFT META_EDGE_SCREEN]
           (mk_resistance_data true 0 0 true 7 onscreen_win 0 true) 7 true
           []).
  - discriminate.
  - unfold len_ok, array_len, INT_MAX. simpl. lia.
  - unfold small. lia.
  - intros e [<- | []]. unfold small. simpl. lia.
  - reflexivity.
  - reflexivity.
  - simpl. lia.
  - reflexivity.
Defined.

(** ** Which side may be kept on the screen *)

Section ScreenBarrierSide.
Context {ext : Collaborators}.

Lemma keyboard_branch_allow (new_pos increment : Z) (edge : MetaEdge)
    (compare : Z) (s : WalkState) :
  allow_past_screen_edge
    (fst (outcome_state (keyboard_branch new_pos increment edge compare s)))
  = allow_past_screen_edge (walk_data s).
Proof.
  unfold keyboard_branch.
  repeat (match goal with
          | |- context [if ?c then _ else _] => destruct c
          end; simpl); reflexivity.
Qed.

(** No call changes [allow_past_screen_edge]. *)
Lemma apply_edge_resistance_allow (self : MetaDirection) (win : MetaWindow)
    (old_pos new_pos : Z) (new_rect : MetaRectangle) (edges : GArray)
    (rd : ResistanceDataForAnEdge) (timeout_fn : GSourceFunc)
    (xdir keyboard_op : bool) (ml : MainLoop) :
  match apply_edge_resistance self win old_pos new_pos new_rect edges rd
          timeout_fn xdir keyboard_op ml with
  | Ret (_, rd', _) => allow_past_screen_edge rd' = allow_past_screen_edge rd
  | _ => True
  end.
Proof.
  unfold apply_edge_resistance.
  destruct (old_pos =? new_pos); [reflexivity|].
  pose proof (remove_old_timeout_allow old_pos new_pos rd ml) as [Hal _].
  destruct (remove_old_timeout old_pos new_pos rd ml) as [rd1 ml1].
  simpl in Hal. rewrite <- Hal. clear Hal.
  unfold resistance_walk. cbv zeta.
  destruct (find_index_of_edge_near_position edges old_pos _ xdir)
    as [begin| | |]; cbn [bind]; try exact I.
  destruct (find_index_of_edge_near_position edges new_pos _ xdir)
    as [end_| | |]; cbn [bind]; try exact I.
  pose proof (while_loop_partial
    (fun s => allow_past_screen_edge (walk_data s)
              = allow_past_screen_edge rd1)
    (fun r : Returned =>
       allow_past_screen_edge (snd (fst r)) = allow_past_screen_edge rd1)
    (walk_cond (new_pos >? old_pos) end_)
    (walk_body self win new_pos (if new_pos >? old_pos then 1 else -1)
       new_rect edges timeout_fn xdir keyboard_op)) as Hrule.
  assert (Hstep : forall s,
    allow_past_screen_edge (walk_data s) = allow_past_screen_edge rd1 ->
    walk_cond (new_pos >? old_pos) end_ s = true ->
    match walk_body self win new_pos (if new_pos >? old_pos then 1 else -1)
            new_rect edges timeout_fn xdir keyboard_op s with
    | Ret (Continue s') =>
        allow_past_screen_edge (walk_data s') = allow_past_screen_edge rd1
    | Ret (Break r) =>
        allow_past_screen_edge (snd (fst r)) = allow_past_screen_edge rd1
    | _ => True
    end).
  { intros s Hs _. unfold walk_body.
    destruct (g_array_index edges (walk_i s)) as [e| | |]; cbn [bind];
      try exact I.
    destruct (edges_align xdir e new_rect); simpl; [|assumption].
    destruct keyboard_op.
    - pose proof (keyboard_branch_allow new_pos
                    (if new_pos >? old_pos then 1 else -1) e
                    (edge_coord xdir e) s) as Hk.
      destruct (keyboard_branch _ _ _ _ _) as [s'|[[r rd'] ml']];
        simpl in *; congruence.
    - pose proof (mouse_branch_cases self win new_pos
                    (if new_pos >? old_pos then 1 else -1) timeout_fn e
                    (edge_coord xdir e) s) as Hm.
      destruct (mouse_branch _ _ _ _ _ _ _ _) as [s'|[[r rd'] ml']];
        simpl in *; destruct Hm as [_ Hm]; congruence. }
  specialize (Hrule Hstep (Datatypes.S (length edges))
                (mk_walk begin false G_MAXINT rd1 ml1) eq_refl).
  destruct (while_loop _ _ _ _) as [[s'|[[r rd'] ml']]| | |]; cbn [bind];
    try exact I.
  - destruct Hrule as [Hs' _]. destruct (_ && _); simpl; assumption.
  - exact Hrule.
Qed.

Lemma grab_step_allow (st : GrabState) (ev : GrabEvent) :
  match grab_step st ev with
  | Ret st' =>
      forall side,
        allow_past_screen_edge (side_data (fst st') side)
        = allow_past_screen_edge (side_data (fst st) side)
  | _ => True
  end.
Proof.
  destruct st as [edge_data ml].
  destruct ev as [side win old_pos new_pos new_rect timeout_fn keyboard_op
                 | id]; simpl.
  - pose proof (apply_edge_resistance_allow side win old_pos new_pos new_rect
                  (side_edges edge_data side) (side_data edge_data side)
                  timeout_fn (side_xdir side) keyboard_op ml) as Hcall.
    destruct (apply_edge_resistance _ _ _ _ _ _ _ _ _ _ _)
      as [[[r rd'] ml']| | |]; simpl; try exact I.
    intros other. destruct side, other; simpl; auto.
  - destruct (find (fun s => source_id s =? id) ml) as [s|]; [|reflexivity].
    destruct (source_data s) as [side|addr]; [|reflexivity].
    simpl. intros other. destruct side, other; reflexivity.
Qed.

(** X26.  The infinite resistance of screen edges can only ever apply to
    the top side: from the state
    [meta_display_compute_resistance_and_snapping_edges] leaves, along any
    sequence of calls and timer dispatches, [allow_past_screen_edge] stays
    true for the left, right and bottom sides, and for the top side keeps
    the value given at the start of the grab, which is whether the grab's
    anchor is at or below the top of the window's initial position. *)
Theorem screen_barrier_only_for_top_side (garbage : ResistanceDataForAnEdge)
    (display display1 : MetaDisplay) (edge_data1 : MetaEdgeResistanceData)
    (ml : MainLoop) (events : list GrabEvent)
    (edge_data : MetaEdgeResistanceData) (ml' : MainLoop) :
  meta_display_compute_resistance_and_snapping_edges garbage display
  = Ret display1 ->
  grab_edge_resistance_data display1 = Some edge_data1 ->
  grab_run (edge_data1, ml) events = Ret (edge_data, ml') ->
  forall side,
    allow_past_screen_edge (side_data edge_data side)
    = match side with
      | META_DIRECTION_TOP =>
          grab_anchor_root_y display >=?
          rect_y (grab_initial_window_pos display)
      | _ => true
      end.
Proof.
  intros Hcompute Hdata Hrun.
  assert (Hstart : forall side,
    allow_past_screen_edge (side_data edge_data1 side)
    = match side with
      | META_DIRECTION_TOP =>
          grab_anchor_root_y display >=?
          rect_y (grab_initial_window_pos display)
      | _ => true
      end).
  { revert Hcompute.
    unfold meta_display_compute_resistance_and_snapping_edges, cache_edges.
    destruct (grab_edge_resistance_data display); [discriminate|].
    cbn [bind]. unfold initialize_grab_edge_resistance_data. simpl.
    intros Heq. inversion Heq. subst display1. simpl in Hdata.
    inversion Hdata. subst edge_data1.
    intros side. destruct side; reflexivity. }
  clear Hcompute Hdata.
  revert edge_data1 ml Hstart Hrun.
  induction events as [|ev rest IH]; intros edge_data1 ml Hstart Hrun;
    cbn [grab_run] in Hrun.
  - inversion Hrun. subst. exact Hstart.
  - pose proof (grab_step_allow (edge_data1, ml) ev) as Hstep.
    destruct (grab_step (edge_data1, ml) ev) as [[ed2 ml2]| | |];
      cbn [bind] in Hrun; try discriminate.
    apply (IH ed2 ml2); [|assumption].
    intros side. simpl in Hstep. rewrite Hstep. apply Hstart.
Qed.

End ScreenBarrierSide.

(** The sample grab, dragged up and to the left. *)
Lemma screen_barrier_only_for_top_side_witness :
  grab_edge_resistance_data computed_display = Some computed_edges /\
  forall side,
    allow_past_screen_edge (side_data (fst dragged_grab) side)
    = match side with
      | META_DIRECTION_TOP =>
          grab_anchor_root_y starting_display >=?
          rect_y (grab_initial_window_pos starting_display)
      | _ => true
      end.
Proof.
  split; [reflexivity |].
  apply (screen_barrier_only_for_top_side (ext := stack_ext)
           (sample_data true) starting_display computed_display
           computed_edges [] drag_up_and_left (fst dragged_grab)
           (snd dragged_grab)).
  - vm_compute. reflexivity.
  - reflexivity.
  - vm_compute. reflexivity.
Defined.

(** ** A move under resistance stays between the old and the proposed
    position *)

Lemma smaller_change_between (is_keyboard_op : bool) (a b d : Z) :
  Z.min 0 d <= a <= Z.max 0 d -> Z.min 0 d <= b <= Z.max 0 d ->
  Z.min 0 d <= smaller_change false is_keyboard_op a b <= Z.max 0 d.
Proof.
  intros Hra Hrb. unfold smaller_change. simpl.
  destruct (ABS a <? ABS b); assumption.
Qed.

Section MoveBetween.
Context {ext : Collaborators}.

(** X27.  A move under edge resistance (not snapping) is only ever held
    back: during a grab with four non-empty sorted edge arrays, for
    coordinates far from the limits of an [int],
    [meta_window_edge_resistance_for_move] returns a position that lies, on
    each axis, between the old and the proposed position of the window. *)
Theorem move_stays_between_old_and_proposed (display : MetaDisplay)
    (win : MetaWindow) (old_x old_y new_x new_y : Z)
    (timeout_fn : GSourceFunc) (is_keyboard_op : bool) (ml : MainLoop)
    (edge_data : MetaEdgeResistanceData) :
  grab_edge_resistance_data display = Some edge_data ->
  arrays_ok edge_data -> arrays_sorted edge_data ->
  small old_x -> small old_y -> small new_x -> small new_y ->
  rect_small (current_outer win display) ->
  exists x y display' ml',
    meta_window_edge_resistance_for_move display win old_x old_y new_x new_y
      timeout_fn false is_keyboard_op ml = Ret (x, y, display', ml') /\
    Z.min old_x new_x <= x <= Z.max old_x new_x /\
    Z.min old_y new_y <= y <= Z.max old_y new_y.
Proof.
  intros Hdata Hok Hsorted Hox Hoy Hnx Hny (Hx & Hy & Hw & Hh).
  destruct (Hok META_DIRECTION_LEFT) as [Hl Hll].
  destruct (Hok META_DIRECTION_RIGHT) as [Hr Hlr].
  destruct (Hok META_DIRECTION_TOP) as [Ht Hlt].
  destruct (Hok META_DIRECTION_BOTTOM) as [Hb Hlb].
  pose proof (Hsorted META_DIRECTION_LEFT) as Hsl.
  pose proof (Hsorted META_DIRECTION_RIGHT) as Hsr.
  pose proof (Hsorted META_DIRECTION_TOP) as Hst.
  pose proof (Hsorted META_DIRECTION_BOTTOM) as Hsb.
  simpl in Hl, Hll, Hr, Hlr, Ht, Hlt, Hb, Hlb, Hsl, Hsr, Hst, Hsb.
  unfold meta_window_edge_resistance_for_move. cbv zeta.
  set (outer := current_outer win display) in *.
  unfold small in *.
  assert (Hprop : moved_outer outer old_x old_y new_x new_y
                  = meta_rect (rect_x outer + (new_x - old_x))
                      (rect_y outer + (new_y - old_y))
                      (rect_width outer) (rect_height outer)).
  { unfold moved_outer.
    rewrite (int_sub_small new_x old_x), (int_sub_small new_y old_y)
      by (unfold in_int, INT_MIN, INT_MAX; lia).
    rewrite !int_add_small by (unfold in_int, INT_MIN, INT_MAX; lia).
    reflexivity. }
  rewrite Hprop. set (proposed := meta_rect _ _ _ _).
  unfold apply_edge_resistance_to_each_side.
  change (grab_edge_resistance_data
            (set_last_user_action_was_snap display false))
    with (grab_edge_resistance_data display).
  rewrite Hdata.
  unfold BOX_LEFT, BOX_RIGHT, BOX_TOP, BOX_BOTTOM. simpl rect_x.
  simpl rect_y. simpl rect_width. simpl rect_height.
  rewrite !int_add_small by (unfold in_int, INT_MIN, INT_MAX; lia).
  destruct (apply_edge_resistance_between META_DIRECTION_LEFT win
              (rect_x outer) (rect_x outer + (new_x - old_x)) proposed
              (left_edges edge_data) (left_data edge_data) timeout_fn true
              is_keyboard_op ml Hl Hll Hsl)
    as (nl & ld & ml1 & -> & _ & Hnl).
  cbn [bind]. cbv iota beta.
  destruct (apply_edge_resistance_between META_DIRECTION_RIGHT win
              (rect_x outer + rect_width outer)
              (rect_x outer + (new_x - old_x) + rect_width outer) proposed
              (right_edges edge_data) (right_data edge_data) timeout_fn true
              is_keyboard_op ml1 Hr Hlr Hsr)
    as (nr & rd & ml2 & -> & _ & Hnr).
  cbn [bind]. cbv iota beta.
  destruct (apply_edge_resistance_between META_DIRECTION_TOP win
              (rect_y outer) (rect_y outer + (new_y - old_y)) proposed
              (top_edges edge_data) (top_data edge_data) timeout_fn false
              is_keyboard_op ml2 Ht Hlt Hst)
    as (nt & td & ml3 & -> & _ & Hnt).
  cbn [bind]. cbv iota beta.
  destruct (apply_edge_resistance_between META_DIRECTION_BOTTOM win
              (rect_y outer + rect_height outer)
              (rect_y outer + (new_y - old_y) + rect_height outer) proposed
              (bottom_edges edge_data) (bottom_data edge_data) timeout_fn
              false is_keyboard_op ml3 Hb Hlb Hsb)
    as (nb & bd & ml4 & -> & _ & Hnb).
  cbn [bind]. cbv iota beta.
  destruct (negb (meta_rectangle_equal proposed _)).
  2:{ do 4 eexists. split; [reflexivity | lia]. }
  simpl andb. cbv iota.
  unfold BOX_LEFT, BOX_RIGHT, BOX_TOP, BOX_BOTTOM. simpl rect_x.
  simpl rect_y. simpl rect_width. simpl rect_height.
  rewrite (int_sub_small nr nl), (int_sub_small nb nt)
    by (unfold in_int, INT_MIN, INT_MAX; lia).
  rewrite (int_add_small nl (nr - nl)), (int_add_small nt (nb - nt))
    by (unfold in_int, INT_MIN, INT_MAX; lia).
  replace (nl + (nr - nl)) with nr by lia.
  replace (nt + (nb - nt)) with nb by lia.
  rewrite !int_sub_diag.
  rewrite (int_sub_small nl), (int_sub_small nr), (int_sub_small nt),
    (int_sub_small nb) by (unfold in_int, INT_MIN, INT_MAX; lia).
  pose proof (smaller_change_between is_keyboard_op (nl - rect_x outer)
                (nr - (rect_x outer + rect_width outer)) (new_x - old_x))
    as Hcx.
  pose proof (smaller_change_between is_keyboard_op (nt - rect_y outer)
                (nb - (rect_y outer + rect_height outer)) (new_y - old_y))
    as Hcy.
  specialize (Hcx ltac:(lia) ltac:(lia)).
  specialize (Hcy ltac:(lia) ltac:(lia)).
  set (cx := smaller_change false is_keyboard_op (nl - rect_x outer) _)
    in *.
  set (cy := smaller_change false is_keyboard_op (nt - rect_y outer) _)
    in *.
  rewrite (int_add_small old_x cx), (int_add_small old_y cy)
    by (unfold in_int, INT_MIN, INT_MAX; lia).
  rewrite (int_add_small (old_x + cx) 0), (int_add_small (old_y + cy) 0)
    by (unfold in_int, INT_MIN, INT_MAX; lia).
  do 4 eexists. split; [reflexivity | lia].
Qed.

End MoveBetween.

(** The window of the sample grab is moved by the mouse from (100, 0)
    towards (95, 3). *)
Lemma move_stays_between_old_and_proposed_witness :
  exists x y display' ml',
    meta_window_edge_resistance_for_move (ext := moving_ext)
      four_sided_display sample_win 100 0 95 3 0 false false []
    = Ret (x, y, display', ml') /\
    Z.min 100 95 <= x <= Z.max 100 95 /\
    Z.min 0 3 <= y <= Z.max 0 3.
Proof.
  apply (move_stays_between_old_and_proposed (ext := moving_ext)
           four_sided_display sample_win 100 0 95 3 0 false []
           (mk_edge_data
              [vertical_edge 110 META_DIRECTION_LEFT META_EDGE_WINDOW]
              [vertical_edge 500 META_DIRECTION_RIGHT META_EDGE_WINDOW]
              [mk_edge (meta_rect 0 300 1000 0) META_DIRECTION_TOP
                 META_EDGE_WINDOW]
              [mk_edge (meta_rect 0 600 1000 0) META_DIRECTION_BOTTOM
                 META_EDGE_WINDOW]
              (sample_data true) (sample_data true) (sample_data true)
              (sample_data true))).
  - reflexivity.
  - intros side. destruct side; simpl; (split; [discriminate|]);
      unfold len_ok, array_len, INT_MAX; simpl; lia.
  - intros side. destruct side; reflexivity.
  - unfold small. lia.
  - unfold small. lia.
  - unfold small. lia.
  - unfold small. lia.
  - unfold rect_small, small. simpl. lia.
Defined.

(** A keyboard move to the left from 130 to 90 over window edges at 100
    and 110. *)
Lemma keyboard_passes_only_distant_edges_witness :
  exists r rd' ml',
    apply_edge_resistance (ext := sample_ext) META_DIRECTION_LEFT sample_win
      130 90 (meta_rect 90 0 50 100)
      [vertical_edge 100 META_DIRECTION_LEFT META_EDGE_WINDOW;
       vertical_edge 110 META_DIRECTION_LEFT META_EDGE_WINDOW]
      (sample_data true) 0 true true [] = Ret (r, rd', ml') /\
    forall e,
      In e [vertical_edge 100 META_DIRECTION_LEFT META_EDGE_WINDOW;
            vertical_edge 110 META_DIRECTION_LEFT META_EDGE_WINDOW] ->
      edges_align (ext := sample_ext) true e (meta_rect 90 0 50 100) = true ->
      (if 90 >? 130 then 130 <= edge_coord true e < r
       else r < edge_coord true e <= 130) ->
      keyboard_resistance e (if 90 >? 130 then 1 else -1)
      <= Z.abs (edge_coord true e - 90).
Proof.
  apply (keyboard_passes_only_distant_edges (ext := sample_ext)
           META_DIRECTION_LEFT sample_win 130 90 (meta_rect 90 0 50 100)
           [vertical_edge 100 META_DIRECTION_LEFT META_EDGE_WINDOW;
            vertical_edge 110 META_DIRECTION_LEFT META_EDGE_WINDOW]
           (sample_data true) 0 true []).
  - discriminate.
  - unfold len_ok, array_len, INT_MAX. simpl. lia.
  - reflexivity.
  - unfold small. lia.
  - intros e [<- | [<- | []]]; unfold small; simpl; lia.
  - reflexivity.
Defined.

(** ** Arming a timer *)

Lemma timeout_length_values (win : MetaWindow) (edge : MetaEdge) :
  timeout_length win edge = 0 \/ timeout_length win edge = 100 \/
  timeout_length win edge = 750.
Proof.
  unfold timeout_length.
  destruct (edge_type edge), (require_on_single_xinerama win),
    (require_fully_onscreen win); auto.
Qed.

Section Arming.
Context {ext : Collaborators}.

(** A mouse step that goes on adds no source; one that stops either adds
    none, or has just armed the timer of the side for the edge it stops
    at. *)
Lemma mouse_branch_arming (self : MetaDirection) (win : MetaWindow)
    (new_pos increment : Z) (timeout_fn : GSourceFunc) (edge : MetaEdge)
    (compare : Z) (s : WalkState) :
  match mouse_branch self win new_pos increment timeout_fn edge compare s with
  | Continue s' => walk_loop s' = walk_loop s
  | Break (r, rd', ml') =>
      ml' = walk_loop s \/
      (ml' = mk_source (timeout_id rd') (timeout_length win edge)
               (resistance_data_of self) :: walk_loop s /\
       timeout_id rd' = fresh_source_id (walk_loop s) /\
       timeout_length win edge <> 0 /\
       timeout_setup rd' = true /\ timeout_over rd' = false /\
       timeout_edge_pos rd' = r /\
       timeout_func rd' = timeout_fn /\ window rd' = win)
  end.
Proof.
  unfold mouse_branch, g_timeout_add.
  destruct (_ && negb (allow_past_screen_edge (walk_data s)) && _);
    [left; reflexivity|].
  destruct (movement_towards_edge (side_type edge) increment &&
            negb (timeout_setup (walk_data s)) &&
            negb (timeout_length win edge =? 0)) eqn:Harm.
  - apply andb_true_iff in Harm as [Harm Hlen].
    apply andb_true_iff in Harm as [Htowards _].
    rewrite Htowards, Hlen. simpl. right.
    apply negb_true_iff, Z.eqb_neq in Hlen. repeat split; assumption.
  - split_ifs; simpl; auto.
Qed.

(** X28.  Arming a timer and stopping go together: a mouse operation on a
    non-empty array adds at most one source to the main loop, and when it
    does, the source is a timer of 100 or 750 milliseconds whose data is the
    record of the side, the call stops the side at the edge the timer is
    for (it returns [timeout_edge_pos]), and the record names the new
    source and holds the callback and the window of this call, with
    [timeout_over] cleared. *)
Theorem arming_a_timer_stops_the_side (self : MetaDirection)
    (win : MetaWindow) (old_pos new_pos : Z) (new_rect : MetaRectangle)
    (edges : GArray) (rd : ResistanceDataForAnEdge)
    (timeout_fn : GSourceFunc) (xdir : bool) (ml : MainLoop) :
  edges <> [] -> len_ok edges ->
  exists r rd' ml',
    apply_edge_resistance self win old_pos new_pos new_rect edges rd
      timeout_fn xdir false ml = Ret (r, rd', ml') /\
    (incl ml' ml \/
     exists interval kept,
       ml' = mk_source (timeout_id rd') interval (resistance_data_of self)
             :: kept /\
       incl kept ml /\
       (interval = 100 \/ interval = 750) /\
       timeout_id rd' = fresh_source_id kept /\
       timeout_setup rd' = true /\ timeout_over rd' = false /\
       timeout_edge_pos rd' = r /\
       timeout_func rd' = timeout_fn /\ window rd' = win).
Proof.
  intros Hne Hlen.
  destruct (Z.eq_dec old_pos new_pos) as [Heq | Hneq].
  { exists new_pos, rd, ml. unfold apply_edge_resistance.
    rewrite Heq, Z.eqb_refl. split; [reflexivity|]. left. apply incl_refl. }
  rewrite apply_edge_resistance_moving by assumption.
  pose proof (remove_old_timeout_shrinks old_pos new_pos rd ml) as [Hincl _].
  destruct (remove_old_timeout old_pos new_pos rd ml) as [rd1 ml1].
  simpl in *.
  destruct (resistance_walk_rule self win old_pos new_pos new_rect edges
              timeout_fn xdir false
              (fun _ _ s => walk_loop s = ml1)
              (fun r : Returned =>
                 snd r = ml1 \/
                 exists interval,
                   snd r = mk_source (timeout_id (snd (fst r))) interval
                             (resistance_data_of self) :: ml1 /\
                   (interval = 100 \/ interval = 750) /\
                   timeout_id (snd (fst r)) = fresh_source_id ml1 /\
                   timeout_setup (snd (fst r)) = true /\
                   timeout_over (snd (fst r)) = false /\
                   timeout_edge_pos (snd (fst r)) = fst (fst r) /\
                   timeout_func (snd (fst r)) = timeout_fn /\
                   window (snd (fst r)) = win)
              Hne Hlen) with (rd := rd1) (ml := ml1)
    as ([[r rd'] ml'] & Hr & Hpost).
  - intros begin end_ s e _ _ Hl _ _ _ Hread.
    unfold walk_body. rewrite Hread. cbn [bind].
    destruct (edges_align xdir e new_rect); simpl; [|auto].
    pose proof (mouse_branch_arming self win new_pos
                  (if new_pos >? old_pos then 1 else -1) timeout_fn e
                  (edge_coord xdir e) s) as Ha.
    destruct (mouse_branch _ _ _ _ _ _ _ _) as [s'|[[r rd'] ml']]; simpl.
    + intros _. congruence.
    + destruct Ha as [-> | (Hml & Hid & Hnz & Hs & Ho & Hp & Hf & Hw)];
        [left; assumption|].
      right. exists (timeout_length win e). rewrite <- Hl.
      split; [assumption|]. split.
      * destruct (timeout_length_values win e) as [H0 | H]; [congruence|].
        exact H.
      * repeat split; assumption.
  - intros begin end_ s _ _ Hl _. destruct (_ && _); simpl; left; assumption.
  - intros. reflexivity.
  - exists r, rd', ml'. split; [assumption|]. simpl in Hpost.
    destruct Hpost as [-> | (interval & Hml & Hint & Hid & Hrest)].
    + left. assumption.
    + right. exists interval, ml1. repeat split; try assumption; apply Hrest.
Qed.

End Arming.

(** A window that must stay on the screen is dragged from 10 to -50 across
    the left edge of the screen: a timer of 750 ms is armed. *)
Lemma arming_a_timer_stops_the_side_witness :
  exists r rd' ml',
    apply_edge_resistance (ext := sample_ext) META_DIRECTION_LEFT onscreen_win
      10 (-50) (meta_rect (-50) 0 50 100)
      [vertical_edge 0 META_DIRECTION_LEFT META_EDGE_SCREEN]
      (sample_data true) 7 true false [] = Ret (r, rd', ml') /\
    (incl ml' [] \/
     exists interval kept,
       ml' = mk_source (timeout_id rd') interval
               (resistance_data_of META_DIRECTION_LEFT) :: kept /\
       incl kept [] /\
       (interval = 100 \/ interval = 750) /\
       timeout_id rd' = fresh_source_id kept /\
       timeout_setup rd' = true /\ timeout_over rd' = false /\
       timeout_edge_pos rd' = r /\
       timeout_func rd' = 7 /\ window rd' = onscreen_win).
Proof.
  apply (arming_a_timer_stops_the_side (ext := sample_ext)
           META_DIRECTION_LEFT onscreen_win 10 (-50)
           (meta_rect (-50) 0 50 100)
           [vertical_edge 0 META_DIRECTION_LEFT META_EDGE_SCREEN]
           (sample_data true) 7 true []).
  - discriminate.
  - unfold len_ok, array_len, INT_MAX. simpl. lia.
Defined.
